(** * watchlist-config-generator: symbology-to-pattern compiler and extractor

    Shallow embedding of [watchlist_config_generator.py].  Python strings are
    [string] (ASCII text; the lines of a reference file are taken after
    [decode("utf8")]), Python lists are [list], the JSON dictionary
    [{"source_id": ["symbol"]}] is a [gmap string (list string)], and a call
    that may raise is a value of [outcome]: [Return v] or [Raise e].  The
    standard modules the code calls are modelled next to it: [re] by a reader
    of pattern text and a backtracking matcher, [bz2] and the file system by
    what a file gives when it is read, [pathlib] by the POSIX spelling of a
    path, [csv] by the text of the rows it writes. *)

From Stdlib Require Import String Ascii List Lia Bool Arith.
From Stdlib Require DecimalString.
From stdpp Require Import base option gmap strings sorting.
Import ListNotations.
Open Scope string_scope.
Open Scope list_scope.

(** ** Exceptions and the error monad *)

(** The exceptions the module can meet.  [SystemExit] carries the argument of
    [sys.exit]; [Unmodelled] marks regular-expression syntax that lies outside
    the fragment of [re] described further down. *)
Inductive pyexn : Type :=
| TypeError
| IndexError
| OSError
| EOFError
| ReError
| SystemExit (code : string)
| Unmodelled.

Definition exn_class (e : pyexn) : string :=
  match e with
  | TypeError => "TypeError"
  | IndexError => "IndexError"
  | OSError => "OSError"
  | EOFError => "EOFError"
  | ReError => "re.error"
  | SystemExit _ => "SystemExit"
  | Unmodelled => "Unmodelled"
  end.

(** [except OSError] catches exactly the instances of [OSError]. *)
Definition is_OSError (e : pyexn) : bool :=
  match e with OSError => true | _ => false end.

Inductive outcome (A : Type) : Type :=
| Return (a : A)
| Raise (e : pyexn).
Arguments Return {A} a.
Arguments Raise {A} e.

Definition bind {A B : Type} (c : outcome A) (k : A -> outcome B) : outcome B :=
  match c with
  | Return a => k a
  | Raise e => Raise e
  end.

Notation "'let*' x ':=' c 'in' k" := (bind c (fun x => k))
  (at level 10, x name, c at level 200, k at level 200).

Fixpoint mapM {A B : Type} (f : A -> outcome B) (l : list A) : outcome (list B) :=
  match l with
  | [] => Return []
  | a :: l' => let* b := f a in let* bs := mapM f l' in Return (b :: bs)
  end.

Definition returns {A : Type} (c : outcome A) : bool :=
  match c with Return _ => true | Raise _ => false end.

(** ** The [str] and [list] operations the module uses *)

(** [s.split(sep)] for a one-character separator. *)
Fixpoint split (sep : ascii) (s : string) : list string :=
  match s with
  | "" => [""]
  | String c s' =>
      if Ascii.eqb c sep then "" :: split sep s'
      else match split sep s' with
           | h :: t => String c h :: t
           | [] => [String c ""]
           end
  end.

(** [s.startswith(c)] and [s.endswith(c)] for a one-character argument. *)
Definition startswith (s : string) (c : ascii) : bool :=
  match s with
  | String a _ => Ascii.eqb a c
  | "" => false
  end.

Fixpoint endswith (s : string) (c : ascii) : bool :=
  match s with
  | "" => false
  | String a "" => Ascii.eqb a c
  | String _ s' => endswith s' c
  end.

(** [l[i]]: an index out of range raises [IndexError]. *)
Definition item {A : Type} (l : list A) (i : nat) : outcome A :=
  match nth_error l i with
  | Some a => Return a
  | None => Raise IndexError
  end.

(** [sep.join(l)] on a list of [str]. *)
Fixpoint join (sep : string) (l : list string) : string :=
  match l with
  | [] => ""
  | [s] => s
  | s :: l' => s +:+ sep +:+ join sep l'
  end.

(** [sep.join(l)] on a list whose items may be [None]: [str.join] raises
    [TypeError] on the first item that is not a [str]. *)
Fixpoint all_str (l : list (option string)) : option (list string) :=
  match l with
  | [] => Some []
  | Some s :: l' => match all_str l' with Some r => Some (s :: r) | None => None end
  | None :: _ => None
  end.

Definition str_join (sep : string) (l : list (option string)) : outcome string :=
  match all_str l with
  | Some strs => Return (join sep strs)
  | None => Raise TypeError
  end.

(** ** Symbol pattern compiler *)

Definition backslash : ascii := "\"%char.
Definition star : ascii := "*"%char.

Definition create_equity_regex (instrument_symbol : string) : string :=
  "\b" +:+ instrument_symbol +:+ "\b-{0,1}[A-Z]{0,3}@{0,1}[a-zA-Z0-9]{0,10}".

Definition create_futures_regex (input_symbol : string) : outcome string :=
  if negb (endswith input_symbol star) then
    let symbol_components := split backslash input_symbol in
    let* c0 := item symbol_components 0 in
    let* c1 := item symbol_components 1 in
    Return (c0 +:+ "\\" +:+ c1)
  else
    let* symbol_root := item (split backslash input_symbol) 0 in
    Return (symbol_root +:+ "\\[A-Z][0-9]{2,4}").

Definition create_options_regex (input_symbol : string) : outcome (option string) :=
  if negb (endswith input_symbol star) then
    let symbol_components := split backslash input_symbol in
    let* c0 := item symbol_components 0 in
    let* c1 := item symbol_components 1 in
    let* c2 := item symbol_components 2 in
    Return (Some (c0 +:+ "\\" +:+ c1 +:+ "\\" +:+ c2))
  else if Nat.eqb (length (split backslash input_symbol)) 2 then
    let symbol_components := split backslash input_symbol in
    let* c0 := item symbol_components 0 in
    Return (Some (c0 +:+ "\\[A-Z][0-9]{2,4}\\[0-9.]{1,10}"))
  else if Nat.eqb (length (split backslash input_symbol)) 3 then
    let symbol_components := split backslash input_symbol in
    let* c0 := item symbol_components 0 in
    let* c1 := item symbol_components 1 in
    Return (Some (c0 +:+ "\\" +:+ c1 +:+ "\\[0-9.]{1,10}"))
  else Return None.

Definition create_fixed_income_regex (input_symbol : string) : string :=
  "\b" +:+ input_symbol +:+ "\b\\{0,1}D{0,1}@{0,1}[a-zA-Z0-9]{1,10}".

Definition create_forwards_regex (input_symbol : string) : outcome string :=
  if negb (endswith input_symbol star) then
    let symbol_components := split backslash input_symbol in
    let* c0 := item symbol_components 0 in
    let* c1 := item symbol_components 1 in
    Return (c0 +:+ "\\" +:+ c1)
  else
    let* symbol_root := item (split backslash input_symbol) 0 in
    Return (symbol_root +:+ "\\[A-Z0-9]{2,4}").

Definition create_index_regex (input_symbol : string) : string :=
  "\b" +:+ input_symbol +:+ "\b".

(** The [if]/[elif] chain has no [else]: a symbol that starts with none of the
    six letters falls off the end of the function, which returns [None]. *)
Definition create_specific_instrument_regex (input_symbol : string)
  : outcome (option string) :=
  if startswith input_symbol "B" then
    Return (Some (create_fixed_income_regex input_symbol))
  else if startswith input_symbol "E" then
    Return (Some (create_equity_regex input_symbol))
  else if startswith input_symbol "F" then
    let* r := create_futures_regex input_symbol in Return (Some r)
  else if startswith input_symbol "I" then
    Return (Some (create_index_regex input_symbol))
  else if startswith input_symbol "O" then
    create_options_regex input_symbol
  else if startswith input_symbol "R" then
    let* r := create_forwards_regex input_symbol in Return (Some r)
  else Return None.

(** ** Composite pattern builder *)

Definition create_instrument_level_pattern (instrument_symbols : list string)
  : outcome string :=
  let* specific_instrument_regexes :=
    mapM create_specific_instrument_regex instrument_symbols in
  let* alternatives := str_join "|" specific_instrument_regexes in
  Return ("(" +:+ alternatives +:+ ")").

Definition create_dc_message_level_pattern
    (source_id : string) (instrument_symbols : list string) : outcome string :=
  let* p := create_instrument_level_pattern instrument_symbols in
  Return ("^DC\|" +:+ source_id +:+ "\|" +:+ p).

(** ** The fragment of Python's [re] the patterns are written in

    [re.search(pattern, line)] compiles the pattern text and scans the line.
    The model has the same two stages.  The pattern text is read left to
    right by [step], one character at a time, as [sre_parse] does; the
    resulting syntax tree is run by a backtracking matcher that prefers the
    leftmost start, the first alternative and, for a greedy repetition, the
    largest count.  Text is ASCII.  Syntax that the model does not cover
    (group extensions [(?...)], back-references, numeric escapes, [\B],
    possessive quantifiers, repetition of an expression that can match the
    empty string)
    compiles to [Raise Unmodelled]. *)

(** One member of a character set [[...]]. *)
Inductive citem : Type :=
| CChar (c : ascii)
| CRange (lo hi : ascii)
| CDigit
| CNotDigit
| CWord
| CNotWord
| CSpace
| CNotSpace.

Inductive re : Type :=
| Eps                               (* the empty sequence *)
| Void                              (* the empty alternation: never matches *)
| Chr (c : ascii)                   (* a literal character *)
| Any                               (* [.]: any character but a newline *)
| Cls (neg : bool) (items : list citem)      (* [[...]] and [[^...]] *)
| Bol                               (* [^] and [\A]: start of the string *)
| Eol                               (* [$]: end, or before a final newline *)
| Eos                               (* [\Z]: end of the string *)
| WordB                             (* [\b] *)
| Seq (r1 r2 : re)
| Alt (r1 r2 : re)
| Rep (r : re) (lo : nat) (hi : option nat) (greedy : bool)
| Group (r : re).

Definition between (lo hi c : ascii) : bool :=
  (Ascii.leb lo c && Ascii.leb c hi)%bool.

Definition is_digit (c : ascii) : bool := between "0" "9" c.

Definition is_letter (c : ascii) : bool :=
  (between "a" "z" c || between "A" "Z" c)%bool.

(** [\w] on ASCII text: letters, digits and the underscore. *)
Definition is_word (c : ascii) : bool :=
  (is_letter c || is_digit c || Ascii.eqb c "_")%bool.

Definition newline : ascii := "010"%char.

(** [\s] on ASCII text: space, tab, newline, vertical tab, form feed, return. *)
Definition is_space (c : ascii) : bool :=
  (Ascii.eqb c " " || between "009" "013" c)%bool.

Definition citem_matches (i : citem) (c : ascii) : bool :=
  match i with
  | CChar a => Ascii.eqb c a
  | CRange lo hi => between lo hi c
  | CDigit => is_digit c
  | CNotDigit => negb (is_digit c)
  | CWord => is_word c
  | CNotWord => negb (is_word c)
  | CSpace => is_space c
  | CNotSpace => negb (is_space c)
  end.

Definition cls_matches (neg : bool) (items : list citem) (c : ascii) : bool :=
  xorb neg (existsb (fun i => citem_matches i c) items).

(** *** Reading the pattern text *)

Definition seq_of (pieces : list re) : re := fold_right Seq Eps pieces.
Definition alt_of (branches : list re) : re := fold_right Alt Void branches.

(** What lies under the branch being read: the branches of the same
    alternation that are already closed ([Bar]), and the open parentheses with
    the pieces read before them ([Paren]).  Pieces are kept most recent
    first. *)
Inductive entry : Type :=
| Bar (branch : re)
| Paren (saved : list re).

(** The closed branches on top of the stack, oldest first, and what is left
    under them. *)
Fixpoint unwind (below : list entry) (acc : list re) : list re * list entry :=
  match below with
  | Bar b :: tl => unwind tl (b :: acc)
  | _ => (acc, below)
  end.

Inductive set_stage : Type :=
| SItem
| SEsc
| SHave (i : citem)
| SDash (i : citem)
| SDashEsc (i : citem).

Inductive mode : Type :=
| MNormal
| MOpen                                            (* just after [(] *)
| MEsc                                             (* just after [\] *)
| MBraceLo (buf : list ascii) (lo : option nat)    (* in [{m], before a comma *)
| MBraceHi (buf : list ascii) (lo hi : option nat) (* in [{m,n], after it *)
| MSetOpen                                         (* just after [[] *)
| MSet (neg : bool) (items : list citem) (st : set_stage).

Inductive pstate : Type :=
| PS (m : mode) (cur : list re) (below : list entry)
| PFail (e : pyexn).

Fixpoint nullable (r : re) : bool :=
  match r with
  | Eps | Bol | Eol | Eos | WordB => true
  | Void | Chr _ | Any | Cls _ _ => false
  | Seq r1 r2 => (nullable r1 && nullable r2)%bool
  | Alt r1 r2 => (nullable r1 || nullable r2)%bool
  | Rep r lo _ _ => (Nat.eqb lo 0 || nullable r)%bool
  | Group r => nullable r
  end.

Definition is_assertion (r : re) : bool :=
  match r with
  | Bol | Eol | Eos | WordB => true
  | _ => false
  end.

(** A quantifier applies to the piece before it: none, or an assertion, is
    "nothing to repeat"; a repetition is "multiple repeat". *)
Definition quantify (lo : nat) (hi : option nat) (cur : list re) (below : list entry)
  : pstate :=
  match cur with
  | [] => PFail ReError
  | r :: rs =>
      if is_assertion r then PFail ReError
      else match r with
           | Rep _ _ _ _ => PFail ReError
           | _ => if nullable r then PFail Unmodelled
                  else PS MNormal (Rep r lo hi true :: rs) below
           end
  end.

(** [?] directly after a greedy quantifier makes it lazy. *)
Definition question (cur : list re) (below : list entry) : pstate :=
  match cur with
  | Rep r lo hi true :: rs => PS MNormal (Rep r lo hi false :: rs) below
  | _ => quantify 0 (Some 1) cur below
  end.

(** [+] directly after a greedy quantifier is a possessive quantifier in
    recent versions of Python and an error in older ones. *)
Definition plus (cur : list re) (below : list entry) : pstate :=
  match cur with
  | Rep _ _ _ true :: _ => PFail Unmodelled
  | _ => quantify 1 None cur below
  end.

Definition digit_value (c : ascii) : nat := nat_of_ascii c - 48.

(** The escapes with the same meaning inside and outside a set. *)
Definition escaped_char (c : ascii) : option ascii :=
  if Ascii.eqb c "a" then Some "007"%char
  else if Ascii.eqb c "f" then Some "012"%char
  else if Ascii.eqb c "n" then Some "010"%char
  else if Ascii.eqb c "r" then Some "013"%char
  else if Ascii.eqb c "t" then Some "009"%char
  else if Ascii.eqb c "v" then Some "011"%char
  else None.

Definition escaped_class (c : ascii) : option citem :=
  if Ascii.eqb c "d" then Some CDigit
  else if Ascii.eqb c "D" then Some CNotDigit
  else if Ascii.eqb c "s" then Some CSpace
  else if Ascii.eqb c "S" then Some CNotSpace
  else if Ascii.eqb c "w" then Some CWord
  else if Ascii.eqb c "W" then Some CNotWord
  else None.

(** Numeric and named escapes, and [\B], are left out of the model. *)
Definition escape_unmodelled (c : ascii) : bool :=
  (is_digit c || Ascii.eqb c "x" || Ascii.eqb c "u" || Ascii.eqb c "U"
   || Ascii.eqb c "N" || Ascii.eqb c "B")%bool.

(** [\c] outside a set. *)
Definition escape_piece (c : ascii) : outcome re :=
  match escaped_class c with
  | Some i => Return (Cls false [i])
  | None =>
  match escaped_char c with
  | Some a => Return (Chr a)
  | None =>
      if Ascii.eqb c "A" then Return Bol
      else if Ascii.eqb c "Z" then Return Eos
      else if Ascii.eqb c "b" then Return WordB
      else if escape_unmodelled c then Raise Unmodelled
      else if is_letter c then Raise ReError
      else Return (Chr c)
  end end.

(** [\c] inside a set, where [\b] is a backspace. *)
Definition class_escape (c : ascii) : outcome citem :=
  match escaped_class c with
  | Some i => Return i
  | None =>
  match escaped_char c with
  | Some a => Return (CChar a)
  | None =>
      if Ascii.eqb c "b" then Return (CChar "008"%char)
      else if escape_unmodelled c then Raise Unmodelled
      else if is_letter c then Raise ReError
      else Return (CChar c)
  end end.

(** A brace that turns out not to open a quantifier is a literal, and so are
    the digits and the comma read after it. *)
Definition flush_brace (buf : list ascii) (cur : list re) : list re :=
  map Chr buf ++ Chr "{" :: cur.

Definition step_normal (c : ascii) (cur : list re) (below : list entry) : pstate :=
  if Ascii.eqb c "\" then PS MEsc cur below
  else if Ascii.eqb c "(" then PS MOpen [] (Paren cur :: below)
  else if Ascii.eqb c ")" then
    match unwind below [seq_of (rev cur)] with
    | (branches, Paren saved :: tl) =>
        PS MNormal (Group (alt_of branches) :: saved) tl
    | _ => PFail ReError
    end
  else if Ascii.eqb c "|" then PS MNormal [] (Bar (seq_of (rev cur)) :: below)
  else if Ascii.eqb c "[" then PS MSetOpen cur below
  else if Ascii.eqb c "." then PS MNormal (Any :: cur) below
  else if Ascii.eqb c "^" then PS MNormal (Bol :: cur) below
  else if Ascii.eqb c "$" then PS MNormal (Eol :: cur) below
  else if Ascii.eqb c "*" then quantify 0 None cur below
  else if Ascii.eqb c "+" then plus cur below
  else if Ascii.eqb c "?" then question cur below
  else if Ascii.eqb c "{" then PS (MBraceLo [] None) cur below
  else PS MNormal (Chr c :: cur) below.

Definition close_set (neg : bool) (items : list citem)
    (cur : list re) (below : list entry) : pstate :=
  PS MNormal (Cls neg (rev items) :: cur) below.

(** A set item is expected: [[]] closes the set unless it comes first. *)
Definition set_item (neg : bool) (items : list citem) (c : ascii)
    (cur : list re) (below : list entry) : pstate :=
  if (Ascii.eqb c "]" && negb (Nat.eqb (length items) 0))%bool then
    close_set neg items cur below
  else if Ascii.eqb c "\" then PS (MSet neg items SEsc) cur below
  else PS (MSet neg items (SHave (CChar c))) cur below.

Definition set_range (neg : bool) (items : list citem) (i j : citem)
    (cur : list re) (below : list entry) : pstate :=
  match i, j with
  | CChar lo, CChar hi =>
      if Ascii.leb lo hi then PS (MSet neg (CRange lo hi :: items) SItem) cur below
      else PFail ReError
  | _, _ => PFail ReError
  end.

Definition step_set (neg : bool) (items : list citem) (st : set_stage) (c : ascii)
    (cur : list re) (below : list entry) : pstate :=
  match st with
  | SItem => set_item neg items c cur below
  | SEsc =>
      match class_escape c with
      | Return i => PS (MSet neg items (SHave i)) cur below
      | Raise e => PFail e
      end
  | SHave i =>
      if Ascii.eqb c "-" then PS (MSet neg items (SDash i)) cur below
      else set_item neg (i :: items) c cur below
  | SDash i =>
      if Ascii.eqb c "]" then close_set neg (CChar "-" :: i :: items) cur below
      else if Ascii.eqb c "\" then PS (MSet neg items (SDashEsc i)) cur below
      else set_range neg items i (CChar c) cur below
  | SDashEsc i =>
      match class_escape c with
      | Return j => set_range neg items i j cur below
      | Raise e => PFail e
      end
  end.

Definition step (c : ascii) (st : pstate) : pstate :=
  match st with
  | PFail e => PFail e
  | PS m cur below =>
      match m with
      | MNormal => step_normal c cur below
      | MOpen =>
          if Ascii.eqb c "?" then PFail Unmodelled else step_normal c cur below
      | MEsc =>
          match escape_piece c with
          | Return r => PS MNormal (r :: cur) below
          | Raise e => PFail e
          end
      | MBraceLo buf lo =>
          if is_digit c then
            PS (MBraceLo (c :: buf) (Some (10 * default 0 lo + digit_value c)))
               cur below
          else if Ascii.eqb c "," then PS (MBraceHi (c :: buf) lo None) cur below
          else if Ascii.eqb c "}" then
            match lo with
            | Some n => quantify n (Some n) cur below
            | None => step_normal c (flush_brace buf cur) below
            end
          else step_normal c (flush_brace buf cur) below
      | MBraceHi buf lo hi =>
          if is_digit c then
            PS (MBraceHi (c :: buf) lo (Some (10 * default 0 hi + digit_value c)))
               cur below
          else if Ascii.eqb c "}" then
            match hi with
            | Some h =>
                if Nat.ltb h (default 0 lo) then PFail ReError
                else quantify (default 0 lo) (Some h) cur below
            | None => quantify (default 0 lo) None cur below
            end
          else step_normal c (flush_brace buf cur) below
      | MSetOpen =>
          if Ascii.eqb c "^" then PS (MSet true [] SItem) cur below
          else step_set false [] SItem c cur below
      | MSet neg items st => step_set neg items st c cur below
      end
  end.

Fixpoint run (p : string) (st : pstate) : pstate :=
  match p with
  | "" => st
  | String c p' => run p' (step c st)
  end.

Definition init : pstate := PS MNormal [] [].

(** The pieces read so far, when the text may stop or a branch may end here:
    not in the middle of an escape or of a set. *)
Definition settle (m : mode) (cur : list re) : option (list re) :=
  match m with
  | MNormal | MOpen => Some cur
  | MBraceLo buf _ | MBraceHi buf _ _ => Some (flush_brace buf cur)
  | MEsc | MSetOpen | MSet _ _ _ => None
  end.

(** At the end of the text every parenthesis must be closed. *)
Definition finish (st : pstate) : outcome re :=
  match st with
  | PFail e => Raise e
  | PS m cur below =>
      match settle m cur with
      | Some cur' =>
          match unwind below [seq_of (rev cur')] with
          | (branches, []) => Return (alt_of branches)
          | _ => Raise ReError
          end
      | None => Raise ReError
      end
  end.

(** [re.compile(pattern)]. *)
Definition re_compile (pattern : string) : outcome re := finish (run pattern init).

(** *** Matching *)

(** A position in the line: the character before it, the characters of the
    match so far (most recent first) and the text still to read. *)
Record cursor : Type := Cursor {
  prev : option ascii;
  taken : list ascii;
  rest : string
}.

Definition advance (a : ascii) (s : string) (c : cursor) : cursor :=
  Cursor (Some a) (a :: taken c) s.

Definition word_before (c : cursor) : bool :=
  match prev c with Some a => is_word a | None => false end.

Definition word_after (c : cursor) : bool :=
  match rest c with String a _ => is_word a | "" => false end.

Definition at_boundary (c : cursor) : bool := xorb (word_before c) (word_after c).

Definition at_start (c : cursor) : bool :=
  match prev c with None => true | Some _ => false end.

Definition at_end (c : cursor) : bool :=
  match rest c with "" => true | String _ _ => false end.

Definition at_line_end (c : cursor) : bool :=
  match rest c with
  | "" => true
  | String a "" => Ascii.eqb a newline
  | String _ _ => false
  end.

Definition one_char {X : Type} (ok : ascii -> bool) (c : cursor)
    (k : cursor -> option X) : option X :=
  match rest c with
  | String a s => if ok a then k (advance a s c) else None
  | "" => None
  end.

Definition guard {X : Type} (b : bool) (c : cursor) (k : cursor -> option X)
  : option X :=
  if b then k c else None.

Definition or_else {X : Type} (a b : option X) : option X :=
  match a with Some x => Some x | None => b end.

(** Between [lo] and [n] more rounds of [body], then [k]: a greedy
    repetition tries one more round first, a lazy one tries to stop first. *)
Fixpoint rep_loop {X : Type}
    (body : cursor -> (cursor -> option X) -> option X) (greedy : bool)
    (k : cursor -> option X) (n lo : nat) (c : cursor) {struct n} : option X :=
  let stop := if Nat.eqb lo 0 then k c else None in
  match n with
  | 0 => stop
  | S n' =>
      let more := body c (rep_loop body greedy k n' (Nat.pred lo)) in
      if greedy then or_else more stop else or_else stop more
  end.

(** The largest number of rounds: an expression that is repeated consumes at
    least one character per round, so an open repetition cannot go beyond the
    length of the text. *)
Definition rounds (lo : nat) (hi : option nat) (c : cursor) : nat :=
  match hi with
  | Some h => h
  | None => lo + String.length (rest c)
  end.

(** [rmatch r c k]: match [r] at [c], then continue with [k]; the first
    success in the order of preference is the answer. *)
Fixpoint rmatch {X : Type} (r : re) (c : cursor) (k : cursor -> option X)
  : option X :=
  match r with
  | Eps => k c
  | Void => None
  | Chr a => one_char (Ascii.eqb a) c k
  | Any => one_char (fun x => negb (Ascii.eqb x newline)) c k
  | Cls neg items => one_char (cls_matches neg items) c k
  | Bol => guard (at_start c) c k
  | Eol => guard (at_line_end c) c k
  | Eos => guard (at_end c) c k
  | WordB => guard (at_boundary c) c k
  | Seq r1 r2 => rmatch r1 c (fun c' => rmatch r2 c' k)
  | Alt r1 r2 => or_else (rmatch r1 c k) (rmatch r2 c k)
  | Group r1 => rmatch r1 c k
  | Rep r1 lo hi greedy =>
      rep_loop (fun c' k' => rmatch r1 c' k') greedy k (rounds lo hi c) lo c
  end.

Definition matched_text (c : cursor) : string :=
  string_of_list_ascii (rev (taken c)).

(** The match that starts exactly here, if there is one. *)
Definition match_at (r : re) (before : option ascii) (s : string)
  : option string :=
  match rmatch r (Cursor before [] s) Some with
  | Some c => Some (matched_text c)
  | None => None
  end.

(** The scan of [search]: the first start position, from the left, at which
    the expression matches. *)
Fixpoint search_from (r : re) (before : option ascii) (s : string)
  : option string :=
  match match_at r before s with
  | Some t => Some t
  | None =>
      match s with
      | "" => None
      | String a s' => search_from r (Some a) s'
      end
  end.

Definition search (r : re) (line : string) : option string :=
  search_from r None line.

(** [re.search(pattern, line)]: [None], or the text of the match
    ([match[0]]). *)
Definition re_search (pattern line : string) : outcome (option string) :=
  let* r := re_compile pattern in Return (search r line).

(** ** Reference files *)

(** A [pathlib.Path], in its normalised POSIX spelling. *)
Definition path : Type := string.

Definition as_posix (p : path) : string := p.

(** [p.name]: the final component. *)
Definition path_name (p : path) : string := List.last (split "/" p) "".

(** The part of [s] from its last dot on, when there is a dot. *)
Fixpoint from_last_dot (s : string) : option string :=
  match s with
  | "" => None
  | String c s' =>
      match from_last_dot s' with
      | Some t => Some t
      | None => if Ascii.eqb c "." then Some s else None
      end
  end.

(** [p.suffix]: the last dot of the name and what follows, unless that dot is
    the first or the last character of the name. *)
Definition path_suffix (p : path) : string :=
  match path_name p with
  | "" => ""
  | String _ tl =>
      match from_last_dot tl with
      | Some (String d (String c t)) => String d (String c t)
      | _ => ""
      end
  end.

Definition get_source_id_from_file_path (file_path : path) : outcome string :=
  let* file_name := item (split "." (path_name file_path)) 0 in
  let name_components := split "_" file_name in
  item name_components 1.

(** What [bz2.open(path, 'rb')] and the iteration over the file give: the
    decoded lines that can be read, in order, and then either the end of the
    file or the exception that ends the reading ([failure]).  A file that
    cannot be opened at all has no lines. *)
Record bz2_file : Type := Bz2File {
  lines : list string;
  failure : option pyexn
}.

Definition filesystem : Type := path -> bz2_file.

(** ** Source mapping *)

Definition retrieve_instruments
    (source_id : string) (source_symbols_dictionary : gmap string (list string))
  : option (list string) :=
  source_symbols_dictionary !! source_id.

(** Iterating over the result of [dict.get]: [None] is not iterable. *)
Definition iterate {A : Type} (o : option (list A)) : outcome (list A) :=
  match o with
  | Some l => Return l
  | None => Raise TypeError
  end.

(** ** Streaming extractor *)

Definition nl : string := String newline "".

Definition exit_message (path_to_coreref_file : path) : string :=
  "Process finished with exit code 1" +:+ nl +:+
  "Attempted to process: " +:+ as_posix path_to_coreref_file +:+ nl +:+
  "The file has extension:'" +:+ path_suffix path_to_coreref_file +:+
  "'. Expected:'.bz2'".

(** The body of the [for] loop, with [source_symbol_pairs] as accumulator. *)
Fixpoint scan_lines (path_to_coreref_file : path)
    (message_level_pattern instrument_level_pattern : string)
    (infile : list string) (source_symbol_pairs : list (string * string))
  : outcome (list (string * string)) :=
  match infile with
  | [] => Return source_symbol_pairs
  | line :: infile' =>
      let* selected := re_search message_level_pattern line in
      match selected with
      | Some _ =>
          let* source_id := get_source_id_from_file_path path_to_coreref_file in
          let* found := re_search instrument_level_pattern line in
          match found with
          | Some symbol =>
              scan_lines path_to_coreref_file message_level_pattern
                instrument_level_pattern infile'
                (source_symbol_pairs ++ [(source_id, symbol)])
          | None => Raise TypeError
          end
      | None =>
          scan_lines path_to_coreref_file message_level_pattern
            instrument_level_pattern infile' source_symbol_pairs
      end
  end.

(** The body of the [try]: the lines are scanned as they are read, and the
    failure of the file, if any, comes after the lines before it. *)
Definition read_file (f : bz2_file) (path_to_coreref_file : path)
    (message_level_pattern instrument_level_pattern : string)
  : outcome (list (string * string)) :=
  let* source_symbol_pairs :=
    scan_lines path_to_coreref_file message_level_pattern
      instrument_level_pattern (lines f) [] in
  match failure f with
  | Some e => Raise e
  | None => Return source_symbol_pairs
  end.

(** [except OSError: sys.exit(...)]; any other exception goes through. *)
Definition retrieve_source_symbol_pairs (fs : filesystem)
    (path_to_coreref_file : path)
    (message_level_pattern instrument_level_pattern : string)
  : outcome (list (string * string)) :=
  match read_file (fs path_to_coreref_file) path_to_coreref_file
          message_level_pattern instrument_level_pattern with
  | Return source_symbol_pairs => Return source_symbol_pairs
  | Raise e =>
      if is_OSError e then Raise (SystemExit (exit_message path_to_coreref_file))
      else Raise e
  end.

(** ** Batch orchestrator *)

Definition process_coreref_file (fs : filesystem) (coreref_file_path : path)
    (source_symbols_dictionary : gmap string (list string))
  : outcome (list (string * string)) :=
  let* source_id := get_source_id_from_file_path coreref_file_path in
  let* instruments :=
    iterate (retrieve_instruments source_id source_symbols_dictionary) in
  let* top_level_regex := create_dc_message_level_pattern source_id instruments in
  let* symbol_level_regex := create_instrument_level_pattern instruments in
  retrieve_source_symbol_pairs fs coreref_file_path top_level_regex
    symbol_level_regex.

(** [key in d.keys()]. *)
Definition in_keys (key : string) (d : gmap string (list string)) : bool :=
  match d !! key with Some _ => true | None => false end.

(** The [for] loop over the files, with [discovered_symbols] as accumulator. *)
Fixpoint gather (fs : filesystem) (coreref_file_paths : list path)
    (source_symbols_dictionary : gmap string (list string))
    (discovered_symbols : list (string * string))
  : outcome (list (string * string)) :=
  match coreref_file_paths with
  | [] => Return discovered_symbols
  | file_path :: more =>
      let* source_id := get_source_id_from_file_path file_path in
      if negb (in_keys source_id source_symbols_dictionary) then
        gather fs more source_symbols_dictionary discovered_symbols
      else
        let* found := process_coreref_file fs file_path source_symbols_dictionary in
        gather fs more source_symbols_dictionary (discovered_symbols ++ found)
  end.

(** [list.sort(key=...)] is stable and compares the keys with [<]; the keys
    here are [str], ordered by code point.  Inserting from the right, an item
    goes before the first item whose key is not smaller than its own. *)
Fixpoint insert_by_key (x : string * string) (l : list (string * string))
  : list (string * string) :=
  match l with
  | [] => [x]
  | y :: l' =>
      if String.ltb (fst y) (fst x) then y :: insert_by_key x l'
      else x :: y :: l'
  end.

Definition sort_by_key (l : list (string * string)) : list (string * string) :=
  fold_right insert_by_key [] l.

Definition process_all_coreref_files (fs : filesystem)
    (coreref_file_paths : list path)
    (source_symbols_dictionary : gmap string (list string))
  : outcome (list (string * string)) :=
  let* discovered_symbols :=
    gather fs coreref_file_paths source_symbols_dictionary [] in
  Return (sort_by_key discovered_symbols).

(** ** Vocabulary of the statements *)

(** The six type prefixes of the dispatcher. *)
Definition recognized_prefix (s : string) : bool :=
  (startswith s "B" || startswith s "E" || startswith s "F"
   || startswith s "I" || startswith s "O" || startswith s "R")%bool.

(** The order of the sort and the pairs of one source id. *)
Definition key_le (a b : string * string) : Prop := String.le (fst a) (fst b).

Definition has_key (k : string) (p : string * string) : bool := String.eqb (fst p) k.

(** What one reference file adds to [discovered_symbols]. *)
Definition file_pairs (fs : filesystem) (d : gmap string (list string))
    (file_path : path) : outcome (list (string * string)) :=
  let* source_id := get_source_id_from_file_path file_path in
  if negb (in_keys source_id d) then Return []
  else process_coreref_file fs file_path d.

(** The character before the position that follows [pre]. *)
Fixpoint prev_after (before : option ascii) (pre : string) : option ascii :=
  match pre with
  | "" => before
  | String a pre' => prev_after (Some a) pre'
  end.

(** [c'] is reached from [c] by reading the text [w]. *)
Definition extends (c c' : cursor) : Prop :=
  exists w : string,
    rest c = w +:+ rest c' /\
    taken c' = rev (list_ascii_of_string w) ++ taken c /\
    prev c' = prev_after (prev c) w.

(** [t] is the first substring of [line] that the expression matches: it
    lies in the line, the match that starts where it starts is [t], and no
    match starts further left. *)
Definition first_match (r : re) (line t : string) : Prop :=
  exists pre post : string,
    line = pre +:+ t +:+ post /\
    match_at r (prev_after None pre) (t +:+ post) = Some t /\
    forall pre1 suf1 : string,
      line = pre1 +:+ suf1 -> String.length pre1 < String.length pre ->
      match_at r (prev_after None pre1) suf1 = None.

(** The expression matches somewhere in the line. *)
Definition matches (r : re) (line : string) : Prop := search r line <> None.

(** The cursor with [base] put under the characters of the match. *)
Definition rebase (base : list ascii) (c : cursor) : cursor :=
  Cursor (prev c) (taken c ++ base) (rest c).

(** What is left of [s] after its prefix [w]. *)
Fixpoint strip (w s : string) : option string :=
  match w, s with
  | "", _ => Some s
  | String a w', String b s' => if Ascii.eqb b a then strip w' s' else None
  | String _ _, "" => None
  end.

Definition chars (w : string) : list re := map Chr (list_ascii_of_string w).

(** What one line of the file adds to [source_symbol_pairs]: nothing when
    the message-level expression does not select it, and otherwise the one
    pair made of the source id and the first match of the symbol-level
    expression. *)
Definition line_contribution (source_id : string) (mr ir : re) (line : string)
    (pairs : list (string * string)) : Prop :=
  (search mr line = None /\ pairs = []) \/
  (matches mr line /\
   exists symbol, pairs = [(source_id, symbol)] /\ first_match ir line symbol).

(** *** Vocabulary of the pattern reader *)

(** The same state over a deeper stack. *)
Definition lift (under : list entry) (st : pstate) : pstate :=
  match st with
  | PS m cur below => PS m cur (below ++ under)
  | PFail e => PFail e
  end.

(** [st] is a state in which a branch may end, reached over the stack
    [under], and [bs] are the branches read over [under], the current one
    included. *)
Definition ends_with (st : pstate) (under : list entry) (bs : list re) : Prop :=
  exists m cur below cur',
    st = PS m cur (below ++ under) /\
    settle m cur = Some cur' /\
    unwind below [seq_of (rev cur')] = (bs, []).

(** The branches of a pattern that compiles on its own. *)
Definition branches (p : string) (bs : list re) : Prop :=
  ends_with (run p init) [] bs.

(** The branches inside the parentheses of the symbol-level pattern. *)
Definition group_body (bss : list (list re)) : list re :=
  match bss with
  | [] => [Eps]
  | _ :: _ => concat bss
  end.

(** The characters with a special meaning outside a set. *)
Definition special (c : ascii) : bool :=
  existsb (Ascii.eqb c) (list_ascii_of_string ".\[{()*+?^$|").

Definition plain (s : string) : Prop :=
  Forall (fun c => special c = false) (list_ascii_of_string s).

(** The expression of the symbol-level pattern [(...|...)] and of the
    message-level pattern [^DC\|id\|(...|...)], with [g] for the alternation
    inside the parentheses and [w] for the text [DC|id|]. *)
Definition instrument_re (g : re) : re := Alt (Seq (Group g) Eps) Void.

Definition message_re (w : string) (g : re) : re :=
  Alt (Seq Bol (seq_of (chars w ++ [Group g]))) Void.

(** A symbol and the text of its pattern; a pattern text and its expression. *)
Definition symbol_pattern (s p : string) : Prop :=
  create_specific_instrument_regex s = Return (Some p).

Definition pattern_re (p : string) (r : re) : Prop := re_compile p = Return r.

(** The expression of the pattern of a wildcard futures symbol [root\*]. *)
Definition futures_wildcard_re (root : string) : re :=
  Alt (seq_of (chars (root +:+ "\") ++
               [Cls false [CRange "A" "Z"];
                Rep (Cls false [CRange "0" "9"]) 2 (Some 4) true])) Void.

(** The expression of a pattern that is one literal text. *)
Definition literal_re (w : string) : re := Alt (seq_of (chars w)) Void.

Definition literal_match (w s : string) : option string :=
  match strip w s with Some _ => Some w | None => None end.

(** What the [try] statement of the extractor raises when the reading of the
    file ends with the exception [e]. *)
Definition raised_for (file : path) (e : pyexn) : pyexn :=
  if is_OSError e then SystemExit (exit_message file) else e.

(** The expression of the pattern of a fixed-income symbol. *)
Definition fixed_income_re (root : string) : re :=
  Alt (Seq WordB
         (seq_of (chars root ++
                  [WordB;
                   Rep (Chr "\") 0 (Some 1) true;
                   Rep (Chr "D") 0 (Some 1) true;
                   Rep (Chr "@") 0 (Some 1) true;
                   Rep (Cls false [CRange "a" "z"; CRange "A" "Z"; CRange "0" "9"])
                     1 (Some 10) true]))) Void.

(** What follows a bare root: the end of the line, or a character that opens
    none of the optional parts. *)
Definition ends_bare (post : string) : Prop :=
  match post with
  | "" => True
  | String c _ => c <> "\"%char /\ c <> "@"%char
  end.

(** ** Sample data *)

Definition coreref_207 : path := "data/COREREF_207_20201023.txt.bz2".
Definition coreref_367 : path := "data/COREREF_367_20201023.txt.bz2".
Definition coreref_673_txt : path := "static_data/COREREF_673_20201016.txt".

Definition sample_dictionary : gmap string (list string) :=
  {[ "207" := ["F:FDAX\*"];
     "367" := ["F2:ZN\*"; "F2:ZB\*"];
     "673" := ["F2:ES*"; "F2:NQ*"] ]}.

(** Two reference files, and a third that is not compressed. *)
Definition sample_fs : filesystem := fun p =>
  if String.eqb p coreref_207 then
    Bz2File ["DC|207|F:FDAX\H21|F:FDAX\M21|EUR" +:+ nl;
             "DN|207|F:FDAX\H21|DAX FUTURE" +:+ nl;
             "DC|207|F:FDAX\Z20||EUR" +:+ nl] None
  else if String.eqb p coreref_367 then
    Bz2File ["DC|367|F2:ZN\M21|USD" +:+ nl; "DC|367|F2:ZB\H21|USD" +:+ nl] None
  else Bz2File [] (Some OSError).

(** The feed of the end-to-end scenario: a line of source 207 and a line of
    source 999 for the same contract, each with any further fields. *)
Definition scenario_fs (fields1 fields2 : string) : filesystem := fun _ =>
  Bz2File ["DC|207|F:FDAX\H21|" +:+ fields1; "DC|999|F:FDAX\H21|" +:+ fields2] None.

Definition scenario_dictionary : gmap string (list string) :=
  {[ "207" := ["F:FDAX\*"] ]}.

(** ** Combination of patterns *)

(** What [re.compile] returns: the text of the pattern ([Pattern.pattern])
    and its expression. *)
Record Pattern : Type := MkPattern {
  pattern : string;
  expression : re
}.

Definition combine_multiple_regexes (regexes : list string) : outcome Pattern :=
  let text := join "|" regexes in
  let* r := re_compile text in
  Return (MkPattern text r).

(** ** The configuration file *)

Definition quotechar : ascii := "034"%char.
Definition carriage_return : ascii := "013"%char.
Definition crlf : string := String carriage_return (String newline "").

(** The [csv.writer] of the module: the delimiter is the comma, the quote
    character the double quote, the quoting [csv.QUOTE_MINIMAL], with the
    line terminator CR LF and the doubling of quotes that [csv] has by
    default.  A field is put in quotes when it holds the delimiter, the
    quote or a character of the line terminator, and its quotes are then
    doubled. *)
Definition csv_special (c : ascii) : bool :=
  (Ascii.eqb c "," || Ascii.eqb c quotechar
   || Ascii.eqb c carriage_return || Ascii.eqb c newline)%bool.

Fixpoint double_quotes (s : string) : string :=
  match s with
  | "" => ""
  | String c s' =>
      if Ascii.eqb c quotechar then String c (String c (double_quotes s'))
      else String c (double_quotes s')
  end.

Definition csv_field (field : string) : string :=
  if existsb csv_special (list_ascii_of_string field)
  then String quotechar (double_quotes field +:+ String quotechar "")
  else field.

(** [csv_writer.writerow(row)] for a row of two fields: the text added to
    the file. *)
Definition writerow (row : string * string) : string :=
  csv_field (fst row) +:+ "," +:+ csv_field (snd row) +:+ crlf.

(** [str(n)] for a length. *)
Definition str_of_nat (n : nat) : string :=
  DecimalString.NilEmpty.string_of_uint (Nat.to_uint n).

(** [pathlib.Path(directory).joinpath(name)] for a name of one component. *)
Definition joinpath (directory : path) (name : string) : path :=
  if (String.eqb directory "." || String.eqb directory "")%bool then name
  else if endswith directory "/" then directory +:+ name
  else directory +:+ "/" +:+ name.

(** [today] is [datetime.datetime.utcnow().strftime('%Y%m%d')]. *)
Definition generate_config_file_path (today : string) (directory_path : path)
  : path :=
  joinpath directory_path ("watchlist_config_" +:+ today +:+ ".csv").

(** The text files of a directory tree that can be written: [open('w')]
    creates the file or replaces its content.  The function returns the
    files after the call and the summary. *)
Definition config_file_writer (today : string) (directory_path : path)
    (source_name_pairs : list (string * string)) (files : gmap path string)
  : gmap path string * string :=
  let file_path := generate_config_file_path today directory_path in
  let csv_file :=
    fold_left (fun text item => text +:+ writerow item) source_name_pairs
      (writerow ("sourceId", "RTSsymbol")) in
  (<[file_path := csv_file]> files,
   "Configuration file successfully written." +:+ nl +:+
   str_of_nat (length source_name_pairs) +:+ " symbols were added to the file.").

(** ** Vocabulary of the further statements *)

(** The character [x] does not occur in [s]. *)
Definition lacks (x : ascii) (s : string) : Prop :=
  Forall (fun c => Ascii.eqb c x = false) (list_ascii_of_string s).

(** The first piece of [s.split(sep)]. *)
Definition first_segment (sep : ascii) (s : string) : string :=
  hd "" (split sep s).

(** What may follow the source id in the name of a reference file: nothing,
    or a further part that starts with an underscore or with a dot. *)
Definition name_tail (tail : string) : Prop :=
  match tail with
  | "" => True
  | String c _ => c = "_"%char \/ c = "."%char
  end.

(** The longest prefix of [s], of [n] characters at most, whose characters
    all pass [ok], and what follows it. *)
Fixpoint span (ok : ascii -> bool) (n : nat) (s : string) : string * string :=
  match n, s with
  | S n', String a s' =>
      if ok a then let (w, t) := span ok n' s' in (String a w, t) else ("", s)
  | _, _ => ("", s)
  end.

(** The cursor after the text [w] has been read from [c], with [s] left. *)
Definition read (w s : string) (c : cursor) : cursor :=
  Cursor (prev_after (prev c) w) (rev (list_ascii_of_string w) ++ taken c) s.

(** The test of an expression that reads exactly one character. *)
Definition char_test (r : re) : option (ascii -> bool) :=
  match r with
  | Chr a => Some (Ascii.eqb a)
  | Any => Some (fun x => negb (Ascii.eqb x newline))
  | Cls neg items => Some (cls_matches neg items)
  | _ => None
  end.

Definition is_upper (c : ascii) : bool := between "A" "Z" c.

Definition is_upper_or_digit (c : ascii) : bool := (is_upper c || is_digit c)%bool.


Definition is_digit_or_dot (c : ascii) : bool := (is_digit c || Ascii.eqb c ".")%bool.


(** The contract that the pattern of the wildcard futures symbol [root\*]
    matches at the start of [s]: the root, the backslash, one upper-case
    letter and the digits that follow, four at most and two at least. *)
Definition futures_contract (root s : string) : option string :=
  match strip (root +:+ "\") s with
  | Some (String u s') =>
      let (ds, _) := span is_digit 4 s' in
      if (is_upper u && (Nat.leb 2 (String.length ds)))%bool
      then Some (root +:+ "\" +:+ String u ds)
      else None
  | _ => None
  end.

(** The same for the wildcard forwards symbol [root\*]: the maturity is made
    of upper-case letters and digits, four at most and two at least. *)
Definition forwards_contract (root s : string) : option string :=
  match strip (root +:+ "\") s with
  | Some s' =>
      let (m, _) := span is_upper_or_digit 4 s' in
      if Nat.leb 2 (String.length m) then Some (root +:+ "\" +:+ m) else None
  | None => None
  end.

(** The strike of an option: a backslash, then digits and dots, ten at most
    and one at least. *)
Definition strike (s : string) : option string :=
  match s with
  | String b s' =>
      let (k, _) := span is_digit_or_dot 10 s' in
      if (Ascii.eqb b "\" && (Nat.leb 1 (String.length k)))%bool
      then Some (String b k) else None
  | "" => None
  end.

(** The option that the pattern of [root\*] matches at the start of [s]. *)
Definition options_contract (root s : string) : option string :=
  match strip (root +:+ "\") s with
  | Some (String u s') =>
      let (ds, after) := span is_digit 4 s' in
      if (is_upper u && (Nat.leb 2 (String.length ds)))%bool then
        match strike after with
        | Some k => Some (root +:+ "\" +:+ String u ds +:+ k)
        | None => None
        end
      else None
  | _ => None
  end.

(** The option that the pattern of [root\maturity\*] matches at the start of
    [s]. *)
Definition options_strike (root maturity s : string) : option string :=
  match strip (root +:+ "\" +:+ maturity) s with
  | Some after =>
      match strike after with
      | Some k => Some (root +:+ "\" +:+ maturity +:+ k)
      | None => None
      end
  | None => None
  end.




(** The expressions of the patterns. *)
Definition forwards_wildcard_re (root : string) : re :=
  Alt (seq_of (chars (root +:+ "\") ++
               [Rep (Cls false [CRange "A" "Z"; CRange "0" "9"]) 2 (Some 4) true]))
      Void.

Definition strike_re : list re :=
  [Chr "\"; Rep (Cls false [CRange "0" "9"; CChar "."]) 1 (Some 10) true].

Definition options_wildcard_re (root : string) : re :=
  Alt (seq_of (chars (root +:+ "\") ++
               [Cls false [CRange "A" "Z"];
                Rep (Cls false [CRange "0" "9"]) 2 (Some 4) true] ++ strike_re))
      Void.

Definition options_strike_re (root maturity : string) : re :=
  Alt (seq_of (chars (root +:+ "\" +:+ maturity) ++ strike_re)) Void.




(** The first position of [s], from the left, at which [f] finds something;
    [before] is the character before [s]. *)
Fixpoint find_first (f : option ascii -> string -> option string)
    (before : option ascii) (s : string) : option string :=
  match f before s with
  | Some t => Some t
  | None =>
      match s with
      | "" => None
      | String a s' => find_first f (Some a) s'
      end
  end.

(** [t] occurs in [line]. *)
Definition occurs_in (t line : string) : Prop :=
  exists pre post : string, line = pre +:+ t +:+ post.

(** The first answer of a list of attempts. *)
Definition first_of (attempts : list (option string)) : option string :=
  fold_right or_else None attempts.

(** A field that the writer leaves as it is. *)
Definition clean (field : string) : Prop :=
  Forall (fun c => csv_special c = false) (list_ascii_of_string field).

(** The texts of the rows, one after the other. *)
Definition rows_text (render : string * string -> string)
    (pairs : list (string * string)) : string :=
  fold_right (fun p text => render p +:+ text) "" pairs.


(** Reading back one field: the body of a field in quotes, after the
    opening quote, up to the closing quote; a field without quotes, up to
    the first special character. *)
Fixpoint quoted_body (s : string) : option (string * string) :=
  match s with
  | "" => None
  | String c s' =>
      if Ascii.eqb c quotechar then
        match s' with
        | String c2 s'' =>
            if Ascii.eqb c2 quotechar then
              match quoted_body s'' with
              | Some (body, after) => Some (String c body, after)
              | None => None
              end
            else Some ("", s')
        | "" => Some ("", "")
        end
      else
        match quoted_body s' with
        | Some (body, after) => Some (String c body, after)
        | None => None
        end
  end.

Fixpoint until_special (s : string) : string * string :=
  match s with
  | "" => ("", "")
  | String c s' =>
      if csv_special c then ("", s)
      else let (field, after) := until_special s' in (String c field, after)
  end.

Definition read_field (s : string) : option (string * string) :=
  match s with
  | String c s' =>
      if Ascii.eqb c quotechar then quoted_body s' else Some (until_special s)
  | "" => Some ("", "")
  end.

(** Reading back one row of two fields, and what follows it. *)
Definition read_row (s : string) : option ((string * string) * string) :=
  match read_field s with
  | Some (a, String c1 s1) =>
      if Ascii.eqb c1 "," then
        match read_field s1 with
        | Some (b, String c2 (String c3 s2)) =>
            if (Ascii.eqb c2 carriage_return && Ascii.eqb c3 newline)%bool
            then Some ((a, b), s2) else None
        | _ => None
        end
      else None
  | _ => None
  end.

(** The text after a field starts with the comma or with the line
    terminator. *)
Definition field_end (t : string) : Prop :=
  match t with
  | String c _ => c = ","%char \/ c = carriage_return
  | "" => False
  end.

(** The contract that follows the text [w] at the start of a line, for the
    wildcard futures symbols of the roots [roots]: the one of the first root
    of the list that has one there. *)
Definition selected_contract (w : string) (roots : list string) (line : string)
  : option string :=
  match strip w line with
  | Some fields => first_of (map (fun root => futures_contract root fields) roots)
  | None => None
  end.

(** One pair for each line in which [sel] finds a symbol. *)
Definition pairs_of (source_id : string) (sel : string -> option string)
    (infile : list string) : list (string * string) :=
  flat_map (fun line => match sel line with
                        | Some symbol => [(source_id, symbol)]
                        | None => []
                        end) infile.

(** The pairs that a reference file adds to a batch, when it is processed
    without an exception. *)
Definition pairs_found (fs : filesystem) (d : gmap string (list string))
    (file : path) : list (string * string) :=
  match file_pairs fs d file with
  | Return found => found
  | Raise _ => []
  end.

(** The wildcard futures symbol of a root. *)
Definition wildcard (root : string) : string := root +:+ "\*".

(** What a batch over wildcard futures symbols finds in one file;
    [roots_of] gives the roots of each listed source. *)
Definition contracts_of_file (fs : filesystem)
    (roots_of : gmap string (list string)) (file : path)
  : list (string * string) :=
  match get_source_id_from_file_path file with
  | Return source_id =>
      match roots_of !! source_id with
      | Some roots =>
          pairs_of source_id
            (selected_contract ("DC|" +:+ source_id +:+ "|") roots)
            (lines (fs file))
      | None => []
      end
  | Raise _ => []
  end.

(** A file that can be read to its end, with a source id in its name; when
    the source is listed, its id and its roots have no special character,
    and the roots, one at least, start with [F]. *)
Definition futures_source (fs : filesystem)
    (roots_of : gmap string (list string)) (file : path) : Prop :=
  failure (fs file) = None /\
  exists source_id,
    get_source_id_from_file_path file = Return source_id /\
    match roots_of !! source_id with
    | Some roots =>
        plain source_id /\ roots <> [] /\
        Forall (fun root => plain root /\ startswith root "F" = true) roots
    | None => True
    end.

(** * Properties *)

Arguments String.append !s1 s2 : simpl nomatch.

(** ** Strings and the error monad *)

Lemma sapp_nil_r (s : string) : s +:+ "" = s.
Proof. induction s as [|a s IH]; simpl; [reflexivity | now rewrite IH]. Qed.

Lemma sapp_assoc (s t u : string) : (s +:+ t) +:+ u = s +:+ (t +:+ u).
Proof. induction s as [|a s IH]; simpl; [reflexivity | now rewrite IH]. Qed.

Lemma split_nonempty (sep : ascii) (s : string) : split sep s <> [].
Proof.
  destruct s as [|c s]; simpl; [discriminate|].
  destruct (Ascii.eqb c sep); [discriminate|].
  destruct (split sep s); discriminate.
Qed.

Lemma item_lt {A : Type} (l : list A) (i : nat) :
  i < length l -> exists a, nth_error l i = Some a /\ item l i = Return a.
Proof.
  intros H. unfold item.
  destruct (nth_error l i) as [a|] eqn:E; [eauto|].
  apply nth_error_None in E. lia.
Qed.

Lemma item_ge {A : Type} (l : list A) (i : nat) :
  length l <= i -> item l i = Raise IndexError.
Proof.
  intros H. unfold item. now rewrite (proj2 (nth_error_None l i) H).
Qed.

Lemma mapM_app {A B : Type} (f : A -> outcome B) (l1 l2 : list A) :
  mapM f (l1 ++ l2) =
  let* b1 := mapM f l1 in let* b2 := mapM f l2 in Return (b1 ++ b2).
Proof.
  induction l1 as [|a l1 IH]; simpl.
  - destruct (mapM f l2); reflexivity.
  - destruct (f a) as [b|e]; simpl; [|reflexivity].
    rewrite IH. destruct (mapM f l1) as [b1|e1]; simpl; [|reflexivity].
    destruct (mapM f l2); reflexivity.
Qed.

Lemma all_str_app_none (l1 l2 : list (option string)) :
  all_str (l1 ++ None :: l2) = None.
Proof.
  induction l1 as [|[s|] l1 IH]; simpl; [reflexivity | now rewrite IH | reflexivity].
Qed.

(** ** The dispatch on the type prefix *)

Lemma unrecognized_returns_None (s : string) :
  recognized_prefix s = false -> create_specific_instrument_regex s = Return None.
Proof.
  unfold recognized_prefix, create_specific_instrument_regex. intros H.
  repeat (apply orb_false_elim in H; destruct H as [H ?]).
  now repeat match goal with E : startswith s _ = false |- _ => rewrite E; clear E end.
Qed.

Lemma instrument_level_pattern_raises (s : string) (pre post : list string) :
  create_specific_instrument_regex s = Return None ->
  (exists e, create_instrument_level_pattern (pre ++ s :: post) = Raise e) /\
  (returns (mapM create_specific_instrument_regex (pre ++ post)) = true ->
   create_instrument_level_pattern (pre ++ s :: post) = Raise TypeError).
Proof.
  intros Hs. unfold create_instrument_level_pattern.
  rewrite mapM_app. simpl. rewrite Hs. simpl.
  rewrite (mapM_app _ pre post).
  destruct (mapM create_specific_instrument_regex pre) as [b1|e1]; simpl.
  - destruct (mapM create_specific_instrument_regex post) as [b2|e2]; simpl.
    + unfold str_join. rewrite all_str_app_none. simpl. eauto.
    + split; [eauto | discriminate].
  - split; [eauto | discriminate].
Qed.
(** The patterns the repository's tests expect. *)
Example equity_regex_VOD :
  create_equity_regex "E:VOD" = "\bE:VOD\b-{0,1}[A-Z]{0,3}@{0,1}[a-zA-Z0-9]{0,10}".
Proof. reflexivity. Qed.

Example futures_regex_literal :
  create_futures_regex "F:FBTP\M21" = Return "F:FBTP\\M21".
Proof. reflexivity. Qed.

Example futures_regex_wildcard :
  create_futures_regex "F:FBTP\*" = Return "F:FBTP\\[A-Z][0-9]{2,4}".
Proof. reflexivity. Qed.

Example options_regex_literal :
  create_options_regex "O:PRY\A21\25.0" = Return (Some "O:PRY\\A21\\25.0").
Proof. reflexivity. Qed.

Example options_regex_maturity_wildcard :
  create_options_regex "O:PRY\*"
  = Return (Some "O:PRY\\[A-Z][0-9]{2,4}\\[0-9.]{1,10}").
Proof. reflexivity. Qed.

Example options_regex_strike_wildcard :
  create_options_regex "O:PRY\A21\*" = Return (Some "O:PRY\\A21\\[0-9.]{1,10}").
Proof. reflexivity. Qed.

Example fixed_income_regex_01NU :
  create_fixed_income_regex "B:01NU"
  = "\bB:01NU\b\\{0,1}D{0,1}@{0,1}[a-zA-Z0-9]{1,10}".
Proof. reflexivity. Qed.

Example forwards_regex_wildcard :
  create_specific_instrument_regex "R2:GAS\*"
  = Return (Some "R2:GAS\\[A-Z0-9]{2,4}").
Proof. reflexivity. Qed.

Example instrument_level_regex :
  create_instrument_level_pattern ["F:FBTP\*"; "F:FDAX\M21"; "F:FESX\*"]
  = Return "(F:FBTP\\[A-Z][0-9]{2,4}|F:FDAX\\M21|F:FESX\\[A-Z][0-9]{2,4})".
Proof. reflexivity. Qed.

Example dc_message_level_regex :
  create_dc_message_level_pattern "207" ["F:FBTP\*"; "F:FDAX\M21"; "F:FESX\*"]
  = Return "^DC\|207\|(F:FBTP\\[A-Z][0-9]{2,4}|F:FDAX\\M21|F:FESX\\[A-Z][0-9]{2,4})".
Proof. reflexivity. Qed.

(** What [re.search] answers, in the model as in CPython. *)
Example search_lazy_bounded : re_search "a{,2}?b" "xaaab" = Return (Some "aab").
Proof. reflexivity. Qed.

Example search_set_with_bracket_and_dash :
  re_search "[]a-c-]+" "x]-bd" = Return (Some "]-b").
Proof. reflexivity. Qed.

Example search_star_group_anchored : re_search "(a|b)*c$" "xabac" = Return (Some "abac").
Proof. reflexivity. Qed.

Example search_first_alternative_wins : re_search "a|ab" "ab" = Return (Some "a").
Proof. reflexivity. Qed.

Example search_literal_brace : re_search "a{2" "xa{2" = Return (Some "a{2").
Proof. reflexivity. Qed.

Example search_word_boundary_inside_word : re_search "\bE:VOD\b" "xE:VOD y" = Return None.
Proof. reflexivity. Qed.

Example search_word_boundary : re_search "\bE:VOD\b" "x E:VOD-GBP" = Return (Some "E:VOD").
Proof. reflexivity. Qed.

Example search_unterminated_group : re_search "(a|b" "x" = Raise ReError.
Proof. reflexivity. Qed.

Example search_multiple_repeat : re_search "a**" "a" = Raise ReError.
Proof. reflexivity. Qed.

Example search_nothing_to_repeat : re_search "\b{0,1}a" "a" = Raise ReError.
Proof. reflexivity. Qed.

Example search_group_extension : re_search "(?i)a" "A" = Raise Unmodelled.
Proof. reflexivity. Qed.

(** The file names and the exit message of the repository's tests. *)
Example source_id_of_file_name :
  get_source_id_from_file_path "C:/Users/SomeUser/Data/COREREF_612_20201023.txt.bz2"
  = Return "612".
Proof. reflexivity. Qed.

Example exit_message_of_text_file :
  exit_message "tests/static_data/COREREF_673_20201016.txt"
  = "Process finished with exit code 1" +:+ nl +:+
    "Attempted to process: tests/static_data/COREREF_673_20201016.txt" +:+ nl +:+
    "The file has extension:'.txt'. Expected:'.bz2'".
Proof. reflexivity. Qed.

(** The repository's tests with the symbols [F2:ES*] and [F2:NQ*]: the star
    is read as a quantifier of the letter before it. *)
Example wildcard_without_backslash :
  create_instrument_level_pattern ["F2:ES*"; "F2:NQ*"]
  = Return "(F2:ES*\\[A-Z][0-9]{2,4}|F2:NQ*\\[A-Z][0-9]{2,4})" /\
  re_search "(F2:ES*\\[A-Z][0-9]{2,4}|F2:NQ*\\[A-Z][0-9]{2,4})" "DC|673|F2:ES\H21|USD"
  = Return (Some "F2:ES\H21").
Proof. split; reflexivity. Qed.

(** The first line of the sample file names two contracts: the first one is
    the one extracted. *)
Example sample_extraction :
  retrieve_source_symbol_pairs sample_fs coreref_207
    "^DC\|207\|(F:FDAX\\[A-Z][0-9]{2,4})" "(F:FDAX\\[A-Z][0-9]{2,4})"
  = Return [("207", "F:FDAX\H21"); ("207", "F:FDAX\Z20")].
Proof. reflexivity. Qed.

(** C1 (as stated, refuted).  There is no [UnsupportedInstrumentType] error:
    for the symbol [X:FOO] no call raises one, the dispatcher returns [None]
    and the join of the alternatives raises [TypeError]. *)
Lemma C1_no_UnsupportedInstrumentType_error :
  ~ ((exists e, create_specific_instrument_regex "X:FOO" = Raise e /\
                exn_class e = "UnsupportedInstrumentType") \/
     (exists e, create_instrument_level_pattern ["X:FOO"] = Raise e /\
                exn_class e = "UnsupportedInstrumentType")).
Proof.
  intros [[e [H _]] | [e [H He]]].
  - vm_compute in H. discriminate H.
  - vm_compute in H. injection H as <-. vm_compute in He. discriminate He.
Qed.

(** C1 (amended).  For a symbol that starts with none of B, E, F, I, O, R the
    dispatcher returns [None] without raising; every list of symbols that
    contains it yields no symbol-level and no message-level pattern, the call
    raising instead ([TypeError], from the join, when the other symbols
    compile); and a reference file whose source lists the symbol is not
    processed: the exception reaches the caller of [process_coreref_file]. *)
Theorem C1_unrecognized_prefix_fails_visibly
    (s : string) (pre post : list string) (source_id : string)
    (fs : filesystem) (file : path) (d : gmap string (list string)) :
  recognized_prefix s = false ->
  create_specific_instrument_regex s = Return None /\
  (exists e, create_instrument_level_pattern (pre ++ s :: post) = Raise e) /\
  (exists e, create_dc_message_level_pattern source_id (pre ++ s :: post) = Raise e) /\
  (returns (mapM create_specific_instrument_regex (pre ++ post)) = true ->
   create_instrument_level_pattern (pre ++ s :: post) = Raise TypeError /\
   create_dc_message_level_pattern source_id (pre ++ s :: post) = Raise TypeError) /\
  (get_source_id_from_file_path file = Return source_id ->
   d !! source_id = Some (pre ++ s :: post) ->
   exists e, process_coreref_file fs file d = Raise e).
Proof.
  intros Hs. pose proof (unrecognized_returns_None s Hs) as HN.
  destruct (instrument_level_pattern_raises s pre post HN) as [[e He] HT].
  split; [exact HN|]. split; [eauto|].
  split; [exists e; unfold create_dc_message_level_pattern; now rewrite He|].
  split.
  - intros Hr. specialize (HT Hr). split; [exact HT|].
    unfold create_dc_message_level_pattern. now rewrite HT.
  - intros Hid Hd. exists e. unfold process_coreref_file, retrieve_instruments.
    rewrite Hid. simpl. rewrite Hd. simpl.
    unfold create_dc_message_level_pattern. now rewrite He.
Qed.

Lemma C1_unrecognized_prefix_witness :
  create_specific_instrument_regex "X:FOO" = Return None /\
  create_instrument_level_pattern ["F:FDAX\*"; "X:FOO"] = Raise TypeError /\
  exists e, process_coreref_file sample_fs coreref_207
              {[ "207" := ["F:FDAX\*"; "X:FOO"] ]} = Raise e.
Proof.
  pose proof (C1_unrecognized_prefix_fails_visibly "X:FOO" ["F:FDAX\*"] [] "207"
                sample_fs coreref_207 {[ "207" := ["F:FDAX\*"; "X:FOO"] ]}
                eq_refl) as [H1 [_ [_ [H2 H3]]]].
  split; [exact H1|]. split; [exact (proj1 (H2 eq_refl))|].
  apply H3; reflexivity.
Defined.

(** ** Options symbols and their segments *)

(** C10.  [create_options_regex] on a symbol that does not end in [*] reads
    segments 0, 1 and 2: with fewer than three segments the access raises
    [IndexError], with three or more the pattern is made of the first three;
    on a symbol that ends in [*] with neither two nor three segments no branch
    is taken and the function returns [None]. *)
Theorem C10_options_segment_access (s : string) :
  (endswith s star = false ->
   (length (split backslash s) < 3 -> create_options_regex s = Raise IndexError) /\
   (3 <= length (split backslash s) ->
    exists c0 c1 c2 tl,
      split backslash s = c0 :: c1 :: c2 :: tl /\
      create_options_regex s = Return (Some (c0 +:+ "\\" +:+ c1 +:+ "\\" +:+ c2)))) /\
  (endswith s star = true ->
   length (split backslash s) <> 2 -> length (split backslash s) <> 3 ->
   create_options_regex s = Return None).
Proof.
  unfold create_options_regex. split.
  - intros ->. simpl negb. cbv iota.
    pose proof (split_nonempty backslash s) as Hne.
    destruct (split backslash s) as [|c0 [|c1 [|c2 tl]]]; simpl; split;
      try (intros; reflexivity); try congruence; try lia.
    intros _. now exists c0, c1, c2, tl.
  - intros -> H2 H3. simpl negb. cbv iota.
    destruct (Nat.eqb_spec (length (split backslash s)) 2); [contradiction|].
    destruct (Nat.eqb_spec (length (split backslash s)) 3); [contradiction|].
    reflexivity.
Qed.

Lemma C10_options_segment_access_witness :
  create_options_regex "O:PRY\A21" = Raise IndexError /\
  create_options_regex "O:PRY\A21\17.0\*" = Return None.
Proof.
  split.
  - apply (proj1 (C10_options_segment_access "O:PRY\A21") eq_refl).
    vm_compute. repeat constructor.
  - apply (proj2 (C10_options_segment_access "O:PRY\A21\17.0\*") eq_refl);
      vm_compute; discriminate.
Defined.

(** ** The stable sort by source id *)

Lemma ltb_true_le (x y : string) : String.ltb x y = true -> String.le x y.
Proof.
  unfold String.ltb, String.le, String.leb.
  destruct (String.compare x y); simpl; intros H; try exact I; discriminate H.
Qed.

Lemma ltb_false_le (x y : string) : String.ltb y x = false -> String.le x y.
Proof.
  unfold String.ltb, String.le, String.leb. rewrite (String.compare_antisym y x).
  destruct (String.compare x y); simpl; intros H; try exact I; discriminate H.
Qed.

Lemma compare_refl (x : string) : String.compare x x = Eq.
Proof.
  induction x as [|a x IH]; simpl; [reflexivity|].
  unfold Ascii.compare. now rewrite N.compare_refl.
Qed.

Lemma ltb_true_neq (x y : string) : String.ltb x y = true -> x <> y.
Proof.
  unfold String.ltb. intros H ->. rewrite compare_refl in H. discriminate H.
Qed.

#[local] Instance key_le_trans : Transitive key_le.
Proof. intros a b c. unfold key_le. apply transitivity. Qed.

Lemma insert_by_key_perm (x : string * string) (l : list (string * string)) :
  Permutation (x :: l) (insert_by_key x l).
Proof.
  induction l as [|y l IH]; simpl; [reflexivity|].
  destruct (String.ltb (fst y) (fst x)); [|reflexivity].
  rewrite <- IH. apply perm_swap.
Qed.

Lemma insert_by_key_hd (x a : string * string) (l : list (string * string)) :
  key_le a x -> HdRel key_le a l -> HdRel key_le a (insert_by_key x l).
Proof.
  intros Hax Hl. destruct l as [|y l]; simpl; [now constructor|].
  destruct (String.ltb (fst y) (fst x)); constructor; [|exact Hax].
  now inversion Hl.
Qed.

Lemma insert_by_key_sorted (x : string * string) (l : list (string * string)) :
  Sorted key_le l -> Sorted key_le (insert_by_key x l).
Proof.
  induction 1 as [|y l Hs IH Hd]; simpl; [repeat constructor|].
  destruct (String.ltb (fst y) (fst x)) eqn:E.
  - constructor; [exact IH|].
    apply insert_by_key_hd; [|exact Hd]. now apply ltb_true_le.
  - constructor; [now constructor|]. constructor. now apply ltb_false_le.
Qed.

Lemma insert_by_key_stable (k : string) (x : string * string)
    (l : list (string * string)) :
  List.filter (has_key k) (insert_by_key x l) = List.filter (has_key k) (x :: l).
Proof.
  induction l as [|y l IH]; [reflexivity|].
  cbn [insert_by_key]. destruct (String.ltb (fst y) (fst x)) eqn:E; [|reflexivity].
  cbn [List.filter] in *. rewrite IH. unfold has_key.
  destruct (String.eqb_spec (fst y) k) as [Hy|Hy];
    destruct (String.eqb_spec (fst x) k) as [Hx|Hx]; try reflexivity.
  apply ltb_true_neq in E. congruence.
Qed.

Lemma sort_by_key_perm (l : list (string * string)) : Permutation l (sort_by_key l).
Proof.
  induction l as [|x l IH]; simpl; [reflexivity|].
  rewrite <- insert_by_key_perm. now constructor.
Qed.

Lemma sort_by_key_sorted (l : list (string * string)) :
  StronglySorted key_le (sort_by_key l).
Proof.
  apply Sorted_StronglySorted; [exact key_le_trans|].
  induction l as [|x l IH]; simpl; [constructor|].
  now apply insert_by_key_sorted.
Qed.

Lemma sort_by_key_stable (k : string) (l : list (string * string)) :
  List.filter (has_key k) (sort_by_key l) = List.filter (has_key k) l.
Proof.
  induction l as [|x l IH]; [reflexivity|].
  cbn [sort_by_key fold_right]. rewrite insert_by_key_stable.
  cbn [List.filter]. fold (sort_by_key l). now rewrite IH.
Qed.

(** ** The batch loop *)

Lemma gather_concat (fs : filesystem) (d : gmap string (list string))
    (files : list path) (per_file : list (list (string * string)))
    (acc : list (string * string)) :
  Forall2 (fun f r => file_pairs fs d f = Return r) files per_file ->
  gather fs files d acc = Return (acc ++ concat per_file).
Proof.
  intros H. revert acc.
  induction H as [|f r files per_file Hf _ IH]; intros acc; simpl.
  - now rewrite app_nil_r.
  - unfold file_pairs in Hf.
    destruct (get_source_id_from_file_path f) as [sid|e]; simpl in *; [|discriminate].
    destruct (negb (in_keys sid d)).
    + injection Hf as <-. apply IH.
    + rewrite Hf. simpl. rewrite IH. now rewrite app_assoc.
Qed.

(** C9.  When every listed file is processed, the result of
    [process_all_coreref_files] is the concatenation of the pairs found per
    file, sorted by source id: ascending in the order of [str], whatever the
    order of the files, and stable, the pairs of one source id staying in the
    order of their discovery. *)
Theorem C9_result_sorted_stably_by_source_id
    (fs : filesystem) (d : gmap string (list string))
    (files : list path) (per_file : list (list (string * string))) :
  Forall2 (fun f r => file_pairs fs d f = Return r) files per_file ->
  exists result,
    process_all_coreref_files fs files d = Return result /\
    result = sort_by_key (concat per_file) /\
    StronglySorted key_le result /\
    Permutation (concat per_file) result /\
    forall source_id,
      List.filter (has_key source_id) result
      = List.filter (has_key source_id) (concat per_file).
Proof.
  intros H. exists (sort_by_key (concat per_file)).
  unfold process_all_coreref_files. rewrite (gather_concat fs d files per_file [] H).
  simpl. split; [reflexivity|]. split; [reflexivity|].
  split; [apply sort_by_key_sorted|].
  split; [apply sort_by_key_perm|].
  intros k. apply sort_by_key_stable.
Qed.

(** ** The matcher *)

Lemma las_app (a b : string) :
  list_ascii_of_string (a +:+ b) = list_ascii_of_string a ++ list_ascii_of_string b.
Proof. induction a as [|x a IH]; simpl; [reflexivity | now rewrite IH]. Qed.

Lemma sla_app (a b : list ascii) :
  string_of_list_ascii (a ++ b) = string_of_list_ascii a +:+ string_of_list_ascii b.
Proof. induction a as [|x a IH]; simpl; [reflexivity | now rewrite IH]. Qed.

Lemma prev_after_app (b : option ascii) (u v : string) :
  prev_after b (u +:+ v) = prev_after (prev_after b u) v.
Proof. revert b. induction u as [|x u IH]; intros b; simpl; [reflexivity | apply IH]. Qed.

Lemma or_else_Some {X : Type} (a b : option X) (x : X) :
  or_else a b = Some x -> a = Some x \/ b = Some x.
Proof. destruct a; simpl; auto. Qed.

Lemma or_else_None {X : Type} (a b : option X) :
  or_else a b = None <-> a = None /\ b = None.
Proof. destruct a; simpl; split; intros; try tauto; try easy. Qed.

Lemma extends_refl (c : cursor) : extends c c.
Proof. exists "". repeat split. Qed.

Lemma extends_trans (c1 c2 c3 : cursor) :
  extends c1 c2 -> extends c2 c3 -> extends c1 c3.
Proof.
  intros (u & Hr1 & Ht1 & Hp1) (v & Hr2 & Ht2 & Hp2). exists (u +:+ v).
  split; [now rewrite Hr1, Hr2, sapp_assoc|].
  split.
  - rewrite Ht2, Ht1, las_app, rev_app_distr. now rewrite app_assoc.
  - now rewrite Hp2, Hp1, prev_after_app.
Qed.

Lemma extends_advance (c : cursor) (a : ascii) (s : string) :
  rest c = String a s -> extends c (advance a s c).
Proof. intros H. exists (String a ""). repeat split. exact H. Qed.

Section Continuations.
Context {X : Type}.

Lemma one_char_extends (ok : ascii -> bool) (c : cursor)
    (k : cursor -> option X) (x : X) :
  one_char ok c k = Some x -> exists c', extends c c' /\ k c' = Some x.
Proof.
  unfold one_char. destruct (rest c) as [|a s] eqn:E; [discriminate|].
  destruct (ok a); [|discriminate]. intros H.
  exists (advance a s c). split; [now apply extends_advance | exact H].
Qed.

Lemma guard_extends (b : bool) (c : cursor) (k : cursor -> option X) (x : X) :
  guard b c k = Some x -> exists c', extends c c' /\ k c' = Some x.
Proof.
  unfold guard. destruct b; [|discriminate]. intros H.
  exists c. split; [apply extends_refl | exact H].
Qed.

Variable body : cursor -> (cursor -> option X) -> option X.

Lemma rep_loop_extends (greedy : bool) (k : cursor -> option X) :
  (forall c k' x, body c k' = Some x -> exists c', extends c c' /\ k' c' = Some x) ->
  forall n lo c x,
    rep_loop body greedy k n lo c = Some x ->
    exists c', extends c c' /\ k c' = Some x.
Proof.
  intros Hbody. induction n as [|n IH]; intros lo c x H; simpl in H.
  - destruct (Nat.eqb lo 0); [|discriminate].
    exists c. split; [apply extends_refl | exact H].
  - assert (Hcases :
      body c (rep_loop body greedy k n (Nat.pred lo)) = Some x \/
      (if Nat.eqb lo 0 then k c else None) = Some x).
    { destruct greedy; apply or_else_Some in H; tauto. }
    destruct Hcases as [Hm | Hs].
    + apply Hbody in Hm. destruct Hm as (c1 & E1 & H1).
      apply IH in H1. destruct H1 as (c2 & E2 & H2).
      exists c2. split; [now apply extends_trans with c1 | exact H2].
    + destruct (Nat.eqb lo 0); [|discriminate].
      exists c. split; [apply extends_refl | exact Hs].
Qed.

Lemma rep_loop_ext (greedy : bool) (k1 k2 : cursor -> option X) :
  (forall c ka kb, (forall c', ka c' = kb c') -> body c ka = body c kb) ->
  (forall c, k1 c = k2 c) ->
  forall n lo c, rep_loop body greedy k1 n lo c = rep_loop body greedy k2 n lo c.
Proof.
  intros Hbody Hk. induction n as [|n IH]; intros lo c; simpl.
  - now rewrite Hk.
  - rewrite Hk.
    now rewrite (Hbody c _ (rep_loop body greedy k2 n (Nat.pred lo)) (IH _)).
Qed.

Lemma rep_loop_rebase (base : list ascii) (greedy : bool)
    (k : cursor -> option X) :
  (forall c ka kb, (forall c', ka c' = kb c') -> body c ka = body c kb) ->
  (forall c k', body (rebase base c) k' = body c (fun c' => k' (rebase base c'))) ->
  forall n lo c,
    rep_loop body greedy k n lo (rebase base c)
    = rep_loop body greedy (fun c' => k (rebase base c')) n lo c.
Proof.
  intros Hext Hbody. induction n as [|n IH]; intros lo c; simpl.
  - reflexivity.
  - rewrite Hbody.
    now rewrite (Hext c _ (rep_loop body greedy (fun c' => k (rebase base c')) n
                             (Nat.pred lo)) (IH _)).
Qed.
End Continuations.

Lemma rmatch_extends (r : re) :
  forall (X : Type) (c : cursor) (k : cursor -> option X) (x : X),
    rmatch r c k = Some x -> exists c', extends c c' /\ k c' = Some x.
Proof.
  induction r as [ | | a | | neg items | | | | | r1 IH1 r2 IH2 | r1 IH1 r2 IH2
                 | r1 IH1 lo hi greedy | r1 IH1 ]; intros X c k x H; simpl in H.
  - exists c. split; [apply extends_refl | exact H].
  - discriminate.
  - now apply one_char_extends in H.
  - now apply one_char_extends in H.
  - now apply one_char_extends in H.
  - now apply guard_extends in H.
  - now apply guard_extends in H.
  - now apply guard_extends in H.
  - now apply guard_extends in H.
  - apply IH1 in H. destruct H as (c1 & E1 & H1).
    apply IH2 in H1. destruct H1 as (c2 & E2 & H2).
    exists c2. split; [now apply extends_trans with c1 | exact H2].
  - apply or_else_Some in H. destruct H as [H | H]; [now apply IH1 | now apply IH2].
  - apply rep_loop_extends in H; [exact H|].
    intros c0 k' x0. apply IH1.
  - now apply IH1.
Qed.

Lemma rmatch_ext (r : re) :
  forall (X : Type) (c : cursor) (k1 k2 : cursor -> option X),
    (forall c', k1 c' = k2 c') -> rmatch r c k1 = rmatch r c k2.
Proof.
  induction r as [ | | a | | neg items | | | | | r1 IH1 r2 IH2 | r1 IH1 r2 IH2
                 | r1 IH1 lo hi greedy | r1 IH1 ]; intros X c k1 k2 Hk; simpl;
    try reflexivity;
    try (unfold one_char; destruct (rest c) as [|a0 s0]; [reflexivity|];
         now rewrite Hk);
    try (unfold guard; now rewrite Hk).
  - apply IH1. intros c'. now apply IH2.
  - now rewrite (IH1 X c k1 k2 Hk), (IH2 X c k1 k2 Hk).
  - apply rep_loop_ext; [|exact Hk]. intros c0 ka kb Hab. now apply IH1.
  - now apply IH1.
Qed.

Lemma rmatch_rebase (base : list ascii) (r : re) :
  forall (X : Type) (c : cursor) (k : cursor -> option X),
    rmatch r (rebase base c) k = rmatch r c (fun c' => k (rebase base c')).
Proof.
  induction r as [ | | a | | neg items | | | | | r1 IH1 r2 IH2 | r1 IH1 r2 IH2
                 | r1 IH1 lo hi greedy | r1 IH1 ]; intros X c k; simpl;
    try reflexivity.
  - rewrite IH1. apply rmatch_ext. intros c'. apply IH2.
  - now rewrite IH1, IH2.
  - apply rep_loop_rebase.
    + intros c0 ka kb Hab. now apply rmatch_ext.
    + intros c0 k'. apply IH1.
  - apply IH1.
Qed.

(** A run of literal characters matches exactly its own text. *)
Lemma rmatch_chars (w : string) (rs : list re) :
  forall (X : Type) (c : cursor) (k : cursor -> option X),
    rmatch (seq_of (chars w ++ rs)) c k =
    match strip w (rest c) with
    | Some s' =>
        rmatch (seq_of rs)
          (Cursor (prev_after (prev c) w) (rev (list_ascii_of_string w) ++ taken c) s') k
    | None => None
    end.
Proof.
  induction w as [|a w IH]; intros X c k.
  - destruct c; reflexivity.
  - unfold chars in *. simpl. unfold one_char.
    destruct (rest c) as [|b s] eqn:E; [reflexivity|].
    rewrite (Ascii.eqb_sym a b).
    destruct (Ascii.eqb b a) eqn:Eab; [|reflexivity].
    apply Ascii.eqb_eq in Eab. subst b. fold (seq_of (map Chr (list_ascii_of_string w) ++ rs)).
    rewrite IH. simpl. destruct (strip w s); [|reflexivity].
    now rewrite <- app_assoc.
Qed.

Lemma strip_Some (w s s' : string) : strip w s = Some s' <-> s = w +:+ s'.
Proof.
  revert s. induction w as [|a w IH]; intros s; simpl.
  - split; [now intros [= ->] | now intros ->].
  - destruct s as [|b s]; [split; discriminate|].
    destruct (Ascii.eqb_spec b a) as [->|Hne].
    + rewrite IH. split; [now intros -> | now intros [= ->]].
    + split; [discriminate | intros [= Hb _]; congruence].
Qed.

(** *** The scan *)

Lemma match_at_substring (r : re) (b : option ascii) (s t : string) :
  match_at r b s = Some t -> exists post, s = t +:+ post.
Proof.
  unfold match_at. destruct (rmatch r (Cursor b [] s) Some) as [c|] eqn:E; [|discriminate].
  intros [= <-]. apply rmatch_extends in E.
  destruct E as (c' & (w & Hr & Ht & _) & [= ->]). simpl in *.
  exists (rest c). unfold matched_text. rewrite Ht, app_nil_r, rev_involutive.
  now rewrite string_of_list_ascii_of_string.
Qed.

Lemma search_from_first (r : re) (s : string) :
  forall (b : option ascii) (t : string),
    search_from r b s = Some t ->
    exists pre suf,
      s = pre +:+ suf /\
      match_at r (prev_after b pre) suf = Some t /\
      forall pre1 suf1,
        s = pre1 +:+ suf1 -> String.length pre1 < String.length pre ->
        match_at r (prev_after b pre1) suf1 = None.
Proof.
  induction s as [|a s IH]; intros b t H; simpl in H.
  - destruct (match_at r b "") as [t'|] eqn:E; [|discriminate].
    exists "", "". split; [reflexivity|]. split; [simpl; congruence|].
    simpl. intros; lia.
  - destruct (match_at r b (String a s)) as [t'|] eqn:E.
    + exists "", (String a s). split; [reflexivity|]. split; [simpl; congruence|].
      simpl. intros; lia.
    + apply IH in H. destruct H as (pre & suf & -> & Hm & Hmin).
      exists (String a pre), suf. split; [reflexivity|]. split; [exact Hm|].
      intros [|a1 pre1] suf1 Heq Hlen; simpl in *.
      * now subst suf1.
      * injection Heq as <- Heq. apply Hmin; [exact Heq | lia].
Qed.

Lemma search_from_complete (r : re) (pre suf : string) :
  forall b : option ascii,
    match_at r (prev_after b pre) suf <> None ->
    search_from r b (pre +:+ suf) <> None.
Proof.
  induction pre as [|a pre IH]; intros b H; simpl in *.
  - destruct suf; simpl; destruct (match_at r b _); congruence.
  - destruct (match_at r b (String a (pre +:+ suf))); [discriminate|].
    now apply IH.
Qed.

Lemma search_first_match (r : re) (line t : string) :
  search r line = Some t -> first_match r line t.
Proof.
  intros H. apply search_from_first in H.
  destruct H as (pre & suf & -> & Hm & Hmin).
  destruct (match_at_substring _ _ _ _ Hm) as (post & ->).
  exists pre, post. repeat split; assumption.
Qed.

Lemma matches_iff (r : re) (line : string) :
  matches r line <->
  exists pre suf, line = pre +:+ suf /\ match_at r (prev_after None pre) suf <> None.
Proof.
  unfold matches, search. split.
  - destruct (search_from r None line) as [t|] eqn:E; [|congruence]. intros _.
    apply search_from_first in E. destruct E as (pre & suf & -> & Hm & _).
    exists pre, suf. split; [reflexivity | congruence].
  - intros (pre & suf & -> & H). now apply search_from_complete.
Qed.

(** ** The extractor *)

Lemma re_search_compiled (p : string) (r : re) (line : string) :
  re_compile p = Return r -> re_search p line = Return (search r line).
Proof. unfold re_search. now intros ->. Qed.

Lemma scan_lines_per_line (file : path) (mp ip : string) (mr ir : re)
    (source_id : string) (infile : list string) :
  get_source_id_from_file_path file = Return source_id ->
  re_compile mp = Return mr -> re_compile ip = Return ir ->
  (forall line, In line infile -> matches mr line -> matches ir line) ->
  forall acc,
  exists per_line,
    scan_lines file mp ip infile acc = Return (acc ++ concat per_line) /\
    Forall2 (line_contribution source_id mr ir) infile per_line.
Proof.
  intros Hid Hmp Hip. induction infile as [|line infile IH]; intros Hsel acc.
  - exists []. simpl. split; [now rewrite app_nil_r | constructor].
  - cbn [scan_lines].
    rewrite (re_search_compiled mp mr line Hmp). simpl.
    assert (Hrest : forall l, In l infile -> matches mr l -> matches ir l).
    { intros l Hl. apply Hsel. now right. }
    destruct (search mr line) as [t0|] eqn:Em.
    + rewrite Hid. simpl. rewrite (re_search_compiled ip ir line Hip). simpl.
      assert (Hm : matches mr line) by (unfold matches; congruence).
      pose proof (Hsel line (or_introl eq_refl) Hm) as Hi. unfold matches in Hi.
      destruct (search ir line) as [symbol|] eqn:Ei; [|congruence].
      destruct (IH Hrest (acc ++ [(source_id, symbol)])) as (per_line & Hscan & Hall).
      exists ([(source_id, symbol)] :: per_line). split.
      * rewrite Hscan. simpl. now rewrite <- app_assoc.
      * constructor; [|exact Hall]. right. split; [exact Hm|].
        exists symbol. split; [reflexivity | now apply search_first_match].
    + destruct (IH Hrest acc) as (per_line & Hscan & Hall).
      exists ([] :: per_line). split; [exact Hscan|].
      constructor; [|exact Hall]. left. now split.
Qed.


(** ** Files that cannot be read *)

Lemma gather_app (fs : filesystem) (d : gmap string (list string))
    (l1 l2 : list path) (acc : list (string * string)) :
  gather fs (l1 ++ l2) d acc =
  let* found := gather fs l1 d acc in gather fs l2 d found.
Proof.
  revert acc. induction l1 as [|f l1 IH]; intros acc; simpl; [reflexivity|].
  destruct (get_source_id_from_file_path f) as [sid|e]; simpl; [|reflexivity].
  destruct (negb (in_keys sid d)); [apply IH|].
  destruct (process_coreref_file fs f d) as [found|e]; simpl; [apply IH | reflexivity].
Qed.

(** C8 (as stated, refuted).  Only [OSError] is caught.  [bz2] reports a
    stream that stops before its end-of-stream marker with [EOFError], which
    is not an [OSError]: for a truncated file the exception goes through as
    it is, without the message about the extension. *)
Lemma C8_truncated_stream_is_not_caught :
  retrieve_source_symbol_pairs
    (fun _ => Bz2File ["DC|207|F:FDAX\H21|EUR" +:+ nl] (Some EOFError)) coreref_207
    "^DC\|207\|(F:FDAX\\[A-Z][0-9]{2,4})" "(F:FDAX\\[A-Z][0-9]{2,4})"
  = Raise EOFError.
Proof. vm_compute. reflexivity. Qed.

(** C8 (amended).  When the opening or the reading of the file raises an
    exception, after lines that were scanned without another one, the
    extractor returns no pairs.  For an [OSError] it calls [sys.exit] with
    the message that names the path of the file, its extension and the
    expected [.bz2]; any other exception goes through unchanged.  Either way
    the exception goes through [process_coreref_file] and
    [process_all_coreref_files], which return nothing: neither the pairs of
    the files before nor those of the lines before the failure. *)
Theorem C8_read_failure_stops_the_run
    (fs : filesystem) (file : path) (e : pyexn) (mp ip : string)
    (pairs : list (string * string)) :
  failure (fs file) = Some e ->
  scan_lines file mp ip (lines (fs file)) [] = Return pairs ->
  retrieve_source_symbol_pairs fs file mp ip = Raise (raised_for file e) /\
  (is_OSError e = true ->
   raised_for file e
   = SystemExit ("Process finished with exit code 1" +:+ nl +:+
                 "Attempted to process: " +:+ file +:+ nl +:+
                 "The file has extension:'" +:+ path_suffix file +:+
                 "'. Expected:'.bz2'")) /\
  (is_OSError e = false -> raised_for file e = e) /\
  forall (d : gmap string (list string)) (before after : list path)
         (source_id : string) (symbols : list string)
         (found : list (string * string)),
    get_source_id_from_file_path file = Return source_id ->
    d !! source_id = Some symbols ->
    create_dc_message_level_pattern source_id symbols = Return mp ->
    create_instrument_level_pattern symbols = Return ip ->
    gather fs before d [] = Return found ->
    process_coreref_file fs file d = Raise (raised_for file e) /\
    process_all_coreref_files fs (before ++ file :: after) d
    = Raise (raised_for file e).
Proof.
  intros Hf Hscan.
  assert (Hr : retrieve_source_symbol_pairs fs file mp ip = Raise (raised_for file e)).
  { unfold retrieve_source_symbol_pairs, read_file, raised_for.
    rewrite Hscan. simpl. rewrite Hf. now destruct (is_OSError e). }
  split; [exact Hr|].
  split; [intros He; unfold raised_for; now rewrite He|].
  split; [intros He; unfold raised_for; now rewrite He|].
  intros d before after sid symbols found Hid Hd Hmp Hip Hbefore.
  assert (Hp : process_coreref_file fs file d = Raise (raised_for file e)).
  { unfold process_coreref_file, retrieve_instruments.
    rewrite Hid. simpl. rewrite Hd. simpl. rewrite Hmp. simpl. rewrite Hip. simpl.
    exact Hr. }
  split; [exact Hp|].
  unfold process_all_coreref_files. rewrite gather_app, Hbefore. simpl.
  rewrite Hid. simpl. unfold in_keys. rewrite Hd. simpl. now rewrite Hp.
Qed.

(** ** The pattern reader *)

Lemma run_app (p q : string) (st : pstate) : run (p +:+ q) st = run q (run p st).
Proof. revert st. induction p as [|c p IH]; intros st; simpl; [reflexivity | apply IH]. Qed.

Lemma run_PFail (p : string) (e : pyexn) : run p (PFail e) = PFail e.
Proof. induction p as [|c p IH]; simpl; [reflexivity | exact IH]. Qed.

Lemma unwind_bars (l : list re) (below : list entry) (acc : list re) :
  unwind (map Bar l ++ below) acc = unwind below (rev l ++ acc).
Proof.
  revert acc. induction l as [|b l IH]; intros acc; simpl; [reflexivity|].
  rewrite IH. now rewrite <- app_assoc.
Qed.

Lemma unwind_nil (below : list entry) :
  forall acc bs,
    unwind below acc = (bs, []) ->
    exists l, below = map Bar l /\ bs = rev l ++ acc.
Proof.
  induction below as [|[b|saved] below IH]; intros acc bs H; simpl in H.
  - injection H as <-. now exists [].
  - apply IH in H. destruct H as (l & -> & ->). exists (b :: l).
    split; [reflexivity|]. simpl. now rewrite <- app_assoc.
  - discriminate.
Qed.

Lemma unwind_paren (below under : list entry) :
  forall acc bs saved tl,
    unwind below acc = (bs, Paren saved :: tl) ->
    unwind (below ++ under) acc = (bs, Paren saved :: tl ++ under).
Proof.
  induction below as [|[b|s] below IH]; intros acc bs saved tl H; simpl in *.
  - discriminate.
  - now apply IH.
  - now injection H as <- <- <-.
Qed.

Lemma quantify_lift (lo : nat) (hi : option nat) (cur : list re)
    (below under : list entry) :
  quantify lo hi cur (below ++ under) = lift under (quantify lo hi cur below).
Proof.
  unfold quantify. destruct cur as [|r rs]; [reflexivity|].
  destruct (is_assertion r); [reflexivity|].
  destruct r; try reflexivity; destruct (nullable _); reflexivity.
Qed.

Lemma question_lift (cur : list re) (below under : list entry) :
  question cur (below ++ under) = lift under (question cur below).
Proof.
  unfold question. destruct cur as [|r rs]; [apply quantify_lift|].
  destruct r; try apply quantify_lift. destruct greedy; [reflexivity | apply quantify_lift].
Qed.

Lemma plus_lift (cur : list re) (below under : list entry) :
  plus cur (below ++ under) = lift under (plus cur below).
Proof.
  unfold plus. destruct cur as [|r rs]; [apply quantify_lift|].
  destruct r; try apply quantify_lift. destruct greedy; [reflexivity | apply quantify_lift].
Qed.

Lemma step_normal_lift (c : ascii) (cur : list re) (below under : list entry) :
  (forall e, step_normal c cur below <> PFail e) ->
  step_normal c cur (below ++ under) = lift under (step_normal c cur below).
Proof.
  unfold step_normal. intros H.
  repeat match goal with
         | |- context [if ?b then _ else _] => destruct b; [try reflexivity|]
         end;
    try reflexivity; try apply quantify_lift; try apply question_lift;
    try apply plus_lift.
  destruct (unwind below [seq_of (rev cur)]) as [bs [|[b|saved] tl]] eqn:E;
    try (exfalso; eapply H; reflexivity).
  now rewrite (unwind_paren _ under _ _ _ _ E).
Qed.

Lemma step_set_lift (neg : bool) (items : list citem) (st : set_stage)
    (c : ascii) (cur : list re) (below under : list entry) :
  step_set neg items st c cur (below ++ under)
  = lift under (step_set neg items st c cur below).
Proof.
  unfold step_set, set_item, set_range, close_set.
  destruct st; repeat match goal with
         | |- context [if ?b then _ else _] => destruct b
         | |- context [match class_escape ?x with _ => _ end] =>
             destruct (class_escape x)
         | |- context [match ?i with CChar _ => _ | _ => _ end] => destruct i
         end; reflexivity.
Qed.

Lemma step_lift (c : ascii) (st : pstate) (under : list entry) :
  (forall e, step c st <> PFail e) ->
  step c (lift under st) = lift under (step c st).
Proof.
  destruct st as [m cur below|e]; [|reflexivity].
  destruct m; simpl; intros H;
    repeat match goal with
           | |- context [if ?b then _ else _] => destruct b
           | |- context [match escape_piece ?x with _ => _ end] =>
               destruct (escape_piece x)
           | |- context [match ?o with Some _ => _ | None => _ end] => destruct o
           end;
    try reflexivity; try apply quantify_lift; try apply step_set_lift;
    try apply (step_set_lift false [] SItem);
    try (now apply step_normal_lift).
Qed.

Lemma run_lift (p : string) (under : list entry) :
  forall st,
    (forall e, run p st <> PFail e) ->
    run p (lift under st) = lift under (run p st).
Proof.
  induction p as [|c p IH]; intros st H; simpl in *; [reflexivity|].
  rewrite step_lift; [now apply IH|].
  intros e He. rewrite He, run_PFail in H. now apply (H e).
Qed.

(** *** Patterns that compile on their own, read inside a larger pattern *)

Lemma finish_ends_with (st : pstate) (bs : list re) :
  ends_with st [] bs -> finish st = Return (alt_of bs).
Proof.
  intros (m & cur & below & cur' & -> & Hs & Hu). rewrite app_nil_r.
  unfold finish. now rewrite Hs, Hu.
Qed.

Lemma compiled_branches (p : string) (r : re) :
  re_compile p = Return r -> exists bs, branches p bs /\ r = alt_of bs.
Proof.
  unfold re_compile, finish, branches, ends_with.
  destruct (run p init) as [m cur below|e]; [|discriminate].
  destruct (settle m cur) as [cur'|] eqn:Hs; [|discriminate].
  destruct (unwind below [seq_of (rev cur')]) as [bs [|x tl]] eqn:Hu; [|discriminate].
  intros [= <-]. exists bs. split; [|reflexivity].
  exists m, cur, below, cur'. now rewrite app_nil_r.
Qed.

Lemma branches_compiled (p : string) (bs : list re) :
  branches p bs -> re_compile p = Return (alt_of bs).
Proof. intros H. now apply finish_ends_with. Qed.

Lemma ends_with_normal (p : string) (bs : list re) (under : list entry) :
  branches p bs -> ends_with (run p (PS MNormal [] under)) under bs.
Proof.
  intros (m & cur & below & cur' & Hrun & Hs & Hu). rewrite app_nil_r in Hrun.
  change (PS MNormal [] under) with (lift under init).
  rewrite run_lift; [|intros e He; unfold init in *; congruence].
  unfold init in *. rewrite Hrun. simpl. now exists m, cur, below, cur'.
Qed.

Lemma ends_with_open (p : string) (bs : list re) (under : list entry) :
  branches p bs -> ends_with (run p (PS MOpen [] under)) under bs.
Proof.
  intros H. destruct p as [|c p].
  - destruct H as (m & cur & below & cur' & Hrun & Hs & Hu).
    rewrite app_nil_r in Hrun. simpl in Hrun. injection Hrun as <- <- <-.
    exists MOpen, [], [], cur'. now repeat split.
  - pose proof (ends_with_normal _ _ under H) as Hn. simpl in *.
    destruct (Ascii.eqb c "?") eqn:E; [|exact Hn].
    apply Ascii.eqb_eq in E. subst c.
    destruct H as (m & cur & below & cur' & Hrun & _).
    change (run (String "?" p) init) with (run p (PFail ReError)) in Hrun.
    rewrite run_PFail in Hrun. discriminate Hrun.
Qed.

Lemma step_settle_bar (m : mode) (cur cur' : list re) (below : list entry) :
  settle m cur = Some cur' ->
  step "|" (PS m cur below) = PS MNormal [] (Bar (seq_of (rev cur')) :: below).
Proof. destruct m; simpl; intros [= <-]; reflexivity. Qed.

Lemma step_settle_close (m : mode) (cur cur' : list re) (below : list entry) :
  settle m cur = Some cur' ->
  step ")" (PS m cur below) =
  match unwind below [seq_of (rev cur')] with
  | (bs, Paren saved :: tl) => PS MNormal (Group (alt_of bs) :: saved) tl
  | _ => PFail ReError
  end.
Proof. destruct m; simpl; intros [= <-]; reflexivity. Qed.

Lemma step_bar (st : pstate) (under : list entry) (bs : list re) :
  ends_with st under bs ->
  step "|" st = PS MNormal [] (map Bar (rev bs) ++ under).
Proof.
  intros (m & cur & below & cur' & -> & Hs & Hu).
  rewrite (step_settle_bar _ _ _ _ Hs).
  apply unwind_nil in Hu. destruct Hu as (l & -> & ->).
  rewrite rev_app_distr, rev_involutive. reflexivity.
Qed.

Lemma step_close (st : pstate) (saved : list re) (tl : list entry) (bs : list re) :
  ends_with st (Paren saved :: tl) bs ->
  step ")" st = PS MNormal (Group (alt_of bs) :: saved) tl.
Proof.
  intros (m & cur & below & cur' & -> & Hs & Hu).
  rewrite (step_settle_close _ _ _ _ Hs).
  apply unwind_nil in Hu. destruct Hu as (l & -> & ->).
  now rewrite unwind_bars.
Qed.

Lemma ends_with_bars (st : pstate) (B : list re) (under : list entry) (bs : list re) :
  ends_with st (map Bar (rev B) ++ under) bs -> ends_with st under (B ++ bs).
Proof.
  intros (m & cur & below & cur' & -> & Hs & Hu).
  exists m, cur, (below ++ map Bar (rev B)), cur'.
  split; [now rewrite <- app_assoc|]. split; [exact Hs|].
  apply unwind_nil in Hu. destruct Hu as (l & -> & ->).
  rewrite unwind_bars. rewrite <- (app_nil_r (map Bar (rev B))), unwind_bars.
  simpl. now rewrite rev_involutive.
Qed.

Lemma run_join (pats : list string) (bss : list (list re)) :
  Forall2 branches pats bss -> pats <> [] ->
  forall (m0 : mode) (B : list re) (under : list entry),
    m0 = MNormal \/ m0 = MOpen ->
    ends_with (run (join "|" pats) (PS m0 [] (map Bar (rev B) ++ under)))
      under (B ++ concat bss).
Proof.
  induction 1 as [|p bs pats bss Hp Hrest IH]; intros Hne m0 B under Hm0;
    [congruence|].
  assert (Hfirst : forall q, branches q bs ->
            ends_with (run q (PS m0 [] (map Bar (rev B) ++ under))) under (B ++ bs)).
  { intros q Hq. apply ends_with_bars.
    destruct Hm0 as [-> | ->]; [now apply ends_with_normal | now apply ends_with_open]. }
  destruct pats as [|p2 pats].
  - inversion Hrest; subst. simpl. rewrite app_nil_r. now apply Hfirst.
  - change (join "|" (p :: p2 :: pats)) with (p +:+ "|" +:+ join "|" (p2 :: pats)).
    rewrite !run_app.
    change (run "|" ?st) with (step "|" st).
    rewrite (step_bar _ _ _ (Hfirst p Hp)).
    cbn [concat]. rewrite app_assoc. apply IH; [discriminate | now left].
Qed.

(** The symbol-level pattern, read after [cur0], adds one group. *)
Lemma run_group (pats : list string) (bss : list (list re))
    (cur0 : list re) (below0 : list entry) :
  Forall2 branches pats bss ->
  run ("(" +:+ join "|" pats +:+ ")") (PS MNormal cur0 below0)
  = PS MNormal (Group (alt_of (group_body bss)) :: cur0) below0.
Proof.
  intros H.
  change ("(" +:+ join "|" pats +:+ ")") with (String "(" (join "|" pats +:+ ")")).
  cbn [run]. change (step "(" (PS MNormal cur0 below0))
    with (PS MOpen [] (Paren cur0 :: below0)).
  rewrite run_app. change (run ")" ?st) with (step ")" st).
  destruct H as [|p bs pats bss Hp Hrest]; [reflexivity|].
  apply step_close.
  apply (run_join (p :: pats) (bs :: bss)) with (B := []); [|discriminate|now right].
  now constructor.
Qed.

Lemma step_normal_plain (c : ascii) (cur : list re) (below : list entry) :
  special c = false -> step_normal c cur below = PS MNormal (Chr c :: cur) below.
Proof.
  unfold special. cbn [existsb list_ascii_of_string]. intros H.
  repeat (apply orb_false_elim in H; destruct H as [? H]).
  unfold step_normal.
  now repeat match goal with E : Ascii.eqb c _ = false |- _ => rewrite E; clear E end.
Qed.

Lemma run_plain (s : string) :
  plain s ->
  forall (cur : list re) (below : list entry),
    run s (PS MNormal cur below) = PS MNormal (rev (chars s) ++ cur) below.
Proof.
  unfold plain, chars. induction s as [|c s IH]; intros H cur below; simpl in *.
  - reflexivity.
  - inversion H as [|? ? Hc Hs]; subst.
    rewrite (step_normal_plain c cur below Hc), (IH Hs).
    now rewrite <- app_assoc.
Qed.

(** ** The symbol-level pattern *)

Lemma all_str_Some (pats : list string) : all_str (map Some pats) = Some pats.
Proof. induction pats as [|p pats IH]; simpl; [reflexivity | now rewrite IH]. Qed.

Lemma instrument_level_pattern_text (symbols pats : list string) :
  Forall2 symbol_pattern symbols pats ->
  create_instrument_level_pattern symbols = Return ("(" +:+ join "|" pats +:+ ")").
Proof.
  intros H. unfold create_instrument_level_pattern.
  assert (Hm : mapM create_specific_instrument_regex symbols = Return (map Some pats)).
  { induction H as [|s p symbols pats Hs _ IH]; simpl; [reflexivity|].
    unfold symbol_pattern in Hs. now rewrite Hs, IH. }
  rewrite Hm. simpl. unfold str_join. now rewrite all_str_Some.
Qed.

Lemma compiled_all_branches (pats : list string) (rs : list re) :
  Forall2 pattern_re pats rs ->
  exists bss, Forall2 branches pats bss /\ rs = map alt_of bss.
Proof.
  induction 1 as [|p r pats rs Hp _ (bss & Hb & ->)].
  - exists []. split; [constructor | reflexivity].
  - apply compiled_branches in Hp. destruct Hp as (bs & Hbs & ->).
    exists (bs :: bss). split; [now constructor | reflexivity].
Qed.

Lemma compile_instrument_level (pats : list string) (bss : list (list re)) :
  Forall2 branches pats bss ->
  re_compile ("(" +:+ join "|" pats +:+ ")")
  = Return (instrument_re (alt_of (group_body bss))).
Proof.
  intros H. unfold re_compile, init. now rewrite (run_group pats bss [] [] H).
Qed.

Lemma or_else_None_r {X : Type} (a : option X) : or_else a None = a.
Proof. now destruct a. Qed.

Lemma or_else_assoc {X : Type} (a b c : option X) :
  or_else (or_else a b) c = or_else a (or_else b c).
Proof. now destruct a. Qed.

Lemma rmatch_alt_of_app {X : Type} (l1 l2 : list re) (c : cursor)
    (k : cursor -> option X) :
  rmatch (alt_of (l1 ++ l2)) c k
  = or_else (rmatch (alt_of l1) c k) (rmatch (alt_of l2) c k).
Proof.
  induction l1 as [|r l1 IH]; simpl; [reflexivity|].
  fold (alt_of (l1 ++ l2)). fold (alt_of l1). now rewrite IH, or_else_assoc.
Qed.

Lemma rmatch_alt_concat {X : Type} (bss : list (list re)) (c : cursor)
    (k : cursor -> option X) :
  rmatch (alt_of (concat bss)) c k <> None <->
  Exists (fun r => rmatch r c k <> None) (map alt_of bss).
Proof.
  induction bss as [|bs bss IH]; simpl.
  - split; [congruence | intros H; inversion H].
  - rewrite rmatch_alt_of_app, Exists_cons, <- IH.
    destruct (rmatch (alt_of bs) c k); simpl; split;
      try tauto; try congruence; try (intros _; left; congruence).
Qed.

Lemma Exists_equiv {A : Type} (P Q : A -> Prop) (l : list A) :
  (forall x, P x <-> Q x) -> Exists P l <-> Exists Q l.
Proof.
  intros H. rewrite !Exists_exists.
  split; intros (x & Hin & Hx); exists x; (split; [exact Hin | now apply H]).
Qed.

Lemma match_at_None (r : re) (b : option ascii) (s : string) :
  match_at r b s <> None <-> rmatch r (Cursor b [] s) Some <> None.
Proof.
  unfold match_at. destruct (rmatch r (Cursor b [] s) Some); split; congruence.
Qed.

Lemma match_at_instrument_re (g : re) (b : option ascii) (s : string) :
  match_at (instrument_re g) b s = match_at g b s.
Proof.
  unfold match_at, instrument_re. simpl. now rewrite or_else_None_r.
Qed.

(** C5.  For a non-empty list of symbols that all have a pattern, each
    pattern compiling on its own, [create_instrument_level_pattern] returns
    the patterns joined with [|] in the order of the symbols, in one pair of
    parentheses; the result compiles, and it matches at a position, and in a
    line, exactly when one of the patterns does. *)
Theorem C5_alternation_is_union
    (symbols pats : list string) (rs : list re) :
  symbols <> [] ->
  Forall2 symbol_pattern symbols pats ->
  Forall2 pattern_re pats rs ->
  create_instrument_level_pattern symbols
  = Return ("(" +:+ join "|" pats +:+ ")") /\
  exists r,
    re_compile ("(" +:+ join "|" pats +:+ ")") = Return r /\
    (forall before s,
       match_at r before s <> None <->
       Exists (fun ri => match_at ri before s <> None) rs) /\
    (forall line, matches r line <-> Exists (fun ri => matches ri line) rs).
Proof.
  intros Hne Hsym Hre. split; [now apply instrument_level_pattern_text|].
  destruct (compiled_all_branches pats rs Hre) as (bss & Hb & ->).
  exists (instrument_re (alt_of (group_body bss))).
  split; [now apply compile_instrument_level|].
  assert (Hbody : group_body bss = concat bss).
  { destruct bss; [|reflexivity]. inversion Hb; subst. inversion Hsym; subst.
    congruence. }
  assert (Hpos : forall before s,
            match_at (instrument_re (alt_of (group_body bss))) before s <> None <->
            Exists (fun ri => match_at ri before s <> None) (map alt_of bss)).
  { intros before s. rewrite match_at_instrument_re, Hbody, match_at_None.
    rewrite rmatch_alt_concat. apply Exists_equiv. intros ri.
    symmetry. apply match_at_None. }
  split; [exact Hpos|].
  intros line. rewrite matches_iff. rewrite Exists_exists. split.
  - intros (pre & suf & -> & H). apply Hpos in H. apply Exists_exists in H.
    destruct H as (ri & Hin & Hri). exists ri. split; [exact Hin|].
    apply matches_iff. now exists pre, suf.
  - intros (ri & Hin & H). apply matches_iff in H.
    destruct H as (pre & suf & -> & Hri). exists pre, suf. split; [reflexivity|].
    apply Hpos. apply Exists_exists. now exists ri.
Qed.

(** ** The message-level pattern *)

Lemma option_map_or_else {X Y : Type} (f : X -> Y) (a b : option X) :
  option_map f (or_else a b) = or_else (option_map f a) (option_map f b).
Proof. now destruct a. Qed.

Lemma rep_loop_map {X Y : Type} (f : X -> Y)
    (bodyX : cursor -> (cursor -> option X) -> option X)
    (bodyY : cursor -> (cursor -> option Y) -> option Y)
    (greedy : bool) (k : cursor -> option X) :
  (forall c ka kb, (forall c', ka c' = kb c') -> bodyY c ka = bodyY c kb) ->
  (forall c k', bodyY c (fun c' => option_map f (k' c')) = option_map f (bodyX c k')) ->
  forall n lo c,
    rep_loop bodyY greedy (fun c' => option_map f (k c')) n lo c
    = option_map f (rep_loop bodyX greedy k n lo c).
Proof.
  intros Hext Hbody. induction n as [|n IH]; intros lo c; simpl.
  - now destruct (Nat.eqb lo 0).
  - rewrite (Hext c _ (fun c' => option_map f (rep_loop bodyX greedy k n (Nat.pred lo) c'))
               (IH _)).
    rewrite Hbody.
    destruct greedy; rewrite option_map_or_else; now destruct (Nat.eqb lo 0).
Qed.

Lemma rmatch_map (r : re) :
  forall (X Y : Type) (f : X -> Y) (c : cursor) (k : cursor -> option X),
    rmatch r c (fun c' => option_map f (k c')) = option_map f (rmatch r c k).
Proof.
  induction r as [ | | a | | neg items | | | | | r1 IH1 r2 IH2 | r1 IH1 r2 IH2
                 | r1 IH1 lo hi greedy | r1 IH1 ]; intros X Y f c k; simpl;
    try reflexivity;
    try (unfold one_char; destruct (rest c) as [|a0 s0]; [reflexivity|];
         match goal with |- context [if ?b then _ else _] => now destruct b end);
    try (unfold guard;
         match goal with |- context [if ?b then _ else _] => now destruct b end).
  - rewrite <- IH1. apply rmatch_ext. intros c'. apply IH2.
  - now rewrite IH1, IH2, option_map_or_else.
  - apply rep_loop_map.
    + intros c0 ka kb Hab. now apply rmatch_ext.
    + intros c0 k'. apply IH1.
  - apply IH1.
Qed.

Lemma matched_text_rebase (w : string) (c : cursor) :
  matched_text (rebase (rev (list_ascii_of_string w)) c) = w +:+ matched_text c.
Proof.
  unfold matched_text, rebase. simpl.
  rewrite rev_app_distr, rev_involutive, sla_app.
  now rewrite string_of_list_ascii_of_string.
Qed.

Lemma search_from_bol_later (r : re) (s : string) :
  forall a, search_from (Alt (Seq Bol r) Void) (Some a) s = None.
Proof. induction s as [|b s IH]; intros a; [reflexivity | apply IH]. Qed.

Lemma search_bol (r : re) (line : string) :
  search (Alt (Seq Bol r) Void) line = match_at (Alt (Seq Bol r) Void) None line.
Proof.
  unfold search. destruct line as [|a line]; cbn [search_from].
  - now destruct (match_at _ None "").
  - destruct (match_at _ None (String a line)); [reflexivity|].
    apply search_from_bol_later.
Qed.

(** A line is selected when it starts with [w], followed by a match of the
    alternation; the text of the match is [w] and that match. *)
Lemma search_message_re (w : string) (g : re) (line : string) :
  search (message_re w g) line =
  match strip w line with
  | Some s' =>
      option_map (fun t => w +:+ t) (match_at (instrument_re g) (prev_after None w) s')
  | None => None
  end.
Proof.
  unfold message_re. rewrite search_bol.
  unfold match_at at 1. cbn [rmatch guard at_start prev]. rewrite or_else_None_r.
  rewrite rmatch_chars. cbn [rest prev taken].
  destruct (strip w line) as [s'|]; [|reflexivity].
  rewrite match_at_instrument_re. unfold match_at.
  rewrite app_nil_r.
  change (Cursor (prev_after None w) (rev (list_ascii_of_string w)) s')
    with (rebase (rev (list_ascii_of_string w)) (Cursor (prev_after None w) [] s')).
  cbn [seq_of fold_right rmatch]. rewrite rmatch_rebase.
  pose proof (rmatch_map g cursor cursor (rebase (rev (list_ascii_of_string w)))
                (Cursor (prev_after None w) [] s') Some) as Hm.
  cbn [option_map] in Hm. rewrite Hm.
  destruct (rmatch g (Cursor (prev_after None w) [] s') Some) as [c|]; [|reflexivity].
  simpl. now rewrite matched_text_rebase.
Qed.

Lemma prev_after_bar (b : option ascii) (u : string) :
  prev_after b (u +:+ "|") = Some "|"%char.
Proof. now rewrite prev_after_app. Qed.

Lemma compile_message_level (source_id : string) (pats : list string)
    (bss : list (list re)) :
  plain source_id -> Forall2 branches pats bss ->
  re_compile ("^DC\|" +:+ source_id +:+ "\|" +:+ "(" +:+ join "|" pats +:+ ")")
  = Return (message_re ("DC|" +:+ source_id +:+ "|") (alt_of (group_body bss))).
Proof.
  intros Hid Hb. unfold re_compile.
  rewrite run_app.
  change (run "^DC\|" init) with (PS MNormal [Chr "|"; Chr "C"; Chr "D"; Bol] []).
  rewrite run_app, (run_plain _ Hid), run_app.
  change (run "\|" (PS MNormal ?cur [])) with (PS MNormal (Chr "|" :: cur) []).
  rewrite (run_group pats bss _ _ Hb).
  unfold finish, settle, unwind, message_re. f_equal. unfold alt_of at 1. simpl fold_right.
  f_equal. cbn [rev]. rewrite !rev_app_distr, rev_involutive. simpl.
  unfold chars. rewrite !las_app, !map_app. simpl.
  now rewrite <- !app_assoc.
Qed.

Lemma selected_line_has_symbol (w : string) (g : re) (line : string) :
  matches (message_re w g) line -> matches (instrument_re g) line.
Proof.
  unfold matches at 1. rewrite search_message_re.
  destruct (strip w line) as [s'|] eqn:E; [|congruence].
  apply strip_Some in E. subst line. intros H.
  apply matches_iff. exists w, s'. split; [reflexivity|].
  destruct (match_at (instrument_re g) (prev_after None w) s'); [discriminate|].
  now contradict H.
Qed.

Lemma scenario_selected (fields : string) :
  re_search "^DC\|207\|(F:FDAX\\[A-Z][0-9]{2,4})" ("DC|207|F:FDAX\H21|" +:+ fields)
  = Return (Some "DC|207|F:FDAX\H21").
Proof. vm_compute. reflexivity. Qed.

Lemma scenario_symbol (fields : string) :
  re_search "(F:FDAX\\[A-Z][0-9]{2,4})" ("DC|207|F:FDAX\H21|" +:+ fields)
  = Return (Some "F:FDAX\H21").
Proof. vm_compute. reflexivity. Qed.

Lemma scenario_rejected (fields : string) :
  re_search "^DC\|207\|(F:FDAX\\[A-Z][0-9]{2,4})" ("DC|999|F:FDAX\H21|" +:+ fields)
  = Return None.
Proof.
  rewrite (re_search_compiled _
             (message_re "DC|207|"
                (alt_of [seq_of (chars "F:FDAX\" ++
                           [Cls false [CRange "A" "Z"];
                            Rep (Cls false [CRange "0" "9"]) 2 (Some 4) true])])))
    by reflexivity.
  now rewrite search_message_re.
Qed.

(** C6 (as stated, refuted).  The source id is copied into the pattern as it
    is: with the source id [2.7] the message-level pattern selects a line of
    source 207, which does not begin with [DC|2.7|]. *)
Lemma C6_source_id_is_not_matched_literally :
  (let* p := create_dc_message_level_pattern "2.7" ["F:FDAX\*"] in
   re_search p "DC|207|F:FDAX\H21|FDAX MAR21")
  = Return (Some "DC|207|F:FDAX\H21") /\
  String.prefix "DC|2.7|" "DC|207|F:FDAX\H21|FDAX MAR21" = false.
Proof. split; vm_compute; reflexivity. Qed.

(** C6 (amended).  For a source id without characters that are special in a
    pattern, and symbols whose patterns compile, the message-level pattern
    selects a line exactly when the line begins with [DC|], the source id and
    [|], followed at once by a match of the symbol-level pattern; the text it
    matches is that prefix and that match.  In the scenario of a file of
    source 207 with a line [DC|207|F:FDAX\H21|...] and a line
    [DC|999|F:FDAX\H21|...], the symbol [F:FDAX\*] yields the single pair
    [("207", "F:FDAX\H21")]. *)
Theorem C6_message_level_pattern_selects_source_lines :
  (forall (source_id : string) (symbols pats : list string) (rs : list re),
     plain source_id ->
     Forall2 symbol_pattern symbols pats ->
     Forall2 pattern_re pats rs ->
     exists mp ip mr ir,
       create_dc_message_level_pattern source_id symbols = Return mp /\
       create_instrument_level_pattern symbols = Return ip /\
       re_compile mp = Return mr /\ re_compile ip = Return ir /\
       forall line t,
         search mr line = Some t <->
         exists fields symbol,
           line = "DC|" +:+ source_id +:+ "|" +:+ fields /\
           match_at ir (Some "|"%char) fields = Some symbol /\
           t = "DC|" +:+ source_id +:+ "|" +:+ symbol) /\
  (forall fields1 fields2 : string,
     retrieve_source_symbol_pairs (scenario_fs fields1 fields2) coreref_207
       "^DC\|207\|(F:FDAX\\[A-Z][0-9]{2,4})" "(F:FDAX\\[A-Z][0-9]{2,4})"
     = Return [("207", "F:FDAX\H21")] /\
     process_all_coreref_files (scenario_fs fields1 fields2) [coreref_207]
       scenario_dictionary
     = Return [("207", "F:FDAX\H21")]).
Proof.
  split.
  - intros source_id symbols pats rs Hid Hsym Hre.
    destruct (compiled_all_branches pats rs Hre) as (bss & Hb & ->).
    pose proof (instrument_level_pattern_text symbols pats Hsym) as Hip.
    exists ("^DC\|" +:+ source_id +:+ "\|" +:+ "(" +:+ join "|" pats +:+ ")"),
           ("(" +:+ join "|" pats +:+ ")"),
           (message_re ("DC|" +:+ source_id +:+ "|") (alt_of (group_body bss))),
           (instrument_re (alt_of (group_body bss))).
    split; [unfold create_dc_message_level_pattern; now rewrite Hip|].
    split; [exact Hip|].
    split; [now apply compile_message_level|].
    split; [now apply compile_instrument_level|].
    intros line t. rewrite search_message_re.
    replace (prev_after None ("DC|" +:+ source_id +:+ "|")) with (Some "|"%char)
      by (symmetry; apply (prev_after_bar None ("DC|" +:+ source_id))).
    split.
    + destruct (strip _ line) as [fields|] eqn:E; [|discriminate].
      apply strip_Some in E.
      destruct (match_at _ (Some "|"%char) fields) as [symbol|] eqn:Em; [|discriminate].
      intros [= <-]. exists fields, symbol.
      split; [now rewrite E, !sapp_assoc|]. split; [exact Em|].
      now rewrite !sapp_assoc.
    + intros (fields & symbol & -> & Hm & ->).
      replace (strip ("DC|" +:+ source_id +:+ "|")
                 ("DC|" +:+ source_id +:+ "|" +:+ fields)) with (Some fields).
      * rewrite Hm. cbn [option_map]. now rewrite !sapp_assoc.
      * symmetry. apply strip_Some. now rewrite !sapp_assoc.
  - intros fields1 fields2.
    assert (Hr : retrieve_source_symbol_pairs (scenario_fs fields1 fields2) coreref_207
                   "^DC\|207\|(F:FDAX\\[A-Z][0-9]{2,4})" "(F:FDAX\\[A-Z][0-9]{2,4})"
                 = Return [("207", "F:FDAX\H21")]).
    { unfold retrieve_source_symbol_pairs, read_file, scenario_fs.
      cbn [lines failure scan_lines].
      rewrite scenario_selected, scenario_rejected, scenario_symbol. reflexivity. }
    split; [exact Hr|].
    unfold process_all_coreref_files. cbn [gather].
    change (get_source_id_from_file_path coreref_207) with (Return "207"). cbn [bind].
    change (in_keys "207" scenario_dictionary) with true. cbn [negb].
    unfold process_coreref_file.
    change (get_source_id_from_file_path coreref_207) with (Return "207"). cbn [bind].
    change (retrieve_instruments "207" scenario_dictionary) with (Some ["F:FDAX\*"]).
    cbn [iterate bind].
    change (create_dc_message_level_pattern "207" ["F:FDAX\*"])
      with (Return "^DC\|207\|(F:FDAX\\[A-Z][0-9]{2,4})").
    change (create_instrument_level_pattern ["F:FDAX\*"])
      with (Return "(F:FDAX\\[A-Z][0-9]{2,4})").
    cbn [bind]. rewrite Hr. reflexivity.
Qed.

(** In [process_coreref_file] the two patterns are built from the same
    symbols, so that a selected line always has a symbol to extract. *)
Lemma process_coreref_file_per_line
    (fs : filesystem) (file : path) (d : gmap string (list string))
    (source_id : string) (symbols pats : list string) (rs : list re) :
  failure (fs file) = None ->
  get_source_id_from_file_path file = Return source_id ->
  d !! source_id = Some symbols ->
  plain source_id ->
  Forall2 symbol_pattern symbols pats ->
  Forall2 pattern_re pats rs ->
  exists g per_line,
    process_coreref_file fs file d = Return (concat per_line) /\
    Forall2
      (line_contribution source_id
         (message_re ("DC|" +:+ source_id +:+ "|") g) (instrument_re g))
      (lines (fs file)) per_line.
Proof.
  intros Hf Hid Hd Hplain Hsym Hre.
  destruct (compiled_all_branches pats rs Hre) as (bss & Hb & _).
  pose proof (instrument_level_pattern_text symbols pats Hsym) as Hip.
  set (g := alt_of (group_body bss)).
  destruct (scan_lines_per_line file
              ("^DC\|" +:+ source_id +:+ "\|" +:+ "(" +:+ join "|" pats +:+ ")")
              ("(" +:+ join "|" pats +:+ ")")
              (message_re ("DC|" +:+ source_id +:+ "|") g) (instrument_re g)
              source_id (lines (fs file)) Hid
              (compile_message_level source_id pats bss Hplain Hb)
              (compile_instrument_level pats bss Hb)
              (fun line _ => selected_line_has_symbol _ g line) [])
    as (per_line & Hscan & Hall).
  exists g, per_line. split; [|exact Hall].
  unfold process_coreref_file, retrieve_instruments, create_dc_message_level_pattern.
  rewrite Hid. cbn [bind]. rewrite Hd. cbn [iterate bind]. rewrite Hip. cbn [bind].
  unfold retrieve_source_symbol_pairs, read_file.
  rewrite Hscan. cbn [bind]. now rewrite Hf.
Qed.

(** ** Literal symbols and special characters *)

Lemma special_backslash (c : ascii) : special c = false -> Ascii.eqb c backslash = false.
Proof.
  unfold special. cbn [existsb list_ascii_of_string]. intros H.
  repeat (apply orb_false_elim in H; destruct H as [? H]). assumption.
Qed.

Lemma special_star (c : ascii) : special c = false -> Ascii.eqb c star = false.
Proof.
  unfold special. cbn [existsb list_ascii_of_string]. intros H.
  repeat (apply orb_false_elim in H; destruct H as [? H]). assumption.
Qed.

Lemma split_plain (s : string) : plain s -> split backslash s = [s].
Proof.
  unfold plain. induction s as [|c s IH]; intros H; simpl in *; [reflexivity|].
  inversion H as [|? ? Hc Hs]; subst.
  now rewrite (special_backslash c Hc), (IH Hs).
Qed.

Lemma split_after_plain (a b : string) :
  plain a -> split backslash (a +:+ "\" +:+ b) = a :: split backslash b.
Proof.
  unfold plain. induction a as [|c a IH]; intros Ha; simpl in *; [reflexivity|].
  inversion Ha as [|? ? Hc Has]; subst.
  now rewrite (special_backslash c Hc), (IH Has).
Qed.

Lemma split_segments (a b : string) :
  plain a -> plain b -> split backslash (a +:+ "\" +:+ b) = [a; b].
Proof. intros Ha Hb. now rewrite split_after_plain, (split_plain b Hb). Qed.

Lemma endswith_plain (s : string) : plain s -> endswith s star = false.
Proof.
  unfold plain. induction s as [|c s IH]; intros H; simpl in *; [reflexivity|].
  inversion H as [|? ? Hc Hs]; subst.
  destruct s; [now apply special_star | now apply IH].
Qed.

Lemma endswith_segments (a b : string) :
  plain b -> endswith (a +:+ "\" +:+ b) star = false.
Proof.
  intros Hb. induction a as [|c a IH]; simpl in *.
  - destruct b; [reflexivity | now apply endswith_plain].
  - destruct (a +:+ String "\" b) eqn:E; [|exact IH].
    destruct a; discriminate E.
Qed.

Lemma compile_literal_segments (root maturity : string) :
  plain root -> plain maturity ->
  re_compile (root +:+ "\\" +:+ maturity)
  = Return (literal_re (root +:+ "\" +:+ maturity)).
Proof.
  intros Hr Hm. unfold re_compile, init.
  rewrite run_app, (run_plain _ Hr), run_app.
  change (run "\\" (PS MNormal ?cur [])) with (PS MNormal (Chr "\" :: cur) []).
  rewrite (run_plain _ Hm).
  unfold finish, settle, unwind, literal_re. f_equal. unfold alt_of. simpl fold_right.
  f_equal. rewrite !rev_app_distr. cbn [rev]. rewrite !rev_app_distr, !rev_involutive.
  simpl. unfold chars. rewrite !las_app, !map_app. simpl.
  now rewrite <- !app_assoc.
Qed.

Lemma match_at_literal (w : string) (b : option ascii) (s : string) :
  match_at (literal_re w) b s = literal_match w s.
Proof.
  unfold match_at, literal_re, literal_match. cbn [rmatch].
  rewrite or_else_None_r. rewrite <- (app_nil_r (chars w)), rmatch_chars.
  cbn [rest seq_of fold_right rmatch taken].
  destruct (strip w s); [|reflexivity].
  unfold matched_text. cbn [taken]. rewrite app_nil_r, rev_involutive.
  now rewrite string_of_list_ascii_of_string.
Qed.

(** C2 (as stated, refuted).  The dot of the root [E:BRK.A] is not escaped:
    the pattern of the symbol also matches [E:BRKXA]. *)
Lemma C2_dot_in_root_is_not_escaped :
  re_search (create_equity_regex "E:BRK.A") "DC|794|E:BRKXA|USD"
  = Return (Some "E:BRKXA").
Proof. vm_compute. reflexivity. Qed.

(** C2 (amended).  The compiler escapes the backslash separators that it
    writes between the segments, and copies the segments as they are.  So the
    pattern of a futures or forwards symbol [root\maturity] whose segments
    have no special character matches the text [root\maturity] and nothing
    else; and a special character of a segment keeps its meaning: the dot of
    [E:BRK.A] and of [O:PRY\A21\17.0] matches any character, the star of
    [F2:ES*] makes the [S] optional. *)
Theorem C2_separators_escaped_segments_verbatim :
  (forall root maturity : string,
     plain root -> plain maturity ->
     exists r,
       (let* p := create_futures_regex (root +:+ "\" +:+ maturity) in re_compile p)
       = Return r /\
       (let* p := create_forwards_regex (root +:+ "\" +:+ maturity) in re_compile p)
       = Return r /\
       forall before s,
         match_at r before s = literal_match (root +:+ "\" +:+ maturity) s) /\
  (let* p := create_instrument_level_pattern ["E:BRK.A"] in
   re_search p "DC|794|E:BRKXA|USD")
  = Return (Some "E:BRKXA") /\
  (let* p := create_instrument_level_pattern ["O:PRY\A21\17.0"] in
   re_search p "DC|794|O:PRY\A21\1750|EUR")
  = Return (Some "O:PRY\A21\1750") /\
  (let* p := create_instrument_level_pattern ["F2:ES*"] in
   re_search p "DC|673|F2:E\H21|USD")
  = Return (Some "F2:E\H21").
Proof.
  split; [|repeat split; vm_compute; reflexivity].
  intros root maturity Hr Hm. exists (literal_re (root +:+ "\" +:+ maturity)).
  unfold create_futures_regex, create_forwards_regex.
  rewrite (endswith_segments root maturity Hm), (split_segments root maturity Hr Hm).
  cbn [negb item nth_error bind].
  rewrite (compile_literal_segments root maturity Hr Hm).
  repeat split. intros before s. apply match_at_literal.
Qed.

Lemma C2_separators_escaped_witness :
  exists r,
    (let* p := create_futures_regex "F:FDAX\H21" in re_compile p) = Return r /\
    match_at r None "F:FDAX\H21|DAX" = Some "F:FDAX\H21" /\
    match_at r None "F:FDAX/H21|DAX" = None.
Proof.
  destruct (proj1 C2_separators_escaped_segments_verbatim "F:FDAX" "H21")
    as (r & Hc & _ & Hm).
  - unfold plain. repeat constructor.
  - unfold plain. repeat constructor.
  - exists r. split; [exact Hc|]. split; rewrite Hm; reflexivity.
Defined.

(** ** Wildcard futures symbols *)

Lemma cls_digit (d : ascii) : cls_matches false [CRange "0" "9"] d = is_digit d.
Proof. unfold cls_matches, is_digit. simpl. now rewrite orb_false_r. Qed.

Lemma cls_upper (u : ascii) : cls_matches false [CRange "A" "Z"] u = between "A" "Z" u.
Proof. unfold cls_matches. simpl. now rewrite orb_false_r. Qed.

(** Two digits are enough for [[0-9]{2,4}], whatever follows. *)
Lemma digits_2_4_accepted {X : Type} (k : cursor -> option X) (c : cursor)
    (d1 d2 : ascii) (tl : string) :
  rest c = String d1 (String d2 tl) ->
  is_digit d1 = true -> is_digit d2 = true ->
  (forall c', k c' <> None) ->
  rmatch (Rep (Cls false [CRange "0" "9"]) 2 (Some 4) true) c k <> None.
Proof.
  intros Hr H1 H2 Hk. cbn [rmatch rounds rep_loop Nat.eqb Nat.pred].
  unfold one_char at 1. rewrite Hr, cls_digit, H1. cbn [or_else].
  unfold one_char at 1. cbn [advance rest]. rewrite cls_digit, H2.
  rewrite !or_else_None_r.
  match goal with |- or_else ?a ?b <> None => destruct a end;
    cbn [or_else]; [discriminate | apply Hk].
Qed.

Lemma strip_app (w s : string) : strip w (w +:+ s) = Some s.
Proof. now apply strip_Some. Qed.

Lemma futures_wildcard_accepted (root : string) (b : option ascii)
    (u d1 d2 : ascii) (tl : string) :
  between "A" "Z" u = true -> is_digit d1 = true -> is_digit d2 = true ->
  match_at (futures_wildcard_re root) b
    ((root +:+ "\") +:+ String u (String d1 (String d2 tl))) <> None.
Proof.
  intros Hu H1 H2. apply match_at_None. unfold futures_wildcard_re.
  cbn [rmatch]. rewrite or_else_None_r, rmatch_chars. cbn [rest].
  rewrite strip_app. cbn [seq_of fold_right rmatch].
  unfold one_char at 1. cbn [rest]. rewrite cls_upper, Hu.
  apply digits_2_4_accepted with d1 d2 tl; try assumption; [reflexivity|].
  intros c'. discriminate.
Qed.

Lemma endswith_wildcard (a : string) : endswith (a +:+ "\*") star = true.
Proof.
  induction a as [|c a IH]; [reflexivity|]. simpl in *.
  destruct (a +:+ "\*") eqn:E; [destruct a; discriminate E | exact IH].
Qed.

(** The pattern of a wildcard futures symbol whose root has no special
    character. *)
Lemma compile_futures_wildcard (root : string) :
  plain root ->
  create_futures_regex (root +:+ "\*") = Return (root +:+ "\\[A-Z][0-9]{2,4}") /\
  re_compile (root +:+ "\\[A-Z][0-9]{2,4}") = Return (futures_wildcard_re root).
Proof.
  intros Hr. split.
  - unfold create_futures_regex. rewrite endswith_wildcard.
    change (root +:+ "\*") with (root +:+ "\" +:+ "*").
    now rewrite (split_after_plain root "*" Hr).
  - unfold re_compile, init. rewrite run_app, (run_plain _ Hr).
    match goal with
    | |- finish (run _ (PS MNormal ?cur [])) = _ =>
        change (finish (run "\\[A-Z][0-9]{2,4}" (PS MNormal cur [])))
          with (Return (alt_of [seq_of (rev
                  (Rep (Cls false [CRange "0" "9"]) 2 (Some 4) true
                   :: Cls false [CRange "A" "Z"] :: Chr "\" :: cur))]))
    end.
    unfold futures_wildcard_re, alt_of. simpl fold_right. do 2 f_equal.
    cbn [rev]. rewrite rev_app_distr, rev_involutive. simpl.
    unfold chars. rewrite las_app, map_app. simpl.
    now rewrite <- !app_assoc.
Qed.

Lemma not_matches (r : re) (line : string) : search r line = None -> ~ matches r line.
Proof. unfold matches. congruence. Qed.

(** C3 (as stated, refuted).  The pattern of [X\*] asks for two digits at
    least after the month letter: it does not match the line [X\M9]. *)
Lemma C3_single_digit_year_is_not_matched :
  (let* p := create_futures_regex "X\*" in re_search p "X\M9") = Return None.
Proof. vm_compute. reflexivity. Qed.

(** C3 (amended).  The pattern of the wildcard futures symbol [X\*] matches
    every line that contains [X\H21] and every line that contains [X\Z20],
    and matches none of the lines [X\M9], [X\21] and [XY\H21]. *)
Theorem C3_wildcard_futures_pattern :
  exists r,
    (let* p := create_futures_regex "X\*" in re_compile p) = Return r /\
    (forall pre post, matches r (pre +:+ "X\H21" +:+ post)) /\
    (forall pre post, matches r (pre +:+ "X\Z20" +:+ post)) /\
    ~ matches r "X\M9" /\ ~ matches r "X\21" /\ ~ matches r "XY\H21".
Proof.
  exists (futures_wildcard_re "X"). split; [reflexivity|].
  split; [|split; [|repeat split; apply not_matches; vm_compute; reflexivity]].
  - intros pre post. apply matches_iff. exists pre, ("X\H21" +:+ post).
    split; [reflexivity|].
    now apply (futures_wildcard_accepted "X" _ "H" "2" "1" post).
  - intros pre post. apply matches_iff. exists pre, ("X\Z20" +:+ post).
    split; [reflexivity|].
    now apply (futures_wildcard_accepted "X" _ "Z" "2" "0" post).
Qed.

(** ** Fixed-income symbols *)

Lemma compile_fixed_income (root : string) :
  plain root ->
  re_compile (create_fixed_income_regex root) = Return (fixed_income_re root).
Proof.
  intros Hr. unfold re_compile, create_fixed_income_regex.
  rewrite run_app.
  change (run "\b" init) with (PS MNormal [WordB] []).
  rewrite run_app, (run_plain _ Hr).
  match goal with
  | |- finish (run _ (PS MNormal ?cur [])) = _ =>
      change (finish (run "\b\\{0,1}D{0,1}@{0,1}[a-zA-Z0-9]{1,10}" (PS MNormal cur [])))
        with (Return (alt_of [seq_of (rev
                (Rep (Cls false [CRange "a" "z"; CRange "A" "Z"; CRange "0" "9"])
                   1 (Some 10) true
                 :: Rep (Chr "@") 0 (Some 1) true
                 :: Rep (Chr "D") 0 (Some 1) true
                 :: Rep (Chr "\") 0 (Some 1) true
                 :: WordB :: cur))]))
  end.
  unfold fixed_income_re, alt_of. simpl fold_right. do 2 f_equal.
  cbn [rev]. rewrite rev_app_distr, rev_involutive. simpl.
  now rewrite <- !app_assoc.
Qed.

Lemma cls_alnum (c : ascii) :
  cls_matches false [CRange "a" "z"; CRange "A" "Z"; CRange "0" "9"] c
  = (is_letter c || is_digit c)%bool.
Proof.
  unfold cls_matches, is_letter, is_digit. simpl.
  now destruct (between "a" "z" c), (between "A" "Z" c), (between "0" "9" c).
Qed.

(** No match of the fixed-income pattern starts at a bare root. *)
Lemma fixed_income_bare_root_rejected (stem : string) (z : ascii)
    (b : option ascii) (post : string) :
  is_word z = true -> ends_bare post ->
  match_at (fixed_income_re (stem +:+ String z "")) b
    ((stem +:+ String z "") +:+ post) = None.
Proof.
  intros Hz Hpost. unfold match_at, fixed_income_re.
  cbn [rmatch]. rewrite or_else_None_r. unfold guard at 1.
  destruct (at_boundary _); [|reflexivity].
  rewrite rmatch_chars. cbn [rest prev taken]. rewrite strip_app.
  rewrite prev_after_app. cbn [prev_after].
  cbn [seq_of fold_right rmatch]. unfold guard at 1.
  unfold at_boundary at 1, word_before, word_after. cbn [prev rest].
  rewrite Hz. destruct post as [|c tl].
  - reflexivity.
  - destruct Hpost as [Hb Ha].
    destruct (is_word c) eqn:Hw; [reflexivity|].
    cbn [xorb negb rounds rep_loop Nat.eqb Nat.pred].
    unfold one_char. cbn [rest].
    assert (E1 : Ascii.eqb "\" c = false) by (apply Ascii.eqb_neq; congruence).
    assert (E2 : Ascii.eqb "@" c = false) by (apply Ascii.eqb_neq; congruence).
    assert (E3 : Ascii.eqb "D" c = false).
    { apply Ascii.eqb_neq. intros <-. discriminate Hw. }
    assert (E4 : (is_letter c || is_digit c)%bool = false).
    { unfold is_word in Hw. now apply orb_false_elim in Hw. }
    rewrite E1, E2, E3, cls_alnum, E4. reflexivity.
Qed.

(** C4 (the code departs from it).  The pattern of a fixed-income symbol ends
    with [[a-zA-Z0-9]{1,10}]: one alphanumeric character at least must follow
    the root and the optional [\], [D] and [@].  So no match starts at a root
    that is followed by the end of the line or by a character other than [\]
    and [@]; a line with the bare root [B:01NU] is not matched, while the root
    with a suffix is, and while the equity pattern, which ends with
    [{0,10}], matches its bare root. *)
Theorem C4_bare_fixed_income_root_is_not_matched :
  (forall (stem : string) (z : ascii) (before : option ascii) (post : string),
     plain (stem +:+ String z "") -> is_word z = true -> ends_bare post ->
     exists r,
       re_compile (create_fixed_income_regex (stem +:+ String z "")) = Return r /\
       match_at r before ((stem +:+ String z "") +:+ post) = None) /\
  create_specific_instrument_regex "B:01NU"
  = Return (Some "\bB:01NU\b\\{0,1}D{0,1}@{0,1}[a-zA-Z0-9]{1,10}") /\
  re_search (create_fixed_income_regex "B:01NU") "B:01NU" = Return None /\
  re_search (create_fixed_income_regex "B:01NU") "DC|794|B:01NU|BOND|EUR"
  = Return None /\
  re_search (create_fixed_income_regex "B:01NU") "DC|794|B:01NU\D@XETR|BOND|EUR"
  = Return (Some "B:01NU\D@XETR") /\
  re_search (create_equity_regex "E:VOD") "DC|794|E:VOD|VODAFONE|GBP"
  = Return (Some "E:VOD").
Proof.
  split; [|repeat split; vm_compute; reflexivity].
  intros stem z before post Hp Hz Hpost.
  exists (fixed_income_re (stem +:+ String z "")).
  split; [now apply compile_fixed_income|].
  now apply fixed_income_bare_root_rejected.
Qed.

Lemma C4_bare_fixed_income_root_witness :
  exists r,
    re_compile (create_fixed_income_regex "B:01NU") = Return r /\
    match_at r (Some "|"%char) "B:01NU|BOND|EUR" = None.
Proof.
  apply (proj1 C4_bare_fixed_income_root_is_not_matched "B:01N" "U"%char
           (Some "|"%char) "|BOND|EUR").
  - unfold plain. repeat constructor.
  - reflexivity.
  - split; discriminate.
Defined.

(** ** The statements on the sample data *)

Lemma C5_alternation_is_union_witness :
  create_instrument_level_pattern ["F:FBTP\*"; "F:FDAX\M21"]
  = Return "(F:FBTP\\[A-Z][0-9]{2,4}|F:FDAX\\M21)" /\
  exists r,
    re_compile "(F:FBTP\\[A-Z][0-9]{2,4}|F:FDAX\\M21)" = Return r /\
    (matches r "DC|207|F:FDAX\M21|EUR" <->
     Exists (fun ri => matches ri "DC|207|F:FDAX\M21|EUR")
       [futures_wildcard_re "F:FBTP"; literal_re "F:FDAX\M21"]).
Proof.
  destruct (C5_alternation_is_union ["F:FBTP\*"; "F:FDAX\M21"]
              ["F:FBTP\\[A-Z][0-9]{2,4}"; "F:FDAX\\M21"]
              [futures_wildcard_re "F:FBTP"; literal_re "F:FDAX\M21"])
    as (Htext & r & Hr & _ & Hline).
  - discriminate.
  - repeat (constructor; [reflexivity|]). constructor.
  - repeat (constructor; [reflexivity|]). constructor.
  - split; [exact Htext|]. exists r. split; [exact Hr | apply Hline].
Defined.

Lemma C6_message_level_pattern_witness :
  exists mr ir,
    re_compile "^DC\|207\|(F:FDAX\\[A-Z][0-9]{2,4})" = Return mr /\
    re_compile "(F:FDAX\\[A-Z][0-9]{2,4})" = Return ir /\
    forall line t,
      search mr line = Some t <->
      exists fields symbol,
        line = "DC|207|" +:+ fields /\
        match_at ir (Some "|"%char) fields = Some symbol /\
        t = "DC|207|" +:+ symbol.
Proof.
  destruct (proj1 C6_message_level_pattern_selects_source_lines "207"
              ["F:FDAX\*"] ["F:FDAX\\[A-Z][0-9]{2,4}"] [futures_wildcard_re "F:FDAX"])
    as (mp & ip & mr & ir & Hmp & Hip & Hmr & Hir & Hsel).
  - unfold plain. repeat constructor.
  - repeat (constructor; [reflexivity|]). constructor.
  - repeat (constructor; [reflexivity|]). constructor.
  - injection Hmp as <-. injection Hip as <-. exists mr, ir.
    split; [exact Hmr|]. split; [exact Hir | exact Hsel].
Defined.


Lemma C8_read_failure_witness :
  retrieve_source_symbol_pairs sample_fs coreref_673_txt
    "^DC\|673\|(F2:ES*\\[A-Z][0-9]{2,4}|F2:NQ*\\[A-Z][0-9]{2,4})"
    "(F2:ES*\\[A-Z][0-9]{2,4}|F2:NQ*\\[A-Z][0-9]{2,4})"
  = Raise (SystemExit (exit_message coreref_673_txt)) /\
  process_all_coreref_files sample_fs [coreref_207; coreref_673_txt; coreref_367]
    sample_dictionary
  = Raise (SystemExit (exit_message coreref_673_txt)).
Proof.
  destruct (C8_read_failure_stops_the_run sample_fs coreref_673_txt OSError
              "^DC\|673\|(F2:ES*\\[A-Z][0-9]{2,4}|F2:NQ*\\[A-Z][0-9]{2,4})"
              "(F2:ES*\\[A-Z][0-9]{2,4}|F2:NQ*\\[A-Z][0-9]{2,4})" []
              eq_refl eq_refl) as (Hr & _ & _ & Hrun).
  split; [exact Hr|].
  apply (Hrun sample_dictionary [coreref_207] [coreref_367] "673" ["F2:ES*"; "F2:NQ*"]
           [("207", "F:FDAX\H21"); ("207", "F:FDAX\Z20")]);
    vm_compute; reflexivity.
Defined.

Lemma C9_result_sorted_witness :
  exists result,
    process_all_coreref_files sample_fs [coreref_367; coreref_207] sample_dictionary
    = Return result /\
    result = [("207", "F:FDAX\H21"); ("207", "F:FDAX\Z20");
              ("367", "F2:ZN\M21"); ("367", "F2:ZB\H21")].
Proof.
  destruct (C9_result_sorted_stably_by_source_id sample_fs sample_dictionary
              [coreref_367; coreref_207]
              [[("367", "F2:ZN\M21"); ("367", "F2:ZB\H21")];
               [("207", "F:FDAX\H21"); ("207", "F:FDAX\Z20")]])
    as (result & Hrun & Hres & _).
  - repeat (constructor; [vm_compute; reflexivity|]). constructor.
  - exists result. split; [exact Hrun|]. rewrite Hres. vm_compute. reflexivity.
Defined.

(** ** Names of reference files *)

Lemma lacks_app (x : ascii) (a b : string) :
  lacks x a -> lacks x b -> lacks x (a +:+ b).
Proof. unfold lacks. rewrite las_app. apply Forall_app_2. Qed.

Lemma lacks_cons (x c : ascii) (s : string) :
  lacks x (String c s) <-> Ascii.eqb c x = false /\ lacks x s.
Proof.
  unfold lacks. simpl. split.
  - intros H. inversion H; subst. now split.
  - intros [Hc Hs]. now constructor.
Qed.

Lemma split_lacks (sep : ascii) (s : string) : lacks sep s -> split sep s = [s].
Proof.
  induction s as [|c s IH]; intros H; [reflexivity|].
  apply lacks_cons in H. destruct H as [Hc Hs]. simpl. now rewrite Hc, (IH Hs).
Qed.

(** [(d + sep + n).split(sep) == d.split(sep) + n.split(sep)]. *)
Lemma split_sep_app (sep : ascii) (d n : string) :
  split sep (d +:+ String sep n) = split sep d ++ split sep n.
Proof.
  induction d as [|c d IH]; simpl.
  - now rewrite Ascii.eqb_refl.
  - destruct (Ascii.eqb c sep); [now rewrite IH|].
    rewrite IH. pose proof (split_nonempty sep d) as Hne.
    now destruct (split sep d).
Qed.

Lemma last_app_nonempty {A : Type} (l1 l2 : list A) (d : A) :
  l2 <> [] -> List.last (l1 ++ l2) d = List.last l2 d.
Proof.
  intros H. induction l1 as [|a l1 IH]; [reflexivity|].
  cbn [app]. rewrite <- IH. simpl.
  destruct (l1 ++ l2) eqn:E; [|reflexivity].
  apply app_eq_nil in E. now destruct E.
Qed.

Lemma path_name_bare (name : string) : lacks "/" name -> path_name name = name.
Proof. intros H. unfold path_name. now rewrite (split_lacks _ _ H). Qed.

Lemma path_name_in_directory (dir name : string) :
  lacks "/" name -> path_name (dir +:+ "/" +:+ name) = name.
Proof.
  intros H. unfold path_name.
  change (dir +:+ "/" +:+ name) with (dir +:+ String "/" name).
  rewrite split_sep_app, last_app_nonempty by apply split_nonempty.
  now rewrite (split_lacks _ _ H).
Qed.

Lemma first_segment_app (sep : ascii) (a t : string) :
  lacks sep a ->
  first_segment sep (a +:+ t) = a +:+ first_segment sep t.
Proof.
  unfold first_segment. induction a as [|c a IH]; intros H; [reflexivity|].
  apply lacks_cons in H. destruct H as [Hc Ha]. simpl. rewrite Hc.
  specialize (IH Ha). pose proof (split_nonempty sep (a +:+ t)) as Hne.
  destruct (split sep (a +:+ t)); [contradiction|]. simpl in *. now rewrite IH.
Qed.

Lemma item_first_segment (sep : ascii) (s : string) :
  item (split sep s) 0 = Return (first_segment sep s).
Proof.
  unfold first_segment. pose proof (split_nonempty sep s) as Hne.
  now destruct (split sep s).
Qed.

Lemma source_id_of_name (file name : string) :
  path_name file = name ->
  get_source_id_from_file_path file
  = item (split "_" (first_segment "." name)) 1.
Proof.
  intros <-. unfold get_source_id_from_file_path.
  now rewrite item_first_segment.
Qed.

(** The first dot-separated piece of what follows the source id is empty or
    starts with an underscore. *)
Lemma first_segment_name_tail (tail : string) :
  name_tail tail ->
  first_segment "." tail = "" \/
  exists t, first_segment "." tail = String "_" t.
Proof.
  destruct tail as [|c tail]; intros H; [now left|].
  destruct H as [-> | ->]; [right | now left].
  unfold first_segment. simpl.
  pose proof (split_nonempty "." tail) as Hne.
  destruct (split "." tail) as [|h t]; [contradiction|]. now exists h.
Qed.

Lemma second_token (prefix source_id tail : string) :
  lacks "." prefix -> lacks "_" prefix ->
  lacks "." source_id -> lacks "_" source_id -> name_tail tail ->
  item (split "_" (first_segment "." (prefix +:+ "_" +:+ source_id +:+ tail))) 1
  = Return source_id.
Proof.
  intros Hp1 Hp2 Hs1 Hs2 Ht.
  rewrite (first_segment_app "." prefix _ Hp1).
  change ("_" +:+ source_id +:+ tail) with (String "_" (source_id +:+ tail)).
  unfold first_segment at 1. cbn [split]. change (Ascii.eqb "_" ".") with false.
  cbv iota. fold (first_segment "." (source_id +:+ tail)).
  pose proof (split_nonempty "." (source_id +:+ tail)) as Hne.
  assert (E : hd "" (match split "." (source_id +:+ tail) with
                     | [] => ["_"]
                     | h :: t => String "_" h :: t
                     end)
              = String "_" (first_segment "." (source_id +:+ tail))).
  { unfold first_segment. now destruct (split "." (source_id +:+ tail)). }
  rewrite E, (first_segment_app "." source_id _ Hs1), split_sep_app.
  rewrite (split_lacks _ _ Hp2). cbn [app item nth_error].
  destruct (first_segment_name_tail tail Ht) as [-> | [t ->]].
  - now rewrite sapp_nil_r, (split_lacks _ _ Hs2).
  - now rewrite split_sep_app, (split_lacks _ _ Hs2).
Qed.

(** X1.  For a file named by the convention [TYPE_sourceid] followed by
    nothing, by [_date] or by an extension, where neither the type nor the
    source id contains a dot or an underscore, the source id returned is the
    second underscore-separated token of the name, whatever the directory
    of the file. *)
Theorem source_id_is_second_token_of_name
    (dir prefix source_id tail : string) :
  lacks "." prefix -> lacks "_" prefix ->
  lacks "." source_id -> lacks "_" source_id ->
  name_tail tail ->
  lacks "/" (prefix +:+ "_" +:+ source_id +:+ tail) ->
  get_source_id_from_file_path (prefix +:+ "_" +:+ source_id +:+ tail)
  = Return source_id /\
  get_source_id_from_file_path
    (dir +:+ "/" +:+ prefix +:+ "_" +:+ source_id +:+ tail)
  = Return source_id.
Proof.
  intros Hp1 Hp2 Hs1 Hs2 Ht Hn. split.
  - rewrite (source_id_of_name _ _ (path_name_bare _ Hn)). now apply second_token.
  - rewrite (source_id_of_name _ _ (path_name_in_directory dir _ Hn)).
    now apply second_token.
Qed.

Ltac lacks_char := unfold lacks; repeat constructor.

Lemma source_id_is_second_token_of_name_witness :
  get_source_id_from_file_path "COREREF_207_20201023.txt.bz2" = Return "207" /\
  get_source_id_from_file_path "/data/2020_10/COREREF_207_20201023.txt.bz2"
  = Return "207".
Proof.
  apply (source_id_is_second_token_of_name "/data/2020_10" "COREREF" "207"
           "_20201023.txt.bz2"); lacks_char.
Defined.

(** X2.  When the part of the file name before its first dot has no
    underscore, the extraction of the source id raises [IndexError]; in a
    batch, such a file stops the run with that exception once the files
    before it have been processed, whatever the dictionary and the files
    after it. *)
Theorem name_without_underscore_raises_IndexError
    (fs : filesystem) (d : gmap string (list string)) (file : path)
    (before after : list path) (per_file : list (list (string * string))) :
  lacks "_" (first_segment "." (path_name file)) ->
  get_source_id_from_file_path file = Raise IndexError /\
  process_coreref_file fs file d = Raise IndexError /\
  (Forall2 (fun f r => file_pairs fs d f = Return r) before per_file ->
   process_all_coreref_files fs (before ++ file :: after) d = Raise IndexError).
Proof.
  intros H.
  assert (Hid : get_source_id_from_file_path file = Raise IndexError).
  { rewrite (source_id_of_name file _ eq_refl), (split_lacks _ _ H).
    reflexivity. }
  split; [exact Hid|]. split.
  - unfold process_coreref_file. now rewrite Hid.
  - intros Hb. unfold process_all_coreref_files.
    rewrite gather_app, (gather_concat fs d before per_file [] Hb).
    cbn [bind gather]. now rewrite Hid.
Qed.

Lemma name_without_underscore_raises_IndexError_witness :
  get_source_id_from_file_path "data/COREREF.txt.bz2" = Raise IndexError /\
  process_all_coreref_files sample_fs
    [coreref_207; "data/COREREF.txt.bz2"; coreref_367] sample_dictionary
  = Raise IndexError.
Proof.
  destruct (name_without_underscore_raises_IndexError sample_fs sample_dictionary
              "data/COREREF.txt.bz2" [coreref_207] [coreref_367]
              [[("207", "F:FDAX\H21"); ("207", "F:FDAX\Z20")]])
    as (H1 & _ & H3).
  - vm_compute. repeat constructor.
  - split; [exact H1|]. apply H3.
    constructor; [vm_compute; reflexivity | constructor].
Defined.

(** ** Futures and forwards symbols without a maturity *)

Lemma startswith_F (s : string) :
  startswith s "F" = true ->
  create_specific_instrument_regex s
  = let* r := create_futures_regex s in Return (Some r).
Proof.
  destruct s as [|a s]; [discriminate|]. simpl. intros H.
  apply Ascii.eqb_eq in H. now subst a.
Qed.

Lemma startswith_R (s : string) :
  startswith s "R" = true ->
  create_specific_instrument_regex s
  = let* r := create_forwards_regex s in Return (Some r).
Proof.
  destruct s as [|a s]; [discriminate|]. simpl. intros H.
  apply Ascii.eqb_eq in H. now subst a.
Qed.

(** X3.  A futures or forwards symbol that neither ends with a star nor
    contains a backslash has one segment only: the dispatcher raises
    [IndexError] on it, and so does the builder of the symbol-level pattern
    for every list in which the symbols before it are accepted, whatever the
    symbols after it. *)
Theorem symbol_without_maturity_raises_IndexError
    (s : string) (pre post : list string) :
  (startswith s "F" || startswith s "R")%bool = true ->
  lacks backslash s -> endswith s star = false ->
  create_specific_instrument_regex s = Raise IndexError /\
  (returns (mapM create_specific_instrument_regex pre) = true ->
   create_instrument_level_pattern (pre ++ s :: post) = Raise IndexError).
Proof.
  intros Hfr Hb He.
  assert (Hs : create_specific_instrument_regex s = Raise IndexError).
  { apply orb_true_iff in Hfr. destruct Hfr as [Hf | Hr].
    - rewrite (startswith_F s Hf). unfold create_futures_regex.
      now rewrite He, (split_lacks _ _ Hb).
    - rewrite (startswith_R s Hr). unfold create_forwards_regex.
      now rewrite He, (split_lacks _ _ Hb). }
  split; [exact Hs|]. intros Hpre.
  unfold create_instrument_level_pattern. rewrite mapM_app.
  destruct (mapM create_specific_instrument_regex pre); [|discriminate Hpre].
  cbn [bind mapM]. now rewrite Hs.
Qed.

Lemma symbol_without_maturity_raises_IndexError_witness :
  create_specific_instrument_regex "F:FDAX" = Raise IndexError /\
  create_instrument_level_pattern ["F:FBTP\*"; "X:FOO"; "F:FDAX"; "F:FESX\*"]
  = Raise IndexError.
Proof.
  destruct (symbol_without_maturity_raises_IndexError "F:FDAX"
              ["F:FBTP\*"; "X:FOO"] ["F:FESX\*"]) as [H1 H2];
    [reflexivity | lacks_char | reflexivity |].
  split; [exact H1 | now apply H2].
Defined.

(** ** Greedy repetitions of one character *)

Lemma char_test_rmatch {X : Type} (r : re) (ok : ascii -> bool) (c : cursor)
    (k : cursor -> option X) :
  char_test r = Some ok -> rmatch r c k = one_char ok c k.
Proof. destruct r; try discriminate; now intros [= <-]. Qed.

Lemma read_nil (c : cursor) (s : string) : rest c = s -> read "" s c = c.
Proof. intros <-. now destruct c. Qed.

Lemma read_cons (a : ascii) (w t s : string) (c : cursor) :
  read w t (advance a s c) = read (String a w) t c.
Proof. unfold read, advance. simpl. now rewrite <- app_assoc. Qed.

Lemma span_ext (ok ok' : ascii -> bool) (n : nat) (s : string) :
  (forall a, ok a = ok' a) -> span ok n s = span ok' n s.
Proof.
  intros H. revert s. induction n as [|n IH]; intros s; [reflexivity|].
  destruct s as [|a s]; [reflexivity|]. simpl. now rewrite H, IH.
Qed.

Lemma span_app (ok : ascii -> bool) (n : nat) (s : string) :
  s = fst (span ok n s) +:+ snd (span ok n s).
Proof.
  revert s. induction n as [|n IH]; intros s; [reflexivity|].
  destruct s as [|a s]; [reflexivity|]. simpl.
  destruct (ok a); [|reflexivity].
  specialize (IH s). destruct (span ok n s) as [w t]. simpl in *. now f_equal.
Qed.

(** A greedy repetition of a one-character expression takes the longest run
    it can, provided that what follows either always matches or cannot start
    with a character of the run: giving characters back never helps. *)
Lemma rep_loop_greedy {X : Type} (r : re) (ok : ascii -> bool)
    (k : cursor -> option X) :
  char_test r = Some ok ->
  (forall c, k c <> None) \/
  (forall c a s, rest c = String a s -> ok a = true -> k c = None) ->
  forall (n lo : nat) (c : cursor),
    rep_loop (fun c' k' => rmatch r c' k') true k n lo c =
    let (w, t) := span ok n (rest c) in
    if Nat.leb lo (String.length w) then k (read w t c) else None.
Proof.
  intros Hr Hk. induction n as [|n IH]; intros lo c.
  - cbn [rep_loop span]. rewrite read_nil by reflexivity. now destruct lo.
  - cbn [rep_loop]. rewrite (char_test_rmatch r ok _ _ Hr). unfold one_char.
    destruct (rest c) as [|a s] eqn:E.
    + cbn [or_else span]. rewrite (read_nil c "" E). now destruct lo.
    + cbn [span]. destruct (ok a) eqn:Ea.
      * rewrite IH. cbn [advance rest].
        destruct (span ok n s) as [w t]. rewrite read_cons.
        destruct lo as [|lo].
        -- cbn [Nat.pred Nat.leb Nat.eqb String.length].
           destruct Hk as [Hk | Hk].
           ++ destruct (k (read (String a w) t c)) eqn:Ek; [reflexivity|].
              now apply Hk in Ek.
           ++ rewrite (Hk c a s E Ea). apply or_else_None_r.
        -- cbn [Nat.pred Nat.eqb String.length Nat.leb]. apply or_else_None_r.
      * cbn [or_else]. rewrite (read_nil c _ E). now destruct lo.
Qed.

Lemma rep_greedy {X : Type} (r : re) (ok : ascii -> bool) (lo n : nat)
    (k : cursor -> option X) (c : cursor) :
  char_test r = Some ok ->
  (forall c, k c <> None) \/
  (forall c a s, rest c = String a s -> ok a = true -> k c = None) ->
  rmatch (Rep r lo (Some n) true) c k =
  let (w, t) := span ok n (rest c) in
  if Nat.leb lo (String.length w) then k (read w t c) else None.
Proof. intros Hr Hk. cbn [rmatch rounds]. now apply rep_loop_greedy. Qed.


Lemma matched_text_read (w t : string) (c : cursor) :
  matched_text (read w t c) = matched_text c +:+ w.
Proof.
  unfold matched_text, read. cbn [taken].
  rewrite rev_app_distr, rev_involutive, sla_app.
  now rewrite string_of_list_ascii_of_string.
Qed.

Lemma matched_text_start (w : string) (p : option ascii) (s : string) :
  matched_text (Cursor p (rev (list_ascii_of_string w) ++ []) s) = w.
Proof.
  unfold matched_text. cbn [taken]. rewrite app_nil_r, rev_involutive.
  apply string_of_list_ascii_of_string.
Qed.

(** ** What the wildcard patterns extract *)

Lemma matched_text_advance (a : ascii) (s : string) (c : cursor) :
  matched_text (advance a s c) = matched_text c +:+ String a "".
Proof.
  unfold matched_text, advance. cbn [taken rev]. now rewrite sla_app.
Qed.

Lemma cls_upper_or_digit (c : ascii) :
  cls_matches false [CRange "A" "Z"; CRange "0" "9"] c = is_upper_or_digit c.
Proof.
  unfold cls_matches, is_upper_or_digit, is_upper, is_digit. simpl.
  now rewrite orb_false_r.
Qed.

Lemma cls_digit_or_dot (c : ascii) :
  cls_matches false [CRange "0" "9"; CChar "."] c = is_digit_or_dot c.
Proof.
  unfold cls_matches, is_digit_or_dot, is_digit. simpl. now rewrite orb_false_r.
Qed.

Lemma rmatch_Seq {X : Type} (r1 r2 : re) (c : cursor) (k : cursor -> option X) :
  rmatch (Seq r1 r2) c k = rmatch r1 c (fun c' => rmatch r2 c' k).
Proof. reflexivity. Qed.

Lemma match_at_futures_wildcard (root : string) (b : option ascii) (s : string) :
  match_at (futures_wildcard_re root) b s = futures_contract root s.
Proof.
  unfold match_at, futures_wildcard_re, futures_contract. cbn [rmatch].
  rewrite or_else_None_r, rmatch_chars. cbn [rest prev taken].
  destruct (strip (root +:+ "\") s) as [[|u s']|]; try reflexivity.
  cbn [seq_of fold_right].
  rewrite rmatch_Seq, (char_test_rmatch (Cls false [CRange "A" "Z"]) _ _ _ eq_refl).
  unfold one_char at 1. cbn [rest].
  rewrite cls_upper. fold (is_upper u).
  destruct (is_upper u); [|now destruct (span is_digit 4 s')].
  rewrite rmatch_Seq, (rep_greedy (Cls false [CRange "0" "9"]) _ 2 4 _ _ eq_refl)
    by (left; intros c; cbn; discriminate).
  cbn [advance rest]. rewrite (span_ext _ is_digit 4 s' cls_digit).
  destruct (span is_digit 4 s') as [ds t]. cbn [andb].
  destruct (Nat.leb 2 (String.length ds)); [|reflexivity].
  cbn [rmatch]. f_equal.
  rewrite matched_text_read.
  change (Cursor (Some u) _ s') with
    (advance u s' (Cursor (prev_after b (root +:+ "\"))
                     (rev (list_ascii_of_string (root +:+ "\")) ++ []) (String u s'))).
  rewrite matched_text_advance, matched_text_start, !sapp_assoc. reflexivity.
Qed.

Lemma match_at_map (r : re) (b : option ascii) (s : string) :
  match_at r b s = option_map matched_text (rmatch r (Cursor b [] s) Some).
Proof. unfold match_at. now destruct (rmatch r (Cursor b [] s) Some). Qed.


Lemma match_at_forwards_wildcard (root : string) (b : option ascii) (s : string) :
  match_at (forwards_wildcard_re root) b s = forwards_contract root s.
Proof.
  unfold match_at, forwards_wildcard_re, forwards_contract. cbn [rmatch].
  rewrite or_else_None_r, rmatch_chars. cbn [rest prev taken].
  destruct (strip (root +:+ "\") s) as [s'|]; [|reflexivity].
  cbn [seq_of fold_right].
  rewrite rmatch_Seq,
    (rep_greedy (Cls false [CRange "A" "Z"; CRange "0" "9"]) _ 2 4 _ _ eq_refl)
    by (left; intros c; cbn; discriminate).
  cbn [rest]. rewrite (span_ext _ is_upper_or_digit 4 s' cls_upper_or_digit).
  destruct (span is_upper_or_digit 4 s') as [m t].
  destruct (Nat.leb 2 (String.length m)); [|reflexivity].
  cbn [rmatch]. f_equal.
  now rewrite matched_text_read, matched_text_start, !sapp_assoc.
Qed.

Lemma digit_not_backslash (a : ascii) :
  cls_matches false [CRange "0" "9"] a = true -> Ascii.eqb "\" a = false.
Proof.
  intros H. destruct (Ascii.eqb_spec "\" a) as [<-|]; [discriminate H | reflexivity].
Qed.

(** The strike part of an options pattern. *)
Lemma strike_matched (c : cursor) :
  option_map matched_text (rmatch (seq_of strike_re) c Some)
  = option_map (fun k => matched_text c +:+ k) (strike (rest c)).
Proof.
  unfold strike_re, strike. cbn [seq_of fold_right].
  rewrite rmatch_Seq, (char_test_rmatch (Chr "\") _ _ _ eq_refl).
  unfold one_char. destruct (rest c) as [|b0 s']; [reflexivity|].
  rewrite (Ascii.eqb_sym b0 "\").
  destruct (Ascii.eqb "\" b0); [|now destruct (span is_digit_or_dot 10 s')].
  rewrite rmatch_Seq,
    (rep_greedy (Cls false [CRange "0" "9"; CChar "."]) _ 1 10 _ _ eq_refl)
    by (left; intros c'; cbn; discriminate).
  cbn [advance rest]. rewrite (span_ext _ is_digit_or_dot 10 s' cls_digit_or_dot).
  destruct (span is_digit_or_dot 10 s') as [k t]. cbn [andb].
  destruct (Nat.leb 1 (String.length k)); [|reflexivity].
  cbn [rmatch option_map]. f_equal.
  change (Cursor (Some b0) (b0 :: taken c) s') with (advance b0 s' c).
  now rewrite matched_text_read, matched_text_advance, sapp_assoc.
Qed.

Lemma strike_blocked (c : cursor) (a : ascii) (s : string) :
  rest c = String a s -> cls_matches false [CRange "0" "9"] a = true ->
  rmatch (seq_of strike_re) c Some = None.
Proof.
  intros E Ha. unfold strike_re. cbn [seq_of fold_right].
  rewrite rmatch_Seq, (char_test_rmatch (Chr "\") _ _ _ eq_refl).
  unfold one_char. now rewrite E, (digit_not_backslash a Ha).
Qed.

Lemma match_at_options_wildcard (root : string) (b : option ascii) (s : string) :
  match_at (options_wildcard_re root) b s = options_contract root s.
Proof.
  rewrite match_at_map. unfold options_wildcard_re, options_contract. cbn [rmatch].
  rewrite or_else_None_r, rmatch_chars. cbn [rest prev taken].
  destruct (strip (root +:+ "\") s) as [[|u s']|]; try reflexivity.
  cbn [app]. change (seq_of (?a :: ?b :: strike_re))
    with (Seq a (Seq b (seq_of strike_re))).
  rewrite rmatch_Seq, (char_test_rmatch (Cls false [CRange "A" "Z"]) _ _ _ eq_refl).
  unfold one_char at 1. cbn [rest].
  rewrite cls_upper. fold (is_upper u).
  destruct (is_upper u); [|now destruct (span is_digit 4 s')].
  rewrite rmatch_Seq, (rep_greedy (Cls false [CRange "0" "9"]) _ 2 4 _ _ eq_refl)
    by (right; apply strike_blocked).
  cbn [advance rest]. rewrite (span_ext _ is_digit 4 s' cls_digit).
  destruct (span is_digit 4 s') as [ds t]. cbn [andb].
  destruct (Nat.leb 2 (String.length ds)); [|reflexivity].
  rewrite strike_matched. cbn [read rest].
  destruct (strike t) as [k|]; [|reflexivity]. cbn [option_map]. f_equal.
  change (Cursor (prev_after (Some u) ds) _ t) with
    (read ds t (advance u s' (Cursor (prev_after b (root +:+ "\"))
                     (rev (list_ascii_of_string (root +:+ "\")) ++ []) (String u s')))).
  rewrite matched_text_read, matched_text_advance, matched_text_start, !sapp_assoc.
  reflexivity.
Qed.

Lemma match_at_options_strike (root maturity : string) (b : option ascii)
    (s : string) :
  match_at (options_strike_re root maturity) b s = options_strike root maturity s.
Proof.
  rewrite match_at_map. unfold options_strike_re, options_strike. cbn [rmatch].
  rewrite or_else_None_r, rmatch_chars. cbn [rest prev taken].
  destruct (strip (root +:+ "\" +:+ maturity) s) as [after|]; [|reflexivity].
  rewrite strike_matched. cbn [rest].
  destruct (strike after) as [k|]; [|reflexivity]. cbn [option_map].
  now rewrite matched_text_start, !sapp_assoc.
Qed.






(** ** The patterns of the wildcard symbols *)

Lemma search_find_first (r : re) (f : option ascii -> string -> option string) :
  (forall b s, match_at r b s = f b s) ->
  forall line, search r line = find_first f None line.
Proof.
  intros H line. unfold search. generalize (@None ascii).
  induction line as [|a line IH]; intros b; cbn [search_from find_first];
    rewrite H; destruct (f b _); try reflexivity. apply IH.
Qed.

Lemma re_search_find_first (p : string) (r : re)
    (f : option ascii -> string -> option string) (line : string) :
  re_compile p = Return r -> (forall b s, match_at r b s = f b s) ->
  re_search p line = Return (find_first f None line).
Proof.
  intros Hp Hf. rewrite (re_search_compiled p r line Hp).
  now rewrite (search_find_first r f Hf).
Qed.

Lemma compile_forwards_wildcard (root : string) :
  plain root ->
  create_forwards_regex (root +:+ "\*") = Return (root +:+ "\\[A-Z0-9]{2,4}") /\
  re_compile (root +:+ "\\[A-Z0-9]{2,4}") = Return (forwards_wildcard_re root).
Proof.
  intros Hr. split.
  - unfold create_forwards_regex. rewrite endswith_wildcard.
    change (root +:+ "\*") with (root +:+ "\" +:+ "*").
    now rewrite (split_after_plain root "*" Hr).
  - unfold re_compile, init. rewrite run_app, (run_plain _ Hr).
    match goal with
    | |- finish (run _ (PS MNormal ?cur [])) = _ =>
        change (finish (run "\\[A-Z0-9]{2,4}" (PS MNormal cur [])))
          with (Return (alt_of [seq_of (rev
                  (Rep (Cls false [CRange "A" "Z"; CRange "0" "9"]) 2 (Some 4) true
                   :: Chr "\" :: cur))]))
    end.
    unfold forwards_wildcard_re, alt_of. simpl fold_right. do 2 f_equal.
    cbn [rev]. rewrite rev_app_distr, rev_involutive. simpl.
    unfold chars. rewrite las_app, map_app. simpl.
    now rewrite <- !app_assoc.
Qed.

Lemma compile_options_wildcard (root : string) :
  plain root ->
  create_options_regex (root +:+ "\*")
  = Return (Some (root +:+ "\\[A-Z][0-9]{2,4}\\[0-9.]{1,10}")) /\
  re_compile (root +:+ "\\[A-Z][0-9]{2,4}\\[0-9.]{1,10}")
  = Return (options_wildcard_re root).
Proof.
  intros Hr. split.
  - unfold create_options_regex. rewrite endswith_wildcard.
    change (root +:+ "\*") with (root +:+ "\" +:+ "*").
    now rewrite (split_after_plain root "*" Hr).
  - unfold re_compile, init. rewrite run_app, (run_plain _ Hr).
    match goal with
    | |- finish (run _ (PS MNormal ?cur [])) = _ =>
        change (finish (run "\\[A-Z][0-9]{2,4}\\[0-9.]{1,10}" (PS MNormal cur [])))
          with (Return (alt_of [seq_of (rev
                  (Rep (Cls false [CRange "0" "9"; CChar "."]) 1 (Some 10) true
                   :: Chr "\"
                   :: Rep (Cls false [CRange "0" "9"]) 2 (Some 4) true
                   :: Cls false [CRange "A" "Z"] :: Chr "\" :: cur))]))
    end.
    unfold options_wildcard_re, strike_re, alt_of. simpl fold_right. do 2 f_equal.
    cbn [rev]. rewrite rev_app_distr, rev_involutive. simpl.
    unfold chars. rewrite las_app, map_app. simpl.
    now rewrite <- !app_assoc.
Qed.

Lemma endswith_wildcard_segments (a b : string) :
  endswith (a +:+ "\" +:+ b +:+ "\*") star = true.
Proof.
  rewrite <- !sapp_assoc. apply endswith_wildcard.
Qed.

Lemma compile_options_strike (root maturity : string) :
  plain root -> plain maturity ->
  create_options_regex (root +:+ "\" +:+ maturity +:+ "\*")
  = Return (Some (root +:+ "\\" +:+ maturity +:+ "\\[0-9.]{1,10}")) /\
  re_compile (root +:+ "\\" +:+ maturity +:+ "\\[0-9.]{1,10}")
  = Return (options_strike_re root maturity).
Proof.
  intros Hr Hm. split.
  - unfold create_options_regex. rewrite endswith_wildcard_segments.
    change (maturity +:+ "\*") with (maturity +:+ "\" +:+ "*").
    now rewrite (split_after_plain root _ Hr), (split_after_plain maturity "*" Hm).
  - unfold re_compile, init.
    rewrite run_app, (run_plain _ Hr), run_app.
    change (run "\\" (PS MNormal ?cur [])) with (PS MNormal (Chr "\" :: cur) []).
    rewrite run_app, (run_plain _ Hm).
    match goal with
    | |- finish (run _ (PS MNormal ?cur [])) = _ =>
        change (finish (run "\\[0-9.]{1,10}" (PS MNormal cur [])))
          with (Return (alt_of [seq_of (rev
                  (Rep (Cls false [CRange "0" "9"; CChar "."]) 1 (Some 10) true
                   :: Chr "\" :: cur))]))
    end.
    unfold options_strike_re, strike_re, alt_of. simpl fold_right. do 2 f_equal.
    cbn [rev]. rewrite !rev_app_distr. cbn [rev]. rewrite !rev_app_distr, !rev_involutive.
    simpl. unfold chars. rewrite !las_app, !map_app. simpl.
    now rewrite <- !app_assoc.
Qed.



(** X4.  For a root without special characters, the pattern of the wildcard
    futures symbol [root\*] finds in a line the first place where the root
    and a backslash are followed by one upper-case letter and at least two
    digits, and the text it gives is the root, the backslash, the letter and
    the digits that follow, up to four of them: a fifth digit is left out. *)
Theorem futures_wildcard_finds_first_contract (root : string) :
  plain root ->
  exists p,
    create_futures_regex (root +:+ "\*") = Return p /\
    forall line,
      re_search p line
      = Return (find_first (fun _ => futures_contract root) None line).
Proof.
  intros Hr. destruct (compile_futures_wildcard root Hr) as [Hp Hc].
  eexists. split; [exact Hp|]. intros line.
  apply re_search_find_first with (futures_wildcard_re root); [exact Hc|].
  apply match_at_futures_wildcard.
Qed.

Lemma futures_wildcard_finds_first_contract_witness :
  exists p,
    create_futures_regex "F:FDAX\*" = Return p /\
    re_search p "DC|207|F:FDAX\H20215|F:FDAX\M21|EUR" = Return (Some "F:FDAX\H2021") /\
    re_search p "DC|207|F:FDAX\h21|F:FDAX\M2|EUR" = Return None.
Proof.
  destruct (futures_wildcard_finds_first_contract "F:FDAX") as (p & Hp & Hs).
  - unfold plain. repeat constructor.
  - exists p. split; [exact Hp|]. split; rewrite Hs; reflexivity.
Defined.

(** X5.  For a root without special characters, the pattern of the wildcard
    forwards symbol [root\*] finds the first place where the root and a
    backslash are followed by at least two characters that are upper-case
    letters or digits, and gives the root, the backslash and up to four of
    these characters; unlike the futures pattern it asks for no leading
    letter. *)
Theorem forwards_wildcard_finds_first_contract (root : string) :
  plain root ->
  exists p,
    create_forwards_regex (root +:+ "\*") = Return p /\
    forall line,
      re_search p line
      = Return (find_first (fun _ => forwards_contract root) None line).
Proof.
  intros Hr. destruct (compile_forwards_wildcard root Hr) as [Hp Hc].
  eexists. split; [exact Hp|]. intros line.
  apply re_search_find_first with (forwards_wildcard_re root); [exact Hc|].
  apply match_at_forwards_wildcard.
Qed.

Lemma forwards_wildcard_finds_first_contract_witness :
  exists p,
    create_forwards_regex "R2:GAS\*" = Return p /\
    re_search p "DC|1041|R2:GAS\5D|GBP" = Return (Some "R2:GAS\5D") /\
    re_search p "DC|1041|R2:GAS\D|GBP" = Return None.
Proof.
  destruct (forwards_wildcard_finds_first_contract "R2:GAS") as (p & Hp & Hs).
  - unfold plain. repeat constructor.
  - exists p. split; [exact Hp|]. split; rewrite Hs; reflexivity.
Defined.

(** X6.  For a root and a maturity without special characters, the pattern
    of the options symbol [root\*] finds the first place where the root is
    followed by a backslash, a maturity (one upper-case letter and two to
    four digits), a backslash and a strike (one to ten digits and dots), and
    the pattern of [root\maturity\*] the first place where
    [root\maturity] is followed by a backslash and a strike; the text given
    ends with the strike. *)
Theorem options_wildcard_finds_first_contract (root maturity : string) :
  plain root ->
  (exists p,
     create_options_regex (root +:+ "\*") = Return (Some p) /\
     forall line,
       re_search p line
       = Return (find_first (fun _ => options_contract root) None line)) /\
  (plain maturity ->
   exists p,
     create_options_regex (root +:+ "\" +:+ maturity +:+ "\*") = Return (Some p) /\
     forall line,
       re_search p line
       = Return (find_first (fun _ => options_strike root maturity) None line)).
Proof.
  intros Hr. split.
  - destruct (compile_options_wildcard root Hr) as [Hp Hc].
    eexists. split; [exact Hp|]. intros line.
    apply re_search_find_first with (options_wildcard_re root); [exact Hc|].
    apply match_at_options_wildcard.
  - intros Hm. destruct (compile_options_strike root maturity Hr Hm) as [Hp Hc].
    eexists. split; [exact Hp|]. intros line.
    apply re_search_find_first with (options_strike_re root maturity); [exact Hc|].
    apply match_at_options_strike.
Qed.

Lemma options_wildcard_finds_first_contract_witness :
  (exists p,
     create_options_regex "O:PRY\*" = Return (Some p) /\
     re_search p "DC|680|O:PRY\A21\17.5|EUR" = Return (Some "O:PRY\A21\17.5")) /\
  (exists p,
     create_options_regex "O:PRY\A21\*" = Return (Some p) /\
     re_search p "DC|680|O:PRY\A21\17.5|EUR" = Return (Some "O:PRY\A21\17.5") /\
     re_search p "DC|680|O:PRY\B21\17.5|EUR" = Return None).
Proof.
  destruct (options_wildcard_finds_first_contract "O:PRY" "A21") as [H2 H3].
  - unfold plain. repeat constructor.
  - split.
    + destruct H2 as (p & Hp & Hs). exists p. split; [exact Hp|].
      rewrite Hs. reflexivity.
    + destruct H3 as (p & Hp & Hs); [unfold plain; repeat constructor|].
      exists p. split; [exact Hp|]. split; rewrite Hs; reflexivity.
Defined.





(** ** A source with an empty list of symbols *)






(** ** Sources that are not listed *)

Lemma process_coreref_file_same_file (fs fs' : filesystem) (file : path)
    (d : gmap string (list string)) :
  fs' file = fs file ->
  process_coreref_file fs' file d = process_coreref_file fs file d.
Proof.
  intros H. unfold process_coreref_file, retrieve_source_symbol_pairs.
  now rewrite H.
Qed.

Lemma gather_same_pairs (fs fs' : filesystem) (d : gmap string (list string))
    (files : list path) :
  (forall p, In p files -> file_pairs fs' d p = file_pairs fs d p) ->
  forall acc, gather fs' files d acc = gather fs files d acc.
Proof.
  induction files as [|f files IH]; intros H acc; [reflexivity|].
  cbn [gather]. pose proof (H f (or_introl eq_refl)) as Hf.
  unfold file_pairs in Hf.
  assert (Hrest : forall p, In p files -> file_pairs fs' d p = file_pairs fs d p).
  { intros p Hp. apply H. now right. }
  destruct (get_source_id_from_file_path f) as [sid|e]; cbn [bind] in *;
    [|reflexivity].
  destruct (negb (in_keys sid d)); [now apply IH|].
  rewrite Hf. destruct (process_coreref_file fs f d); cbn [bind];
    [now apply IH | reflexivity].
Qed.

(** X10.  A reference file whose source id is not a key of the dictionary is
    passed over by the batch without being read: the result is the one of
    the batch without that file, on any file system that differs at that
    file only.  Processed on its own the same file raises [TypeError], the
    list of its symbols being [None]. *)
Theorem unlisted_source_is_skipped_unread
    (fs fs' : filesystem) (d : gmap string (list string)) (file : path)
    (source_id : string) (before after : list path) :
  get_source_id_from_file_path file = Return source_id ->
  d !! source_id = None ->
  (forall p, p <> file -> fs' p = fs p) ->
  process_all_coreref_files fs (before ++ file :: after) d
  = process_all_coreref_files fs' (before ++ after) d /\
  process_coreref_file fs file d = Raise TypeError.
Proof.
  intros Hid Hd Hfs. split.
  - unfold process_all_coreref_files. f_equal.
    rewrite !gather_app.
    assert (Hsame : forall files acc,
              gather fs' files d acc = gather fs files d acc).
    { intros files acc. apply gather_same_pairs. intros p _.
      destruct (string_dec p file) as [-> | Hne].
      - unfold file_pairs. rewrite Hid. cbn [bind]. unfold in_keys.
        now rewrite Hd.
      - unfold file_pairs. now rewrite (process_coreref_file_same_file fs fs' p d (Hfs p Hne)). }
    rewrite !Hsame. destruct (gather fs before d []); cbn [bind]; [|reflexivity].
    cbn [gather]. rewrite Hid. cbn [bind]. unfold in_keys. now rewrite Hd.
  - unfold process_coreref_file, retrieve_instruments.
    rewrite Hid. cbn [bind]. now rewrite Hd.
Qed.

Lemma unlisted_source_is_skipped_unread_witness :
  process_all_coreref_files sample_fs
    [coreref_207; "data/COREREF_999_20201023.txt.bz2"; coreref_367]
    sample_dictionary
  = process_all_coreref_files sample_fs [coreref_207; coreref_367]
      sample_dictionary /\
  process_coreref_file sample_fs "data/COREREF_999_20201023.txt.bz2"
    sample_dictionary = Raise TypeError.
Proof.
  apply (unlisted_source_is_skipped_unread sample_fs sample_fs sample_dictionary
           "data/COREREF_999_20201023.txt.bz2" "999" [coreref_207] [coreref_367]);
    reflexivity.
Defined.

(** ** Discoveries that are already in order *)

Lemma le_ltb_false (x y : string) : String.le x y -> String.ltb y x = false.
Proof.
  unfold String.le, String.leb, String.ltb. rewrite (String.compare_antisym y x).
  destruct (String.compare x y); simpl; intros H; try reflexivity; destruct H.
Qed.

Lemma insert_by_key_front (x : string * string) (l : list (string * string)) :
  Forall (key_le x) l -> insert_by_key x l = x :: l.
Proof.
  destruct l as [|y l]; [reflexivity|]. intros H. inversion H; subst.
  cbn [insert_by_key]. now rewrite le_ltb_false.
Qed.

Lemma sort_by_key_sorted_input (l : list (string * string)) :
  StronglySorted key_le l -> sort_by_key l = l.
Proof.
  induction 1 as [|x l Hs IH Hx]; [reflexivity|].
  cbn [sort_by_key fold_right]. fold (sort_by_key l).
  now rewrite IH, insert_by_key_front.
Qed.

(** X11.  When the pairs found, taken file after file in the order of the
    list, are already in ascending order of source id, the batch returns
    them unchanged; and sorting the result of a batch once more changes
    nothing. *)
Theorem discoveries_in_order_are_returned_unchanged
    (fs : filesystem) (d : gmap string (list string))
    (files : list path) (per_file : list (list (string * string))) :
  Forall2 (fun f r => file_pairs fs d f = Return r) files per_file ->
  (StronglySorted key_le (concat per_file) ->
   process_all_coreref_files fs files d = Return (concat per_file)) /\
  (forall result,
     process_all_coreref_files fs files d = Return result ->
     sort_by_key result = result).
Proof.
  intros H. unfold process_all_coreref_files.
  rewrite (gather_concat fs d files per_file [] H). cbn [bind app]. split.
  - intros Hs. now rewrite sort_by_key_sorted_input.
  - intros result [= <-]. apply sort_by_key_sorted_input, sort_by_key_sorted.
Qed.

Lemma discoveries_in_order_are_returned_unchanged_witness :
  process_all_coreref_files sample_fs [coreref_207; coreref_367] sample_dictionary
  = Return [("207", "F:FDAX\H21"); ("207", "F:FDAX\Z20");
            ("367", "F2:ZN\M21"); ("367", "F2:ZB\H21")].
Proof.
  apply (proj1 (discoveries_in_order_are_returned_unchanged sample_fs
                  sample_dictionary [coreref_207; coreref_367]
                  [[("207", "F:FDAX\H21"); ("207", "F:FDAX\Z20")];
                   [("367", "F2:ZN\M21"); ("367", "F2:ZB\H21")]]
                  ltac:(repeat (constructor; [vm_compute; reflexivity|]);
                        constructor))).
  repeat match goal with
         | |- StronglySorted _ _ => constructor
         | |- Forall _ _ => constructor
         | |- key_le _ _ => vm_compute; exact I
         end.
Defined.

(** ** Files without a selected line *)

Lemma scan_lines_none (file : path) (mp ip : string) (mr : re)
    (infile : list string) (acc : list (string * string)) :
  re_compile mp = Return mr ->
  (forall line, In line infile -> search mr line = None) ->
  scan_lines file mp ip infile acc = Return acc.
Proof.
  intros Hmp. induction infile as [|line infile IH]; intros H; [reflexivity|].
  cbn [scan_lines]. rewrite (re_search_compiled mp mr line Hmp). cbn [bind].
  rewrite (H line (or_introl eq_refl)). apply IH. intros l Hl. apply H. now right.
Qed.

(** X12.  A file that is read to its end and in which the message-level
    pattern selects no line gives the empty list: the symbol-level pattern
    is not used and the source id of the file name is not asked for.  For a
    file without lines this holds for any two texts as patterns, since a
    pattern is compiled only when a line is searched. *)
Theorem no_selected_line_gives_no_pair
    (fs : filesystem) (file : path) (mp ip : string) :
  failure (fs file) = None ->
  lines (fs file) = [] \/
  (exists mr, re_compile mp = Return mr /\
              forall line, In line (lines (fs file)) -> search mr line = None) ->
  retrieve_source_symbol_pairs fs file mp ip = Return [].
Proof.
  intros Hf H. unfold retrieve_source_symbol_pairs, read_file.
  assert (Hscan : scan_lines file mp ip (lines (fs file)) [] = Return []).
  { destruct H as [-> | (mr & Hmp & Hnone)]; [reflexivity|].
    now apply scan_lines_none with mr. }
  rewrite Hscan. cbn [bind]. now rewrite Hf.
Qed.

Lemma no_selected_line_gives_no_pair_witness :
  retrieve_source_symbol_pairs sample_fs coreref_367
    "^DC\|367\|(F2:ES\\[A-Z][0-9]{2,4})" "(unbalanced"
  = Return [].
Proof.
  apply (no_selected_line_gives_no_pair sample_fs coreref_367); [reflexivity|].
  right. eexists. split; [reflexivity|].
  intros line [<- | [<- | []]]; reflexivity.
Defined.

(** ** Where the pairs of a batch come from *)

Lemma re_search_occurs (p line t : string) :
  re_search p line = Return (Some t) -> occurs_in t line.
Proof.
  unfold re_search. destruct (re_compile p) as [r|e]; cbn [bind]; [|discriminate].
  intros [= H]. apply search_first_match in H.
  destruct H as (pre & post & -> & _). now exists pre, post.
Qed.

Lemma scan_lines_provenance (file : path) (mp ip : string) (infile : list string) :
  forall acc out,
    scan_lines file mp ip infile acc = Return out ->
    forall pair, In pair out ->
      In pair acc \/
      (get_source_id_from_file_path file = Return (fst pair) /\
       exists line, In line infile /\ occurs_in (snd pair) line).
Proof.
  induction infile as [|line infile IH]; intros acc out H pair Hin;
    cbn [scan_lines] in H.
  - injection H as <-. now left.
  - destruct (re_search mp line) as [[t0|]|e] eqn:Em; cbn [bind] in H;
      [| |discriminate].
    + destruct (get_source_id_from_file_path file) as [sid|e] eqn:Hid;
        cbn [bind] in H; [|discriminate].
      destruct (re_search ip line) as [[symbol|]|e] eqn:Ei; cbn [bind] in H;
        try discriminate.
      destruct (IH _ _ H pair Hin) as [Hacc | (Hp & l & Hl & Hocc)].
      * apply in_app_or in Hacc. destruct Hacc as [Hacc | [<- | []]];
          [now left|]. right. split; [reflexivity|].
        exists line. split; [now left | now apply re_search_occurs with ip].
      * right. split; [exact Hp|]. exists l. split; [now right | exact Hocc].
    + destruct (IH _ _ H pair Hin) as [Hacc | (Hp & l & Hl & Hocc)];
        [now left|].
      right. split; [exact Hp|]. exists l. split; [now right | exact Hocc].
Qed.

Lemma process_coreref_file_provenance (fs : filesystem) (file : path)
    (d : gmap string (list string)) (out : list (string * string)) :
  process_coreref_file fs file d = Return out ->
  forall pair, In pair out ->
    get_source_id_from_file_path file = Return (fst pair) /\
    in_keys (fst pair) d = true /\
    exists line, In line (lines (fs file)) /\ occurs_in (snd pair) line.
Proof.
  unfold process_coreref_file, retrieve_instruments. intros H pair Hin.
  destruct (get_source_id_from_file_path file) as [sid|e] eqn:Hid;
    cbn [bind] in H; [|discriminate].
  destruct (d !! sid) as [symbols|] eqn:Hd; cbn [iterate bind] in H; [|discriminate].
  destruct (create_dc_message_level_pattern sid symbols) as [mp|e];
    cbn [bind] in H; [|discriminate].
  destruct (create_instrument_level_pattern symbols) as [ip|e];
    cbn [bind] in H; [|discriminate].
  unfold retrieve_source_symbol_pairs, read_file in H.
  destruct (scan_lines file mp ip (lines (fs file)) []) as [found|e] eqn:Hscan;
    cbn [bind] in H.
  - destruct (failure (fs file)) as [e|].
    + destruct (is_OSError e); discriminate H.
    + injection H as <-.
      destruct (scan_lines_provenance _ _ _ _ _ _ Hscan pair Hin)
        as [[] | (Hp & l & Hl & Hocc)].
      rewrite Hid in Hp. injection Hp as Hp. subst sid.
      split; [reflexivity|]. split; [unfold in_keys; now rewrite Hd|].
      now exists l.
  - destruct (is_OSError e); discriminate H.
Qed.

Lemma gather_provenance (fs : filesystem) (d : gmap string (list string))
    (files : list path) :
  forall acc out,
    gather fs files d acc = Return out ->
    forall pair, In pair out ->
      In pair acc \/
      exists file line,
        In file files /\
        get_source_id_from_file_path file = Return (fst pair) /\
        in_keys (fst pair) d = true /\
        In line (lines (fs file)) /\ occurs_in (snd pair) line.
Proof.
  induction files as [|f files IH]; intros acc out H pair Hin; cbn [gather] in H.
  - injection H as <-. now left.
  - destruct (get_source_id_from_file_path f) as [sid|e] eqn:Hid;
      cbn [bind] in H; [|discriminate].
    assert (Hlater : forall acc', gather fs files d acc' = Return out ->
              In pair acc' \/
              exists file line,
                In file (f :: files) /\
                get_source_id_from_file_path file = Return (fst pair) /\
                in_keys (fst pair) d = true /\
                In line (lines (fs file)) /\ occurs_in (snd pair) line).
    { intros acc' H'.
      destruct (IH _ _ H' pair Hin) as [Hacc | (file & l & Hf & Hrest)];
        [now left|].
      right. exists file, l. split; [now right | exact Hrest]. }
    destruct (negb (in_keys sid d)); [now apply Hlater|].
    destruct (process_coreref_file fs f d) as [found|e] eqn:Hp;
      cbn [bind] in H; [|discriminate].
    destruct (Hlater _ H) as [Hacc | Hex]; [|now right].
    apply in_app_or in Hacc. destruct Hacc as [Hacc | Hfound]; [now left|].
    right. destruct (process_coreref_file_provenance fs f d found Hp pair Hfound)
      as (H1 & H2 & l & Hl & Hocc).
    exists f, l. split; [now left|]. now repeat split.
Qed.

(** X13.  Every pair that a batch returns comes from one of the listed
    files: its source id is the one of the name of that file and is a key of
    the dictionary, and its symbol is a piece of text of one of the lines of
    that file.  The batch never returns a source id or a symbol of its own
    making. *)
Theorem every_pair_comes_from_a_listed_file
    (fs : filesystem) (d : gmap string (list string)) (files : list path)
    (result : list (string * string)) :
  process_all_coreref_files fs files d = Return result ->
  forall source_id symbol, In (source_id, symbol) result ->
    exists file line,
      In file files /\
      get_source_id_from_file_path file = Return source_id /\
      in_keys source_id d = true /\
      In line (lines (fs file)) /\ occurs_in symbol line.
Proof.
  unfold process_all_coreref_files. intros H source_id symbol Hin.
  destruct (gather fs files d []) as [found|e] eqn:Hg; cbn [bind] in H;
    [|discriminate].
  injection H as <-.
  assert (Hfound : In (source_id, symbol) found).
  { eapply Permutation_in; [|exact Hin]. symmetry. apply sort_by_key_perm. }
  destruct (gather_provenance fs d files [] found Hg _ Hfound) as [[] | Hex].
  exact Hex.
Qed.

Lemma every_pair_comes_from_a_listed_file_witness :
  exists file line,
    In file [coreref_367; coreref_207] /\
    get_source_id_from_file_path file = Return "207" /\
    in_keys "207" sample_dictionary = true /\
    In line (lines (sample_fs file)) /\ occurs_in "F:FDAX\Z20" line.
Proof.
  apply (every_pair_comes_from_a_listed_file sample_fs sample_dictionary
           [coreref_367; coreref_207]
           [("207", "F:FDAX\H21"); ("207", "F:FDAX\Z20");
            ("367", "F2:ZN\M21"); ("367", "F2:ZB\H21")]).
  - vm_compute. reflexivity.
  - right. now left.
Defined.

(** ** The combination of several patterns *)

Lemma match_at_alt_of_app (l1 l2 : list re) (b : option ascii) (s : string) :
  match_at (alt_of (l1 ++ l2)) b s
  = or_else (match_at (alt_of l1) b s) (match_at (alt_of l2) b s).
Proof.
  unfold match_at. rewrite rmatch_alt_of_app.
  now destruct (rmatch (alt_of l1) (Cursor b [] s) Some).
Qed.

Lemma match_at_alt_concat (bss : list (list re)) (b : option ascii) (s : string) :
  match_at (alt_of (concat bss)) b s
  = first_of (map (fun r => match_at r b s) (map alt_of bss)).
Proof.
  induction bss as [|bs bss IH]; [reflexivity|].
  cbn [concat map]. now rewrite match_at_alt_of_app, IH.
Qed.

Lemma compile_join (regexes : list string) (bss : list (list re)) :
  regexes <> [] -> Forall2 branches regexes bss ->
  re_compile (join "|" regexes) = Return (alt_of (concat bss)).
Proof.
  intros Hne Hb. apply branches_compiled.
  exact (run_join regexes bss Hb Hne MNormal [] [] (or_introl eq_refl)).
Qed.

(** X14.  For a non-empty list of patterns that each compile on their own,
    [combine_multiple_regexes] returns a compiled pattern whose text is the
    patterns joined with [|]; at every position it gives the match of the
    first pattern of the list, in the order of the list, that matches
    there, and in a line the match found at the first position where one of
    them matches. *)
Theorem combined_pattern_tries_patterns_in_order
    (regexes : list string) (rs : list re) :
  regexes <> [] ->
  Forall2 pattern_re regexes rs ->
  exists r,
    combine_multiple_regexes regexes = Return (MkPattern (join "|" regexes) r) /\
    (forall before s,
       match_at r before s = first_of (map (fun ri => match_at ri before s) rs)) /\
    (forall line,
       search r line
       = find_first (fun b s => first_of (map (fun ri => match_at ri b s) rs))
           None line).
Proof.
  intros Hne Hre.
  destruct (compiled_all_branches regexes rs Hre) as (bss & Hb & ->).
  exists (alt_of (concat bss)).
  split; [|split].
  - unfold combine_multiple_regexes. now rewrite (compile_join regexes bss Hne Hb).
  - intros before s. apply match_at_alt_concat.
  - intros line. apply search_find_first. intros b s. apply match_at_alt_concat.
Qed.

Lemma combined_pattern_tries_patterns_in_order_witness :
  exists r,
    combine_multiple_regexes ["F2:ES\\[A-Z][0-9]{2,4}"; "F2:NQ\\[A-Z][0-9]{2,4}"]
    = Return (MkPattern "F2:ES\\[A-Z][0-9]{2,4}|F2:NQ\\[A-Z][0-9]{2,4}" r) /\
    search r "DC|673|F2:NQ\H21|F2:ES\M21" = Some "F2:NQ\H21".
Proof.
  destruct (combined_pattern_tries_patterns_in_order
              ["F2:ES\\[A-Z][0-9]{2,4}"; "F2:NQ\\[A-Z][0-9]{2,4}"]
              [futures_wildcard_re "F2:ES"; futures_wildcard_re "F2:NQ"])
    as (r & Hr & _ & Hs).
  - discriminate.
  - repeat (constructor; [reflexivity|]). constructor.
  - exists r. split; [exact Hr|]. rewrite Hs. reflexivity.
Defined.

(** ** The configuration file *)

Lemma written_text (render : string * string -> string)
    (pairs : list (string * string)) (text : string) :
  fold_left (fun t item => t +:+ render item) pairs text
  = text +:+ rows_text render pairs.
Proof.
  revert text. induction pairs as [|p pairs IH]; intros text; simpl.
  - now rewrite sapp_nil_r.
  - now rewrite IH, sapp_assoc.
Qed.


Lemma no_special_clean (field : string) :
  existsb csv_special (list_ascii_of_string field) = false -> clean field.
Proof.
  unfold clean. induction (list_ascii_of_string field) as [|c l IH]; simpl;
    intros H; [constructor|].
  apply orb_false_elim in H. destruct H as [Hc Hl]. constructor; auto.
Qed.




Lemma written_file (today : string) (directory_path : path)
    (pairs : list (string * string)) (files : gmap path string) :
  fst (config_file_writer today directory_path pairs files)
  = <[generate_config_file_path today directory_path :=
        ("sourceId,RTSsymbol" +:+ crlf) +:+ rows_text writerow pairs]> files.
Proof.
  unfold config_file_writer. cbn [fst]. now rewrite written_text.
Qed.



(** The summary of the repository's test with ten pairs. *)
Example summary_of_ten_pairs :
  snd (config_file_writer "20201023" "out" (repeat ("673", "F2:ES\H21") 10) ∅)
  = "Configuration file successfully written." +:+ nl +:+
    "10 symbols were added to the file.".
Proof. vm_compute. reflexivity. Qed.

(** *** Reading the rows back *)

Lemma quoted_body_double (field t : string) :
  field_end t ->
  quoted_body (double_quotes field +:+ String quotechar t) = Some (field, t).
Proof.
  intros Ht. induction field as [|c field IH].
  - destruct t as [|c t]; [destruct Ht|]. simpl.
    now destruct Ht as [-> | ->].
  - cbn [double_quotes]. destruct (Ascii.eqb c quotechar) eqn:E.
    + apply Ascii.eqb_eq in E. subst c. simpl in *. now rewrite IH.
    + simpl. now rewrite E, IH.
Qed.

Lemma until_special_clean (field t : string) :
  clean field -> field_end t -> until_special (field +:+ t) = (field, t).
Proof.
  unfold clean. intros Hf Ht. induction field as [|c field IH]; simpl in *.
  - destruct t as [|c t]; [destruct Ht|]. now destruct Ht as [-> | ->].
  - inversion Hf; subst. now rewrite H1, IH.
Qed.

Lemma special_quotechar (c : ascii) :
  csv_special c = false -> Ascii.eqb c quotechar = false.
Proof.
  unfold csv_special. intros H.
  repeat (apply orb_false_elim in H; destruct H as [H ?]). assumption.
Qed.

Lemma read_field_csv_field (field t : string) :
  field_end t -> read_field (csv_field field +:+ t) = Some (field, t).
Proof.
  intros Ht. unfold csv_field.
  destruct (existsb csv_special (list_ascii_of_string field)) eqn:E.
  - cbn [String.append read_field]. rewrite Ascii.eqb_refl, sapp_assoc.
    now apply quoted_body_double.
  - apply no_special_clean in E.
    rewrite <- (until_special_clean field t E Ht).
    destruct field as [|c field].
    + destruct t as [|c t]; [destruct Ht|]. cbn [String.append read_field].
      now destruct Ht as [-> | ->].
    + cbn [String.append read_field]. inversion E; subst.
      now rewrite (special_quotechar c).
Qed.

Lemma read_row_writerow (p : string * string) (after : string) :
  read_row (writerow p +:+ after) = Some (p, after).
Proof.
  destruct p as [a b]. unfold writerow, read_row. cbn [fst snd].
  rewrite !sapp_assoc.
  change ("," +:+ csv_field b +:+ crlf +:+ after)
    with (String "," (csv_field b +:+ crlf +:+ after)).
  rewrite read_field_csv_field by now left.
  rewrite Ascii.eqb_refl.
  change (crlf +:+ after) with (String carriage_return (String newline after)).
  rewrite read_field_csv_field by now right.
  now rewrite !Ascii.eqb_refl.
Qed.

Lemma rows_text_inj (pairs pairs' : list (string * string)) :
  rows_text writerow pairs = rows_text writerow pairs' -> pairs = pairs'.
Proof.
  revert pairs'. induction pairs as [|p pairs IH]; intros [|p' pairs'] H;
    simpl in H; apply (f_equal read_row) in H;
    rewrite ?read_row_writerow in H; try discriminate H; [reflexivity|].
  injection H as -> H. f_equal. now apply IH.
Qed.

(** X16.  The file that [config_file_writer] writes tells the lists of
    pairs apart: two lists that differ, be it by a comma, a quote or a line
    break inside a source id or a symbol, never give the same file. *)
Theorem config_files_of_different_pairs_differ
    (today : string) (directory_path : path)
    (pairs pairs' : list (string * string)) (files files' : gmap path string) :
  pairs <> pairs' ->
  fst (config_file_writer today directory_path pairs files)
    !! generate_config_file_path today directory_path
  <> fst (config_file_writer today directory_path pairs' files')
       !! generate_config_file_path today directory_path.
Proof.
  intros Hne H. apply Hne. rewrite !written_file, !lookup_insert_eq in H.
  injection H as H. now apply rows_text_inj.
Qed.

Lemma config_files_of_different_pairs_differ_witness :
  fst (config_file_writer "20201023" "out" [("207", "A,B")] ∅)
    !! "out/watchlist_config_20201023.csv"
  <> fst (config_file_writer "20201023" "out" [("207,A", "B")] ∅)
       !! "out/watchlist_config_20201023.csv".
Proof.
  apply (config_files_of_different_pairs_differ "20201023" "out"
           [("207", "A,B")] [("207,A", "B")] ∅ ∅).
  discriminate.
Defined.

(** ** A source with wildcard futures symbols, end to end *)

Lemma scan_lines_pairs_of (file : path) (mp ip : string) (mr ir : re)
    (source_id : string) (sel : string -> option string) (infile : list string) :
  get_source_id_from_file_path file = Return source_id ->
  re_compile mp = Return mr -> re_compile ip = Return ir ->
  (forall line,
     match search mr line with
     | Some _ => sel line <> None /\ search ir line = sel line
     | None => sel line = None
     end) ->
  forall acc,
    scan_lines file mp ip infile acc = Return (acc ++ pairs_of source_id sel infile).
Proof.
  intros Hid Hmp Hip Hsel. induction infile as [|line infile IH]; intros acc.
  - simpl. now rewrite app_nil_r.
  - cbn [scan_lines pairs_of flat_map]. fold (pairs_of source_id sel infile).
    rewrite (re_search_compiled mp mr line Hmp). cbn [bind].
    specialize (Hsel line). destruct (search mr line) as [t0|].
    + destruct Hsel as [Hsome Heq]. rewrite Hid. cbn [bind].
      rewrite (re_search_compiled ip ir line Hip). cbn [bind]. rewrite Heq.
      destruct (sel line) as [symbol|]; [|contradiction].
      rewrite IH. now rewrite <- app_assoc.
    + rewrite Hsel. apply IH.
Qed.

(** No contract of a root without special characters starts inside a text
    that has no backslash and ends with a bar. *)
Lemma futures_contract_not_in_prefix (root : string) :
  plain root ->
  forall v s, lacks backslash v ->
    futures_contract root ((v +:+ "|") +:+ s) = None.
Proof.
  intros Hr v s Hv. unfold futures_contract.
  assert (H : strip (root +:+ "\") ((v +:+ "|") +:+ s) = None);
    [|now rewrite H].
  revert v Hv. unfold plain in Hr.
  induction root as [|a root IH]; intros v Hv.
  - destruct v as [|b v]; [reflexivity|].
    apply lacks_cons in Hv. destruct Hv as [Hb _].
    cbn [String.append strip]. unfold backslash in Hb. now rewrite Hb.
  - inversion Hr as [|? ? Ha Hroot]; subst.
    destruct v as [|b v]; cbn [String.append strip].
    + destruct (Ascii.eqb_spec "|" a) as [<-|]; [discriminate Ha | reflexivity].
    + apply lacks_cons in Hv. destruct Hv as [_ Hv].
      destruct (Ascii.eqb b a); [now apply IH | reflexivity].
Qed.

Lemma first_of_all_None {A : Type} (f : A -> option string) (l : list A) :
  (forall x, In x l -> f x = None) -> first_of (map f l) = None.
Proof.
  induction l as [|x l IH]; intros H; [reflexivity|].
  cbn [map first_of fold_right]. rewrite (H x (or_introl eq_refl)).
  apply IH. intros y Hy. apply H. now right.
Qed.

Lemma find_first_after_prefix (f : string -> option string) (s : string) :
  (forall v, lacks backslash v -> f ((v +:+ "|") +:+ s) = None) ->
  forall v b, lacks backslash v ->
    find_first (fun _ => f) b ((v +:+ "|") +:+ s)
    = find_first (fun _ => f) (Some "|"%char) s.
Proof.
  intros Hf. induction v as [|c v IH]; intros b Hv.
  - change (("" +:+ "|") +:+ s) with (String "|" s). cbn [find_first].
    change (String "|" s) with (("" +:+ "|") +:+ s).
    now rewrite (Hf "" Hv).
  - change ((String c v +:+ "|") +:+ s) with (String c ((v +:+ "|") +:+ s)).
    cbn [find_first].
    change (String c ((v +:+ "|") +:+ s)) with ((String c v +:+ "|") +:+ s).
    rewrite (Hf _ Hv). apply IH. now apply lacks_cons in Hv.
Qed.

Lemma plain_lacks_backslash (s : string) : plain s -> lacks backslash s.
Proof.
  unfold plain, lacks. induction 1 as [|c l Hc _ IH]; constructor;
    [now apply special_backslash | exact IH].
Qed.

Lemma futures_symbols_patterns (roots : list string) :
  Forall (fun root => plain root /\ startswith root "F" = true) roots ->
  Forall2 symbol_pattern (map (fun root => root +:+ "\*") roots)
    (map (fun root => root +:+ "\\[A-Z][0-9]{2,4}") roots) /\
  Forall2 pattern_re (map (fun root => root +:+ "\\[A-Z][0-9]{2,4}") roots)
    (map futures_wildcard_re roots).
Proof.
  induction 1 as [|root roots [Hp Hf] _ [IH1 IH2]]; [split; constructor|].
  destruct (compile_futures_wildcard root Hp) as [Ht Hc].
  split; constructor; try assumption.
  unfold symbol_pattern. rewrite startswith_F.
  - now rewrite Ht.
  - destruct root; [discriminate Hf | exact Hf].
Qed.

(** The two patterns of a source with wildcard futures symbols, and what
    they select in a line. *)
Lemma wildcard_futures_selection (source_id : string) (roots : list string) :
  plain source_id ->
  roots <> [] ->
  Forall (fun root => plain root /\ startswith root "F" = true) roots ->
  exists mp ip mr ir,
    create_dc_message_level_pattern source_id (map wildcard roots) = Return mp /\
    create_instrument_level_pattern (map wildcard roots) = Return ip /\
    re_compile mp = Return mr /\ re_compile ip = Return ir /\
    forall line,
      match search mr line with
      | Some _ =>
          selected_contract ("DC|" +:+ source_id +:+ "|") roots line <> None /\
          search ir line
          = selected_contract ("DC|" +:+ source_id +:+ "|") roots line
      | None => selected_contract ("DC|" +:+ source_id +:+ "|") roots line = None
      end.
Proof.
  intros Hplain Hne Hroots.
  destruct (futures_symbols_patterns roots Hroots) as [Hsym Hre].
  fold wildcard in Hsym.
  set (symbols := map wildcard roots) in *.
  set (pats := map (fun root => root +:+ "\\[A-Z][0-9]{2,4}") roots) in *.
  destruct (compiled_all_branches pats _ Hre) as (bss & Hb & Hrs).
  assert (Hbody : group_body bss = concat bss).
  { destruct bss; [|reflexivity]. subst pats. destruct roots; [congruence|].
    inversion Hb. }
  set (w := "DC|" +:+ source_id +:+ "|").
  set (F := fun fields => first_of (map (fun root => futures_contract root fields) roots)).
  assert (Hat : forall b s, match_at (instrument_re (alt_of (group_body bss))) b s = F s).
  { intros b s. rewrite match_at_instrument_re, Hbody, match_at_alt_concat, <- Hrs.
    unfold F. rewrite !map_map. f_equal. apply map_ext. intros root.
    apply match_at_futures_wildcard. }
  assert (Hskip : forall s, find_first (fun _ => F) None (w +:+ s) = F s
                            \/ F s = None).
  { intros s. destruct (F s) eqn:E; [left | now right].
    unfold w. change ("DC|" +:+ source_id +:+ "|") with (("DC|" +:+ source_id) +:+ "|").
    rewrite find_first_after_prefix.
    - destruct s; cbn [find_first]; now rewrite E.
    - intros v Hv. unfold F. apply first_of_all_None. intros root Hin.
      apply futures_contract_not_in_prefix; [|exact Hv].
      now destruct (proj1 (List.Forall_forall _ _) Hroots root Hin).
    - apply (lacks_app backslash "DC|" source_id);
        [unfold lacks; repeat constructor | now apply plain_lacks_backslash]. }
  exists ("^DC\|" +:+ source_id +:+ "\|" +:+ "(" +:+ join "|" pats +:+ ")"),
    ("(" +:+ join "|" pats +:+ ")"),
    (message_re w (alt_of (group_body bss))),
    (instrument_re (alt_of (group_body bss))).
  split; [|split; [|split; [|split]]].
  - unfold create_dc_message_level_pattern.
    now rewrite (instrument_level_pattern_text symbols pats Hsym).
  - exact (instrument_level_pattern_text symbols pats Hsym).
  - exact (compile_message_level source_id pats bss Hplain Hb).
  - exact (compile_instrument_level pats bss Hb).
  - intros line. fold w. rewrite search_message_re. unfold selected_contract.
    fold F. destruct (strip w line) as [s|] eqn:Es; [|reflexivity].
    rewrite Hat. fold (F s).
    destruct (F s) as [t|] eqn:E; cbn [option_map]; [|reflexivity].
    split; [discriminate|].
    rewrite (search_find_first _ (fun _ => F) Hat).
    apply strip_Some in Es. subst line.
    destruct (Hskip s) as [H | H]; congruence.
Qed.

(** [process_coreref_file] as the scan of the lines with the two patterns of
    the source. *)
Lemma process_coreref_file_scan
    (fs : filesystem) (file : path) (d : gmap string (list string))
    (source_id : string) (symbols : list string) (mp ip : string)
    (out : list (string * string)) :
  get_source_id_from_file_path file = Return source_id ->
  d !! source_id = Some symbols ->
  create_dc_message_level_pattern source_id symbols = Return mp ->
  create_instrument_level_pattern symbols = Return ip ->
  scan_lines file mp ip (lines (fs file)) [] = Return out ->
  failure (fs file) = None ->
  process_coreref_file fs file d = Return out.
Proof.
  intros Hid Hd Hmp Hip Hscan Hf.
  unfold process_coreref_file, retrieve_instruments.
  rewrite Hid. cbn [bind]. rewrite Hd. cbn [iterate bind].
  rewrite Hmp, Hip. cbn [bind].
  unfold retrieve_source_symbol_pairs, read_file.
  rewrite Hscan. cbn [bind]. now rewrite Hf.
Qed.

(** X17.  For a source whose symbols are wildcard futures symbols [root\*],
    with roots that start with [F] and, like the source id, have no special
    character, [process_coreref_file] returns, in the order of the lines of
    the file, one pair for each line that starts with [DC|source id|]
    followed at once by a contract of one of the roots: the source id and
    that contract, the one of the first such root of the list.  The other
    lines, and what follows the contract in a line, add nothing. *)
Theorem wildcard_futures_file_gives_contracts_after_source_id
    (fs : filesystem) (file : path) (d : gmap string (list string))
    (source_id : string) (roots : list string) :
  failure (fs file) = None ->
  get_source_id_from_file_path file = Return source_id ->
  plain source_id ->
  roots <> [] ->
  Forall (fun root => plain root /\ startswith root "F" = true) roots ->
  d !! source_id = Some (map (fun root => root +:+ "\*") roots) ->
  process_coreref_file fs file d
  = Return (pairs_of source_id
              (selected_contract ("DC|" +:+ source_id +:+ "|") roots)
              (lines (fs file))).
Proof.
  intros Hf Hid Hplain Hne Hroots Hd.
  destruct (wildcard_futures_selection source_id roots Hplain Hne Hroots)
    as (mp & ip & mr & ir & Hmp & Hip & Hmr & Hir & Hsel).
  apply (process_coreref_file_scan fs file d source_id (map wildcard roots) mp ip);
    try assumption.
  now rewrite (scan_lines_pairs_of file mp ip mr ir source_id _ _ Hid Hmr Hir Hsel []).
Qed.

Lemma wildcard_futures_file_gives_contracts_after_source_id_witness :
  process_coreref_file sample_fs coreref_367 sample_dictionary
  = Return [("367", "F2:ZN\M21"); ("367", "F2:ZB\H21")].
Proof.
  rewrite (wildcard_futures_file_gives_contracts_after_source_id sample_fs
             coreref_367 sample_dictionary "367" ["F2:ZN"; "F2:ZB"]);
    try reflexivity.
  - unfold plain. repeat constructor.
  - discriminate.
  - repeat (constructor; [split; [unfold plain; repeat constructor | reflexivity]|]).
    constructor.
Defined.

(** ** What the fixed-income pattern extracts *)











(** ** The order of the files *)

Lemma le_antisym (x y : string) : String.le x y -> String.le y x -> x = y.
Proof.
  unfold String.le, String.leb. rewrite (String.compare_antisym y x).
  destruct (String.compare x y) eqn:E; simpl; intros H1 H2;
    [now apply String.compare_eq_iff | destruct H2 | destruct H1].
Qed.

Lemma has_key_fst (p : string * string) : has_key (fst p) p = true.
Proof. unfold has_key. apply String.eqb_refl. Qed.

Lemma filter_head_in {A : Type} (f : A -> bool) (l : list A) (x : A)
    (tl : list A) :
  List.filter f l = x :: tl -> In x l /\ f x = true.
Proof.
  intros H. apply filter_In. rewrite H. now left.
Qed.

(** Two lists in ascending order of source id that hold, for every source
    id, the same pairs in the same order are equal. *)
Lemma sorted_by_key_unique (l1 l2 : list (string * string)) :
  StronglySorted key_le l1 -> StronglySorted key_le l2 ->
  (forall k, List.filter (has_key k) l1 = List.filter (has_key k) l2) ->
  l1 = l2.
Proof.
  intros H1. revert l2. induction H1 as [|x l1 Hs1 IH Hx]; intros l2 H2 Hf.
  - destruct l2 as [|y l2]; [reflexivity|].
    specialize (Hf (fst y)). cbn [List.filter] in Hf.
    rewrite has_key_fst in Hf. discriminate Hf.
  - destruct l2 as [|y l2].
    + specialize (Hf (fst x)). cbn [List.filter] in Hf.
      rewrite has_key_fst in Hf. discriminate Hf.
    + inversion H2 as [|? ? Hs2 Hy]; subst.
      assert (Hxy : x = y).
      { pose proof (Hf (fst x)) as Fx. pose proof (Hf (fst y)) as Fy.
        cbn [List.filter] in Fx, Fy. rewrite has_key_fst in Fx, Fy.
        destruct (has_key (fst x) y) eqn:Kxy; [now injection Fx|].
        destruct (has_key (fst y) x) eqn:Kyx.
        { unfold has_key in *. apply String.eqb_eq in Kyx.
          rewrite Kyx, String.eqb_refl in Kxy. discriminate Kxy. }
        symmetry in Fx. apply filter_head_in in Fx. destruct Fx as [Hin2 _].
        apply filter_head_in in Fy. destruct Fy as [Hin1 _].
        rewrite List.Forall_forall in Hx, Hy.
        pose proof (le_antisym _ _ (Hx y Hin1) (Hy x Hin2)) as E.
        unfold has_key in Kxy. rewrite E, String.eqb_refl in Kxy.
        discriminate Kxy. }
      subst y. f_equal. apply IH; [exact Hs2|].
      intros k. specialize (Hf k). cbn [List.filter] in Hf.
      destruct (has_key k x); [now injection Hf | exact Hf].
Qed.

Lemma file_pairs_key (fs : filesystem) (d : gmap string (list string))
    (file : path) (pair : string * string) :
  In pair (pairs_found fs d file) ->
  get_source_id_from_file_path file = Return (fst pair).
Proof.
  unfold pairs_found, file_pairs.
  destruct (get_source_id_from_file_path file) as [sid|e] eqn:Hid; cbn [bind];
    [|intros []].
  destruct (negb (in_keys sid d)); [intros []|].
  destruct (process_coreref_file fs file d) as [found|e] eqn:Hp; [|intros []].
  intros Hin.
  destruct (process_coreref_file_provenance fs file d found Hp pair Hin) as [H _].
  now rewrite <- Hid, H.
Qed.

Lemma filter_other_key (fs : filesystem) (d : gmap string (list string))
    (file : path) (k : string) :
  get_source_id_from_file_path file <> Return k ->
  List.filter (has_key k) (pairs_found fs d file) = [].
Proof.
  intros Hne.
  assert (H : forall l, (forall p : string * string, In p l -> has_key k p = false) ->
              List.filter (has_key k) l = []).
  { induction l as [|p l IH]; intros Hl; [reflexivity|].
    cbn [List.filter]. rewrite (Hl p (or_introl eq_refl)).
    apply IH. intros q Hq. apply Hl. now right. }
  apply H. intros p Hp. apply file_pairs_key in Hp.
  unfold has_key. destruct (String.eqb_spec (fst p) k) as [<-|]; [|reflexivity].
  contradiction.
Qed.

Lemma filter_concat_permutation (fs : filesystem) (d : gmap string (list string))
    (k : string) (files files' : list path) :
  Permutation files files' ->
  List.NoDup (map get_source_id_from_file_path files) ->
  List.filter (has_key k) (concat (map (pairs_found fs d) files))
  = List.filter (has_key k) (concat (map (pairs_found fs d) files')).
Proof.
  induction 1 as [|x l l' Hp IH|x y l|l l' l'' Hp1 IH1 Hp2 IH2]; intros Hnd.
  - reflexivity.
  - cbn [map concat]. rewrite !List.filter_app. f_equal. apply IH.
    now inversion Hnd.
  - cbn [map concat]. rewrite !List.filter_app.
    cbn [map] in Hnd. inversion Hnd as [|? ? Hy _]; subst.
    assert (Hk : get_source_id_from_file_path x = Return k \/
                 get_source_id_from_file_path x <> Return k).
    { destruct (get_source_id_from_file_path x) as [sid|e]; [|right; discriminate].
      destruct (string_dec sid k) as [-> | Hne]; [now left | right; congruence]. }
    destruct Hk as [Ex | Nx].
    + rewrite (filter_other_key fs d y k); [reflexivity|].
      intros Ey. apply Hy. left. congruence.
    + now rewrite (filter_other_key fs d x k Nx).
  - rewrite (IH1 Hnd). apply IH2.
    eapply Permutation_NoDup; [|exact Hnd]. now apply Permutation_map.
Qed.

Lemma process_all_pairs_found (fs : filesystem) (d : gmap string (list string))
    (files : list path) :
  (forall f, In f files -> returns (file_pairs fs d f) = true) ->
  process_all_coreref_files fs files d
  = Return (sort_by_key (concat (map (pairs_found fs d) files))).
Proof.
  intros H. unfold process_all_coreref_files.
  rewrite (gather_concat fs d files (map (pairs_found fs d) files) []);
    [reflexivity|].
  induction files as [|f files IH]; [constructor|].
  cbn [map]. constructor.
  - specialize (H f (or_introl eq_refl)). unfold pairs_found.
    now destruct (file_pairs fs d f).
  - apply IH. intros g Hg. apply H. now right.
Qed.

(** X19.  When every listed file is processed and no two of them have the
    same source id, the result of [process_all_coreref_files] does not
    depend on the order in which the files are listed. *)
Theorem file_order_is_irrelevant_for_distinct_sources
    (fs : filesystem) (d : gmap string (list string)) (files files' : list path) :
  Permutation files files' ->
  (forall f, In f files -> returns (file_pairs fs d f) = true) ->
  List.NoDup (map get_source_id_from_file_path files) ->
  process_all_coreref_files fs files' d = process_all_coreref_files fs files d.
Proof.
  intros Hp Hr Hnd.
  rewrite (process_all_pairs_found fs d files Hr).
  rewrite (process_all_pairs_found fs d files').
  - f_equal. apply sorted_by_key_unique; try apply sort_by_key_sorted.
    intros k. rewrite !sort_by_key_stable. symmetry.
    now apply filter_concat_permutation.
  - intros f Hf. apply Hr. eapply Permutation_in; [|exact Hf]. now symmetry.
Qed.

Lemma file_order_is_irrelevant_for_distinct_sources_witness :
  process_all_coreref_files sample_fs [coreref_367; coreref_207] sample_dictionary
  = process_all_coreref_files sample_fs [coreref_207; coreref_367] sample_dictionary.
Proof.
  apply (file_order_is_irrelevant_for_distinct_sources sample_fs sample_dictionary
           [coreref_207; coreref_367] [coreref_367; coreref_207]).
  - apply perm_swap.
  - intros f [<- | [<- | []]]; vm_compute; reflexivity.
  - repeat constructor; vm_compute; intuition discriminate.
Defined.

(** ** A batch over wildcard futures symbols *)

Lemma file_pairs_contracts (fs : filesystem)
    (roots_of : gmap string (list string)) (file : path) :
  futures_source fs roots_of file ->
  file_pairs fs (map wildcard <$> roots_of) file
  = Return (contracts_of_file fs roots_of file).
Proof.
  intros (Hf & source_id & Hid & H).
  unfold file_pairs, contracts_of_file, in_keys. rewrite Hid. cbn [bind].
  rewrite lookup_fmap.
  destruct (roots_of !! source_id) as [roots|] eqn:Hr; [|reflexivity].
  cbn [fmap option_fmap option_map negb]. destruct H as (Hplain & Hne & Hroots).
  destruct (wildcard_futures_selection source_id roots Hplain Hne Hroots)
    as (mp & ip & mr & ir & Hmp & Hip & Hmr & Hir & Hsel).
  apply (process_coreref_file_scan fs file _ source_id (map wildcard roots) mp ip);
    try assumption.
  - now rewrite lookup_fmap, Hr.
  - now rewrite (scan_lines_pairs_of file mp ip mr ir source_id _ _ Hid Hmr Hir Hsel []).
Qed.

(** X20.  For a dictionary that gives each source wildcard futures symbols
    [root\*], and files that can be read to their end, the batch returns
    the contracts that follow [DC|source id|] at the start of the lines of
    the files of the listed sources, file after file and line after line,
    and then put in ascending order of source id by a stable sort. *)
Theorem futures_batch_is_sorted_contracts_of_files
    (fs : filesystem) (roots_of : gmap string (list string)) (files : list path) :
  Forall (futures_source fs roots_of) files ->
  process_all_coreref_files fs files (map wildcard <$> roots_of)
  = Return (sort_by_key (flat_map (contracts_of_file fs roots_of) files)).
Proof.
  intros H. unfold process_all_coreref_files.
  rewrite (gather_concat fs _ files (map (contracts_of_file fs roots_of) files) []).
  - cbn [bind app]. now rewrite flat_map_concat_map.
  - induction H as [|f files Hf _ IH]; cbn [map]; constructor;
      [now apply file_pairs_contracts | exact IH].
Qed.

Lemma futures_batch_is_sorted_contracts_of_files_witness :
  process_all_coreref_files sample_fs [coreref_367; coreref_207]
    (map wildcard <$> {[ "207" := ["F:FDAX"]; "367" := ["F2:ZN"; "F2:ZB"] ]})
  = Return [("207", "F:FDAX\H21"); ("207", "F:FDAX\Z20");
            ("367", "F2:ZN\M21"); ("367", "F2:ZB\H21")].
Proof.
  rewrite (futures_batch_is_sorted_contracts_of_files sample_fs
             {[ "207" := ["F:FDAX"]; "367" := ["F2:ZN"; "F2:ZB"] ]}
             [coreref_367; coreref_207]); [reflexivity|].
  repeat (constructor;
          [split; [reflexivity|]; eexists; split; [reflexivity|];
           split; [unfold plain; repeat constructor|];
           split; [discriminate|];
           repeat (constructor;
                   [split; [unfold plain; repeat constructor | reflexivity]|]);
           constructor|]).
  constructor.
Defined.
